(** * sbs2024: progression, store and save logic

    A shallow embedding of the game-play screen ([ShitState.cpp]), the store
    overlay ([StoreSubState.cpp]), the end-of-run screen ([EndState.cpp]) and
    the intro screen ([IntroState.cpp]), together with the configuration
    they read and its loader ([config.cpp]).

    Conventions of the embedding:
    - [f32] quantities are exact rationals ([Q]): rounding, infinities and
      NaN are not modelled, comparisons and the order of the arithmetic are
      those of the source.
    - [s16] quantities are integers ([Z]); where the source does arithmetic
      on them and narrows the result back to 16 bits the wrap-around is
      written out with [wrap16].
    - Rendering is left out; audio cues and screen changes requested from the
      engine are recorded in a log carried by the state. *)

From Stdlib Require Import ZArith QArith Qminmax Bool List String DecimalString.
From Stdlib Require Import Lia Lqa.
Import ListNotations.

Local Open Scope Z_scope.

(** ** Machine integers *)

(** Narrowing of an [int] result to [s16] (two's complement). *)
Definition wrap16 (z : Z) : Z := (z + 32768) mod 65536 - 32768.

Definition s16_range (z : Z) : Prop := -32768 <= z < 32768.

(** [SDL_max(x, y)] is the macro [(((x) > (y)) ? (x) : (y))]. *)
Definition SDL_max (x y : Z) : Z := if x >? y then x else y.

(** ** Single-precision quantities *)

Definition f32 : Type := Q.

Definition f32_lt (a b : f32) : bool := if Qlt_le_dec a b then true else false.
Definition f32_le (a b : f32) : bool := if Qlt_le_dec b a then false else true.

Declare Scope f32_scope.
Delimit Scope f32_scope with f32.
Infix "<?" := f32_lt (at level 70, no associativity) : f32_scope.
Infix "<=?" := f32_le (at level 70, no associativity) : f32_scope.

(** ** The save record *)

Module Savefile.

(** The persisted fields.  [save.hpp] is not part of the sources at hand;
    the field list is the one the screens read and write, and every store
    into one of them narrows to [s16] ([lexical_cast<s16>] in the console
    commands, [s16(prestige + 1)] in the end screen, [s16] item
    arguments). *)
Record V2 : Type := mkV2 {
  score : Z;
  prestige : Z;
  lubeTier : Z;
  gravityTier : Z;
  oxyTier : Z
}.

Record t : Type := mk {
  v2 : V2;
  dirty : bool
}.

(** Modelled from the spec: the default member initialisers of [Savefile]
    (in [save.hpp], absent here); the spec has a missing record default
    to the zero-valued record, with [dirty] clear. *)
Definition default_v2 : V2 := mkV2 0 0 0 0 0.
Definition default : t := mk default_v2 false.

Definition set_v2 (r : V2) (s : t) : t := mk r (dirty s).
Definition set_dirty (b : bool) (s : t) : t := mk (v2 s) b.

Definition set_score (z : Z) (r : V2) : V2 :=
  mkV2 z (prestige r) (lubeTier r) (gravityTier r) (oxyTier r).
Definition set_prestige (z : Z) (r : V2) : V2 :=
  mkV2 (score r) z (lubeTier r) (gravityTier r) (oxyTier r).
Definition set_lubeTier (z : Z) (r : V2) : V2 :=
  mkV2 (score r) (prestige r) z (gravityTier r) (oxyTier r).
Definition set_gravityTier (z : Z) (r : V2) : V2 :=
  mkV2 (score r) (prestige r) (lubeTier r) z (oxyTier r).
Definition set_oxyTier (z : Z) (r : V2) : V2 :=
  mkV2 (score r) (prestige r) (lubeTier r) (gravityTier r) z.

End Savefile.

(** ** Persistent storage *)

Module Storage.

(** Modelled from the spec: the engine's [data::Store] and the serialiser
    of [Savefile] are not part of the sources at hand.  The spec describes
    the collaborator as "persist/load a versioned record by key", has a
    missing record default to the caller's value, and has the dirty flag
    cleared once the record has been handed over.  The storage is the
    journal of persistence requests, newest first, so that requests can
    be counted; a load returns the newest record written under the key. *)
Definition t : Type := list (string * Savefile.V2).

Fixpoint lookup (key : string) (j : t) : option Savefile.V2 :=
  match j with
  | [] => None
  | (k, r) :: j' => if String.eqb k key then Some r else lookup key j'
  end.

Definition nqLoad (key : string) (j : t) (into : Savefile.V2) : Savefile.V2 :=
  match lookup key j with
  | Some r => r
  | None => into
  end.

Definition nqSave (key : string) (sv : Savefile.t) (j : t) : t * Savefile.t :=
  ((key, Savefile.v2 sv) :: j, Savefile.set_dirty false sv).

(** The requests of a journal that were made under [key]. *)
Definition under (key : string) (j : t) : t :=
  filter (fun e => String.eqb (fst e) key) j.

End Storage.

(** ** Configuration ([config.cpp]) *)

Module StoreItem.

Inductive Kind : Type := Lube | Gravity | Oxy | EndGame | None.

Record t : Type := mk {
  name : string;
  desc : string;
  price : Z;
  icon : Z;
  kind : Kind;
  argument : Z;
  prestige : Z
}.

Definition Kind_eqb (a b : Kind) : bool :=
  match a, b with
  | Lube, Lube | Gravity, Gravity | Oxy, Oxy
  | EndGame, EndGame | None, None => true
  | _, _ => false
  end.

End StoreItem.

Module Config.

Record LubeT : Type := mkLube {
  lube_base : f32; lube_upgrade : f32; lube_maxTier : Z }.
Record GravityT : Type := mkGravity {
  gravity_base : f32; gravity_upgrade : f32; gravity_threshold : f32;
  gravity_maxTier : Z }.
Record OxyT : Type := mkOxy {
  oxy_regen : f32; oxy_drain : f32; oxy_min : f32 }.
Record BrickT : Type := mkBrick {
  brick_xPos : f32; brick_startY : f32; brick_endY : f32;
  brick_fallSpeed : f32; brick_size : f32 }.
Record WaterT : Type := mkWater {
  water_minX : f32; water_maxX : f32; water_minY : f32; water_maxY : f32 }.

Record t : Type := mk {
  lube : LubeT;
  gravity : GravityT;
  oxy : OxyT;
  brick : BrickT;
  water : WaterT;
  store : list StoreItem.t
}.

End Config.

(** ** The store overlay ([StoreSubState.cpp]) *)

Module StoreSubState.

Inductive Cue : Type := BrokeSound | BuySound.

(** The fields of the overlay that [acquire] touches.  [mData.save] is the
    game-play screen's save record, shared by reference: it is passed in
    and handed back explicitly. *)
Record t : Type := mk {
  mItemHover : Z;
  mPurchaseFloat : Z;
  mPurchaseFloatTimer : f32;
  mScroll : Z;
  source : list Cue
}.

Definition cNoPurchaseFloat : Z := -1.
Definition cInsufficientFundsFloat : Z := -2.
Definition cAlreadyOwnedFloat : Z := -3.

Definition initial : t := mk (-1) cNoPurchaseFloat 0%Q 0 [].

Definition hasItem (save : Savefile.t) (item : StoreItem.t) : bool :=
  let r := Savefile.v2 save in
  if Savefile.prestige r <? StoreItem.prestige item then false
  else
    match StoreItem.kind item with
    | StoreItem.Lube => Savefile.lubeTier r >=? StoreItem.argument item
    | StoreItem.Gravity => Savefile.gravityTier r >=? StoreItem.argument item
    | StoreItem.Oxy => Savefile.oxyTier r >=? StoreItem.argument item
    | _ => false
    end.

(** The ways out of [acquire]: the two rejections, the end of the function
    after a tier purchase, the [swapStatePtr(getEndState())] return, and
    the [NWGE_UNREACHABLE] of an item without a kind. *)
Inductive Exit : Type :=
| AlreadyOwned
| InsufficientFunds
| Purchased
| SwappedToEnd
| Unreachable.

Definition reject (code : Z) (s : t) : t :=
  mk (mItemHover s) code 0%Q (mScroll s) (BrokeSound :: source s).

Definition acquire (s : t) (save : Savefile.t) (item : StoreItem.t)
  : Exit * t * Savefile.t :=
  if hasItem save item then
    (AlreadyOwned, reject cAlreadyOwnedFloat s, save)
  else if Savefile.score (Savefile.v2 save) <? StoreItem.price item then
    (InsufficientFunds, reject cInsufficientFundsFloat s, save)
  else
    let r := Savefile.v2 save in
    let r := Savefile.set_score
               (wrap16 (Savefile.score r - StoreItem.price item)) r in
    let bought (r' : Savefile.V2) :=
      (Purchased,
       mk (-1) (mItemHover s) (mPurchaseFloatTimer s) (mScroll s)
          (BuySound :: source s),
       Savefile.mk r' true) in
    match StoreItem.kind item with
    | StoreItem.Lube =>
        bought (Savefile.set_lubeTier
                  (SDL_max (Savefile.lubeTier r) (StoreItem.argument item)) r)
    | StoreItem.Gravity =>
        bought (Savefile.set_gravityTier
                  (SDL_max (Savefile.gravityTier r) (StoreItem.argument item)) r)
    | StoreItem.Oxy =>
        bought (Savefile.set_oxyTier
                  (SDL_max (Savefile.oxyTier r) (StoreItem.argument item)) r)
    | StoreItem.EndGame => (SwappedToEnd, s, Savefile.mk r true)
    | StoreItem.None => (Unreachable, s, Savefile.mk r true)
    end.

(** [getHoveredItem]: the [mItemHover]-th of the items whose prestige
    requirement is met. *)
Fixpoint nthOffered (save : Savefile.t) (items : list StoreItem.t)
    (displayIdx hover : Z) : option StoreItem.t :=
  match items with
  | [] => Datatypes.None
  | item :: rest =>
      if StoreItem.prestige item >? Savefile.prestige (Savefile.v2 save)
      then nthOffered save rest displayIdx hover
      else if displayIdx =? hover then Some item
      else nthOffered save rest (displayIdx + 1) hover
  end.

Definition getHoveredItem (s : t) (save : Savefile.t) (cfg : Config.t)
  : option StoreItem.t :=
  if mItemHover s <? 0 then Datatypes.None
  else nthOffered save (Config.store cfg) 0 (mItemHover s).

(** The overlay's own [tick]: the purchase notification expires. *)
Definition cPurchaseFloatLifetime : f32 := 5%Q.

Definition tick (delta : f32) (s : t) : t :=
  if negb (mPurchaseFloat s =? cNoPurchaseFloat) then
    let timer := (mPurchaseFloatTimer s + delta)%Q in
    if (cPurchaseFloatLifetime <=? timer)%f32
    then mk (mItemHover s) cNoPurchaseFloat timer (mScroll s) (source s)
    else mk (mItemHover s) (mPurchaseFloat s) timer (mScroll s) (source s)
  else s.

(** [acquire] called [n] times in a row on the same item. *)
Fixpoint acquire_n (n : nat) (s : t) (save : Savefile.t) (item : StoreItem.t)
  : t * Savefile.t :=
  match n with
  | O => (s, save)
  | S n' =>
      let '(_, s', save') := acquire s save item in
      acquire_n n' s' save' item
  end.

End StoreSubState.

(** ** The game-play screen ([ShitState.cpp]) *)

Module ShitState.

(** What the screen asks of the engine: audio cues, and the push of the
    store overlay (with [tickParent] and [renderParent] set, so this screen
    keeps ticking underneath it). *)
Inductive Request : Type :=
| PlayBreath
| PlayPop
| PlaySplash
| PushStore.

Inductive Event : Type :=
| MouseDown (x y : f32)
| MouseMotion (x y : f32)
| OtherEvent.

(** The members of the class that the simulation reads or writes, the
    function-local [static bool sSplash] of [tick], and the log of requests
    to the engine.  [mStore] is the storage as seen through the screen's
    [data::Store] handle. *)
Record t : Type := mk {
  mEffort : f32;
  mOxy : f32;
  mOuttaBreath : bool;
  mProgress : f32;
  mCooldown : f32;
  mGravity : f32;
  mProgressDecay : f32;
  mBrickFall : f32;
  mScoreString : string;
  mTimer : f32;
  mStore : Storage.t;
  mHoveringStoreIcon : bool;
  mConfig : Config.t;
  mSave : Savefile.t;
  mWaterX : f32;
  mWaterY : f32;
  sSplash : bool;
  engine : list Request
}.

Definition set_mEffort (v : f32) (s : t) : t :=
  mk v (mOxy s) (mOuttaBreath s) (mProgress s) (mCooldown s) (mGravity s)
     (mProgressDecay s) (mBrickFall s) (mScoreString s) (mTimer s)
     (mStore s) (mHoveringStoreIcon s) (mConfig s) (mSave s) (mWaterX s)
     (mWaterY s) (sSplash s) (engine s).
Definition set_mOxy (v : f32) (s : t) : t :=
  mk (mEffort s) v (mOuttaBreath s) (mProgress s) (mCooldown s) (mGravity s)
     (mProgressDecay s) (mBrickFall s) (mScoreString s) (mTimer s)
     (mStore s) (mHoveringStoreIcon s) (mConfig s) (mSave s) (mWaterX s)
     (mWaterY s) (sSplash s) (engine s).
Definition set_mOuttaBreath (v : bool) (s : t) : t :=
  mk (mEffort s) (mOxy s) v (mProgress s) (mCooldown s) (mGravity s)
     (mProgressDecay s) (mBrickFall s) (mScoreString s) (mTimer s)
     (mStore s) (mHoveringStoreIcon s) (mConfig s) (mSave s) (mWaterX s)
     (mWaterY s) (sSplash s) (engine s).
Definition set_mProgress (v : f32) (s : t) : t :=
  mk (mEffort s) (mOxy s) (mOuttaBreath s) v (mCooldown s) (mGravity s)
     (mProgressDecay s) (mBrickFall s) (mScoreString s) (mTimer s)
     (mStore s) (mHoveringStoreIcon s) (mConfig s) (mSave s) (mWaterX s)
     (mWaterY s) (sSplash s) (engine s).
Definition set_mCooldown (v : f32) (s : t) : t :=
  mk (mEffort s) (mOxy s) (mOuttaBreath s) (mProgress s) v (mGravity s)
     (mProgressDecay s) (mBrickFall s) (mScoreString s) (mTimer s)
     (mStore s) (mHoveringStoreIcon s) (mConfig s) (mSave s) (mWaterX s)
     (mWaterY s) (sSplash s) (engine s).
Definition set_mGravity (v : f32) (s : t) : t :=
  mk (mEffort s) (mOxy s) (mOuttaBreath s) (mProgress s) (mCooldown s) v
     (mProgressDecay s) (mBrickFall s) (mScoreString s) (mTimer s)
     (mStore s) (mHoveringStoreIcon s) (mConfig s) (mSave s) (mWaterX s)
     (mWaterY s) (sSplash s) (engine s).
Definition set_mProgressDecay (v : f32) (s : t) : t :=
  mk (mEffort s) (mOxy s) (mOuttaBreath s) (mProgress s) (mCooldown s)
     (mGravity s) v (mBrickFall s) (mScoreString s) (mTimer s) (mStore s)
     (mHoveringStoreIcon s) (mConfig s) (mSave s) (mWaterX s) (mWaterY s)
     (sSplash s) (engine s).
Definition set_mBrickFall (v : f32) (s : t) : t :=
  mk (mEffort s) (mOxy s) (mOuttaBreath s) (mProgress s) (mCooldown s)
     (mGravity s) (mProgressDecay s) v (mScoreString s) (mTimer s)
     (mStore s) (mHoveringStoreIcon s) (mConfig s) (mSave s) (mWaterX s)
     (mWaterY s) (sSplash s) (engine s).
Definition set_mScoreString (v : string) (s : t) : t :=
  mk (mEffort s) (mOxy s) (mOuttaBreath s) (mProgress s) (mCooldown s)
     (mGravity s) (mProgressDecay s) (mBrickFall s) v (mTimer s) (mStore s)
     (mHoveringStoreIcon s) (mConfig s) (mSave s) (mWaterX s) (mWaterY s)
     (sSplash s) (engine s).
Definition set_mTimer (v : f32) (s : t) : t :=
  mk (mEffort s) (mOxy s) (mOuttaBreath s) (mProgress s) (mCooldown s)
     (mGravity s) (mProgressDecay s) (mBrickFall s) (mScoreString s) v
     (mStore s) (mHoveringStoreIcon s) (mConfig s) (mSave s) (mWaterX s)
     (mWaterY s) (sSplash s) (engine s).
Definition set_mStore (v : Storage.t) (s : t) : t :=
  mk (mEffort s) (mOxy s) (mOuttaBreath s) (mProgress s) (mCooldown s)
     (mGravity s) (mProgressDecay s) (mBrickFall s) (mScoreString s)
     (mTimer s) v (mHoveringStoreIcon s) (mConfig s) (mSave s) (mWaterX s)
     (mWaterY s) (sSplash s) (engine s).
Definition set_mHoveringStoreIcon (v : bool) (s : t) : t :=
  mk (mEffort s) (mOxy s) (mOuttaBreath s) (mProgress s) (mCooldown s)
     (mGravity s) (mProgressDecay s) (mBrickFall s) (mScoreString s)
     (mTimer s) (mStore s) v (mConfig s) (mSave s) (mWaterX s) (mWaterY s)
     (sSplash s) (engine s).
Definition set_mSave (v : Savefile.t) (s : t) : t :=
  mk (mEffort s) (mOxy s) (mOuttaBreath s) (mProgress s) (mCooldown s)
     (mGravity s) (mProgressDecay s) (mBrickFall s) (mScoreString s)
     (mTimer s) (mStore s) (mHoveringStoreIcon s) (mConfig s) v (mWaterX s)
     (mWaterY s) (sSplash s) (engine s).
Definition set_mWaterX (v : f32) (s : t) : t :=
  mk (mEffort s) (mOxy s) (mOuttaBreath s) (mProgress s) (mCooldown s)
     (mGravity s) (mProgressDecay s) (mBrickFall s) (mScoreString s)
     (mTimer s) (mStore s) (mHoveringStoreIcon s) (mConfig s) (mSave s) v
     (mWaterY s) (sSplash s) (engine s).
Definition set_mWaterY (v : f32) (s : t) : t :=
  mk (mEffort s) (mOxy s) (mOuttaBreath s) (mProgress s) (mCooldown s)
     (mGravity s) (mProgressDecay s) (mBrickFall s) (mScoreString s)
     (mTimer s) (mStore s) (mHoveringStoreIcon s) (mConfig s) (mSave s)
     (mWaterX s) v (sSplash s) (engine s).
Definition set_sSplash (v : bool) (s : t) : t :=
  mk (mEffort s) (mOxy s) (mOuttaBreath s) (mProgress s) (mCooldown s)
     (mGravity s) (mProgressDecay s) (mBrickFall s) (mScoreString s)
     (mTimer s) (mStore s) (mHoveringStoreIcon s) (mConfig s) (mSave s)
     (mWaterX s) (mWaterY s) v (engine s).
Definition set_engine (v : list Request) (s : t) : t :=
  mk (mEffort s) (mOxy s) (mOuttaBreath s) (mProgress s) (mCooldown s)
     (mGravity s) (mProgressDecay s) (mBrickFall s) (mScoreString s)
     (mTimer s) (mStore s) (mHoveringStoreIcon s) (mConfig s) (mSave s)
     (mWaterX s) (mWaterY s) (sSplash s) v.

Local Open Scope Q_scope.
Local Open Scope f32_scope.

Definition cEffortDecay : f32 := 3 # 10.
Definition cEffortIncrement : f32 := 1 # 10.
Definition cMaxEffort : f32 := 1.
Definition cProgressScalar : f32 := 1 # 2.
Definition cCooldownValue : f32 := 3.
Definition cFadeInTime : f32 := 1.

Definition cTextX : f32 := 1 # 2.
Definition cTextY : f32 := 75 # 1000.
Definition cStoreIconW : f32 := 5 # 100.
Definition cStoreIconH : f32 := 5 # 100.
Definition cStoreIconX : f32 := cTextX + (2 # 10).
Definition cStoreIconY : f32 := cTextY.

Definition request (r : Request) (s : t) : t := set_engine (r :: engine s) s.

Definition recalculateProgressDecay (s : t) : t :=
  set_mProgressDecay
    (Config.lube_base (Config.lube (mConfig s))
     - inject_Z (Savefile.lubeTier (Savefile.v2 (mSave s)))
       * Config.lube_upgrade (Config.lube (mConfig s))) s.

Definition recalculateGravity (s : t) : t :=
  set_mGravity
    (Config.gravity_base (Config.gravity (mConfig s))
     + inject_Z (Savefile.gravityTier (Savefile.v2 (mSave s)))
       * Config.gravity_upgrade (Config.gravity (mConfig s))) s.

Definition show_s16 (z : Z) : string := NilZero.string_of_int (Z.to_int z).

Definition refreshScoreString (s : t) : t :=
  set_mScoreString
    (String.append "Score: " (show_s16 (Savefile.score (Savefile.v2 (mSave s))))) s.

Definition save (s : t) : t :=
  let '(j, sv) := Storage.nqSave "progress" (mSave s) (mStore s) in
  refreshScoreString (set_mSave sv (set_mStore j s)).

Definition resetSave (s : t) : t := save (set_mSave Savefile.default s).

(** The test of [updateHoveringStoreIcon]. *)
Definition overStoreIcon (x y : f32) : bool :=
  ((cStoreIconX <? x) && (x <? cStoreIconX + cStoreIconW))
  && ((cStoreIconY <? y) && (y <? cStoreIconY + cStoreIconH)).

Definition updateHoveringStoreIcon (x y : f32) (s : t) : t :=
  set_mHoveringStoreIcon (overStoreIcon x y) s.

(** The state of a freshly constructed screen after [preload]: the member
    initialisers, the configuration read from the bundle, and the save
    record loaded from the storage. *)
Definition preload (cfg : Config.t) (disk : Storage.t) : t :=
  mk 0 1 false 0 0 0 (9 # 10) (-1) EmptyString 0 disk false cfg
     (Savefile.set_v2
        (Storage.nqLoad "progress" disk (Savefile.v2 Savefile.default))
        Savefile.default)
     0 0 true [].

Definition init (s : t) : t :=
  refreshScoreString (recalculateGravity (recalculateProgressDecay s)).

(** The click that counts as a push: the four conditions of [on]. *)
Definition canPush (s : t) : bool :=
  negb (mOuttaBreath s)
  && (mCooldown s <=? 0)
  && (mEffort s <? cMaxEffort)
  && (Config.oxy_min (Config.oxy (mConfig s)) <=? mOxy s).

Definition on (evt : Event) (s : t) : t :=
  if mTimer s <? cFadeInTime then s
  else
    match evt with
    | MouseDown x y =>
        let s := updateHoveringStoreIcon x y s in
        if mHoveringStoreIcon s then request PushStore s
        else if canPush s then set_mEffort (mEffort s + cEffortIncrement) s
        else s
    | MouseMotion x y => updateHoveringStoreIcon x y s
    | OtherEvent => s
    end.

Section Tick.

(** [sinf] of the C library, used only for the position of the water. *)
Variable sinf : f32 -> f32.

Definition tick_water (s : t) : t :=
  let w := Config.water (mConfig s) in
  let s := set_mWaterX
             (Config.water_minX w
              - ((1 # 2) * sinf (1 + (12 # 10) * mTimer s) + 1)
                * (Config.water_maxX w - Config.water_minX w)) s in
  set_mWaterY
    (Config.water_minY w
     + ((1 # 2) * sinf (mTimer s) + 1)
       * (Config.water_maxY w - Config.water_minY w)) s.

Definition tick_effort (delta : f32) (s : t) : t :=
  if 0 <? mEffort s then
    let s := set_mEffort (mEffort s - cEffortDecay * delta) s in
    let s := if mOuttaBreath s || (0 <? mCooldown s)
             then set_mEffort (mEffort s - delta) s else s in
    if mEffort s <? 0 then set_mEffort 0 s else s
  else s.

Definition tick_oxy (delta : f32) (s : t) : t :=
  let s := if mOxy s <? 1
           then set_mOxy
                  (mOxy s + Config.oxy_regen (Config.oxy (mConfig s)) * delta) s
           else set_mOuttaBreath false s in
  let s := set_mOxy
             (mOxy s
              - mEffort s * Config.oxy_drain (Config.oxy (mConfig s)) * delta) s in
  if mOxy s <=? 0 then
    let s := if negb (mOuttaBreath s) then request PlayBreath s else s in
    set_mOxy 0 (set_mOuttaBreath true s)
  else s.

(** The value of [mProgress] when the test [mProgress >= 1] of the fill
    branch is made. *)
Definition advanced (delta : f32) (s : t) : f32 :=
  let p := mProgress s + mEffort s * cProgressScalar * delta in
  if Config.gravity_threshold (Config.gravity (mConfig s)) <=? p
  then p + mGravity s * delta else p.

Definition incrementScore (sv : Savefile.t) : Savefile.t :=
  Savefile.set_v2
    (Savefile.set_score (wrap16 (Savefile.score (Savefile.v2 sv) + 1))
       (Savefile.v2 sv)) sv.

(** The branch of [tick] taken when the fill completes. *)
Definition complete (s : t) : t :=
  let s := set_mCooldown cCooldownValue s in
  let s := set_mBrickFall 0 s in
  let s := request PlayPop s in
  let s := set_mSave (incrementScore (mSave s)) s in
  save s.

Definition tick_progress (delta : f32) (s : t) : t :=
  if mProgress s <? 1 then
    let s := set_mProgress (advanced delta s) s in
    if 1 <=? mProgress s then complete s
    else if 0 <? mProgress s then
      let s := set_mProgress (mProgress s - mProgressDecay s * delta) s in
      if mProgress s <? 0 then set_mProgress 0 s else s
    else s
  else if 0 <? mCooldown s then set_mCooldown (mCooldown s - delta) s
  else
    let s := set_mProgress 0 s in
    let s := set_mCooldown 0 s in
    let s := set_mBrickFall (-1) s in
    let s := recalculateProgressDecay s in
    let s := recalculateGravity s in
    set_sSplash true s.

Definition tick_brick (delta : f32) (s : t) : t :=
  if 0 <=? mBrickFall s then
    let s := set_mBrickFall
               (mBrickFall s
                + Config.brick_fallSpeed (Config.brick (mConfig s)) * delta) s in
    if (mWaterY s <=? mBrickFall s) && sSplash s
    then set_sSplash false (request PlaySplash s)
    else s
  else s.

(** The state in which the simulation part of [tick] starts: the pending
    save is flushed, the timer and the water have moved. *)
Definition tick_begin (delta : f32) (s : t) : t :=
  let s := if Savefile.dirty (mSave s) then save s else s in
  let s := set_mTimer (mTimer s + delta) s in
  tick_water s.

Definition tick (delta : f32) (s : t) : t :=
  let s := tick_begin delta s in
  if mTimer s <? cFadeInTime then s
  else tick_brick delta (tick_progress delta (tick_oxy delta (tick_effort delta s))).

(** Whether [tick_progress] takes the branch in which the fill completes:
    [mProgress] was below 1 and is at least 1 when the test is made. *)
Definition fills (delta : f32) (s : t) : bool :=
  (mProgress s <? 1) && (1 <=? advanced delta s).

(** Whether this tick takes that branch. *)
Definition completes (delta : f32) (s : t) : bool :=
  let s := tick_begin delta s in
  if mTimer s <? cFadeInTime then false
  else fills delta (tick_oxy delta (tick_effort delta s)).

Definition ticks (deltas : list f32) (s : t) : t :=
  fold_left (fun s delta => tick delta s) deltas s.

(** The number of ticks of a run in which the fill completes. *)
Fixpoint completions (deltas : list f32) (s : t) : nat :=
  match deltas with
  | [] => O
  | delta :: rest =>
      ((if completes delta s then 1 else 0) + completions rest (tick delta s))%nat
  end.

End Tick.

End ShitState.

(** ** The end-of-run screen ([EndState.cpp]) *)

Module EndState.

Inductive Request : Type :=
| EnqueueSound
| InfoDialog (title message : string).

Record t : Type := mk {
  mCountdown : f32;
  mStore : Storage.t;
  mSave : Savefile.t;
  engine : list Request
}.

Local Open Scope Q_scope.

(** The state of a freshly constructed screen after [preload]; the load
    fills [mSave.v2]. *)
Definition preload (disk : Storage.t) : t :=
  mk (11 # 10) disk
     (Savefile.set_v2
        (Storage.nqLoad "save.json" disk (Savefile.v2 Savefile.default))
        Savefile.default)
     [].

Definition init (s : t) : t :=
  let prestige := wrap16 (Savefile.prestige (Savefile.v2 (mSave s)) + 1) in
  let sv := Savefile.default in
  let sv := Savefile.set_v2 (Savefile.set_prestige prestige (Savefile.v2 sv)) sv in
  let '(j, sv) := Storage.nqSave "save.json" sv (mStore s) in
  mk (mCountdown s) j sv (EnqueueSound :: engine s).

(** [tick] returns [false] when the screen is over. *)
Definition tick (delta : f32) (s : t) : bool * t :=
  let s := mk (mCountdown s - delta) (mStore s) (mSave s) (engine s) in
  if (mCountdown s <=? 0)%f32 then
    (false,
     if (Savefile.prestige (Savefile.v2 (mSave s)) =? 1)%Z
     then mk (mCountdown s) (mStore s) (mSave s)
             (InfoDialog "Notification"
                "Something new has appeared in the store..." :: engine s)
     else s)
  else (true, s).

(** The terminal transition: the engine constructs the screen on the
    storage as it is, preloads and initialises it. *)
Definition enter (disk : Storage.t) : t := init (preload disk).

End EndState.

(** ** The game-play screen with the store overlay on top *)

Module Game.

(** The overlay works on the screen's own save record ([StoreData] refers
    to [mSave]), and the screen keeps ticking underneath ([tickParent]). *)
Record t : Type := mk {
  screen : ShitState.t;
  overlay : StoreSubState.t
}.

Definition acquire (item : StoreItem.t) (g : t) : StoreSubState.Exit * t :=
  let '(e, o, sv) :=
    StoreSubState.acquire (overlay g) (ShitState.mSave (screen g)) item in
  (e, mk (ShitState.set_mSave sv (screen g)) o).

Definition tick (sinf : f32 -> f32) (delta : f32) (g : t) : t :=
  mk (ShitState.tick sinf delta (screen g))
     (StoreSubState.tick delta (overlay g)).

(** What the engine delivers, in order: a frame, an event for the
    game-play screen, or a click of the overlay that ends in [acquire]. *)
Inductive Input : Type :=
| Tick (delta : f32)
| On (evt : ShitState.Event)
| Acquire (item : StoreItem.t).

Definition step (sinf : f32 -> f32) (i : Input) (g : t) : t :=
  match i with
  | Tick delta => tick sinf delta g
  | On evt => mk (ShitState.on evt (screen g)) (overlay g)
  | Acquire item => snd (acquire item g)
  end.

Definition run (sinf : f32 -> f32) (inputs : list Input) (g : t) : t :=
  fold_left (fun g i => step sinf i g) inputs g.

(** The game as the engine starts it: the screen preloaded from the bundle
    and the storage and initialised, the overlay as constructed. *)
Definition start (cfg : Config.t) (disk : Storage.t) : t :=
  mk (ShitState.init (ShitState.preload cfg disk)) StoreSubState.initial.

(** Frames come with a non-negative time step. *)
Definition forward (i : Input) : Prop :=
  match i with
  | Tick delta => (0 <= delta)%Q
  | _ => True
  end.

End Game.

(** ** Vocabulary of the specification *)

Module Spec.

(** The three outcomes the specification gives a purchase. *)
Inductive Outcome : Type := AlreadyOwned | InsufficientFunds | Purchased.

(** The tier a kind of item works on; [EndGame] and [None] have none. *)
Definition tierOf (k : StoreItem.Kind) (r : Savefile.V2) : option Z :=
  match k with
  | StoreItem.Lube => Some (Savefile.lubeTier r)
  | StoreItem.Gravity => Some (Savefile.gravityTier r)
  | StoreItem.Oxy => Some (Savefile.oxyTier r)
  | _ => Datatypes.None
  end.

(** Ownership in the specification's words: the current tier is at least the
    item's tier argument, and the prestige held meets the item's floor. *)
Definition owned (save : Savefile.t) (item : StoreItem.t) : bool :=
  (StoreItem.prestige item <=? Savefile.prestige (Savefile.v2 save))
  && match tierOf (StoreItem.kind item) (Savefile.v2 save) with
     | Some tier => StoreItem.argument item <=? tier
     | Datatypes.None => false
     end.

(** The precondition checks in the specification's order. *)
Definition purchase (save : Savefile.t) (item : StoreItem.t) : Outcome :=
  if owned save item then AlreadyOwned
  else if Savefile.score (Savefile.v2 save) <? StoreItem.price item
       then InsufficientFunds
       else Purchased.

(** How the ways out of [acquire] read as outcomes: both the tier purchase
    and the end-game purchase are [Purchased]; the unreachable case is none
    of the three. *)
Definition outcome (e : StoreSubState.Exit) : option Outcome :=
  match e with
  | StoreSubState.AlreadyOwned => Some AlreadyOwned
  | StoreSubState.InsufficientFunds => Some InsufficientFunds
  | StoreSubState.Purchased => Some Purchased
  | StoreSubState.SwappedToEnd => Some Purchased
  | StoreSubState.Unreachable => Datatypes.None
  end.

(** No tier of [b] is below the same tier of [a]. *)
Definition tiers_le (a b : Savefile.V2) : Prop :=
  Savefile.lubeTier a <= Savefile.lubeTier b
  /\ Savefile.gravityTier a <= Savefile.gravityTier b
  /\ Savefile.oxyTier a <= Savefile.oxyTier b.

Definition tiers_eq (a b : Savefile.V2) : Prop :=
  Savefile.lubeTier a = Savefile.lubeTier b
  /\ Savefile.gravityTier a = Savefile.gravityTier b
  /\ Savefile.oxyTier a = Savefile.oxyTier b.

(** The ranges the specification gives the three meters. *)
Definition clamped (s : ShitState.t) : Prop :=
  (0 <= ShitState.mEffort s <= ShitState.cMaxEffort)%Q
  /\ (0 <= ShitState.mOxy s <= 1)%Q
  /\ (0 <= ShitState.mProgress s <= 1)%Q.

(** The ranges the simulation keeps: the meters do not go below zero, and
    the effort stays below the maximum plus one increment. *)
Definition bounded (s : ShitState.t) : Prop :=
  (0 <= ShitState.mEffort s
   /\ ShitState.mEffort s < ShitState.cMaxEffort + ShitState.cEffortIncrement)%Q
  /\ (0 <= ShitState.mOxy s)%Q
  /\ (0 <= ShitState.mProgress s)%Q.

(** The part of it that no configuration can break: the effort and the
    oxygen. *)
Definition metered (s : ShitState.t) : Prop :=
  (0 <= ShitState.mEffort s
   /\ ShitState.mEffort s < ShitState.cMaxEffort + ShitState.cEffortIncrement)%Q
  /\ (0 <= ShitState.mOxy s)%Q.

(** A gravity curve that does not pull backwards. *)
Definition gravityUp (cfg : Config.t) : Prop :=
  (0 <= Config.gravity_base (Config.gravity cfg))%Q
  /\ (0 <= Config.gravity_upgrade (Config.gravity cfg))%Q.

(** What a run of inputs keeps true of the game-play screen under such a
    configuration. *)
Definition simInvariant (s : ShitState.t) : Prop :=
  bounded s
  /\ (0 <= ShitState.mGravity s)%Q
  /\ gravityUp (ShitState.mConfig s)
  /\ 0 <= Savefile.gravityTier (Savefile.v2 (ShitState.mSave s)).

(** The effort after a click as the specification has it: one increment,
    clamped to the maximum, when the four conditions hold. *)
Definition clickedEffort (s : ShitState.t) : f32 :=
  if ShitState.canPush s
  then Qminmax.Qmin (ShitState.mEffort s + ShitState.cEffortIncrement)
            ShitState.cMaxEffort
  else ShitState.mEffort s.

End Spec.

(** ** Sample data *)

Module Sample.

Definition lube2 : StoreItem.t :=
  StoreItem.mk "Lube II" "Slipperier" 30 0 StoreItem.Lube 2 0.

(** A first-tier item that asks for one prestige. *)
Definition lube1_prestige1 : StoreItem.t :=
  StoreItem.mk "Lube I+" "For veterans" 30 0 StoreItem.Lube 1 1.

Definition nokind : StoreItem.t :=
  StoreItem.mk "" "" 0 0 StoreItem.None 0 0.

Definition save_with (score lubeTier : Z) : Savefile.t :=
  Savefile.mk (Savefile.mkV2 score 0 lubeTier 0 0) false.

Definition cfg : Config.t :=
  Config.mk (Config.mkLube (1 # 10) (1 # 100) 5)
            (Config.mkGravity (1 # 5) (1 # 10) (1 # 2) 5)
            (Config.mkOxy (1 # 4) (1 # 10) (1 # 10))
            (Config.mkBrick (1 # 2) (1 # 4) (1 # 2) 1%Q (1 # 10))
            (Config.mkWater 0%Q (1 # 10) (7 # 10) (8 # 10))
            [lube2; lube1_prestige1].

(** The same with a gravity that pulls backwards from the start of a
    fill. *)
Definition backwards : Config.t :=
  Config.mk (Config.lube cfg) (Config.mkGravity (-1)%Q 0%Q 0%Q 5)
            (Config.oxy cfg) (Config.brick cfg) (Config.water cfg)
            (Config.store cfg).

(** Still water. *)
Definition still (x : f32) : f32 := 0%Q.

(** A click in the middle of the screen, away from the store icon. *)
Definition press : ShitState.Event := ShitState.MouseDown (1 # 2) (1 # 2).
Definition click : Game.Input := Game.On press.

(** One frame of fade-in, ten clicks, half a second, two clicks. *)
Definition warmup : list Game.Input :=
  [Game.Tick 1%Q] ++ repeat click 10 ++ [Game.Tick (1 # 2)] ++ repeat click 2.

(** ... and one frame at 60 frames a second. *)
Definition overpush : list Game.Input := warmup ++ [Game.Tick (1 # 60)].

(** ... or another half second instead. *)
Definition breather : list Game.Input := warmup ++ [Game.Tick (1 # 2)].

(** ... and on, clicking, until the fill completes. *)
Definition fill : list Game.Input :=
  breather ++ [click; Game.Tick (1 # 2); click; click; Game.Tick (1 # 2);
               click; Game.Tick (1 # 2)].

(** The inputs of [fill] but the last frame. *)
Definition almost : list Game.Input := removelast fill.

(** The game at the end of a run of inputs on a fresh storage. *)
Definition after (inputs : list Game.Input) (disk : Storage.t) : ShitState.t :=
  Game.screen (Game.run still inputs (Game.start cfg disk)).

(** A storage whose game-play record holds a score of 50. *)
Definition funded : Storage.t := [("progress"%string, Savefile.mkV2 50 0 0 0 0)].

(** A storage whose game-play record holds the largest score. *)
Definition rich : Storage.t := [("progress"%string, Savefile.mkV2 32767 0 0 0 0)].

(** A storage whose end-of-run record holds the largest prestige. *)
Definition veteran : Storage.t := [("save.json"%string, Savefile.mkV2 0 32767 0 0 0)].

End Sample.

(** ** Loading the configuration ([config.cpp]) *)

Module Json.

(** The engine's JSON values ([nwge/json.hpp]), as the loaders see them:
    the type tests, the accessors, and [Object::get], which finds a member
    by its key or returns a null pointer. *)
#[local] Unset Elimination Schemes.
Inductive Value : Type :=
| Null
| Boolean (b : bool)
| Number (n : Q)
| String (s : string)
| Array (elements : list Value)
| Object (members : list (string * Value)).
#[local] Set Elimination Schemes.

Definition Obj : Type := list (string * Value).

Fixpoint get (o : Obj) (key : string) : option Value :=
  match o with
  | [] => None
  | (k, v) :: rest => if String.eqb k key then Some v else get rest key
  end.

End Json.

Module ConfigLoad.

(** The integer part of a number: the fraction is dropped. *)
Definition truncate (n : Q) : Z := Z.quot (Qnum n) (Zpos (Qden n)).

(** [static_cast<s16>] of a [double] drops the fraction.  When the integer
    part does not fit 16 bits the conversion is undefined in C++: what the
    build at hand stores then is left open, as a function of the integer
    part that every statement about the loader is general in. *)
Class Narrowing : Type := narrow16 : Z -> Z.

Definition s16_of_number {narrowing : Narrowing} (n : Q) : Z :=
  let z := truncate n in
  if (-32768 <=? z) && (z <? 32768) then z else narrow16 z.

Record ToiletT : Type := mkToilet {
  toilet_xPos : f32; toilet_yPos : f32; toilet_size : f32 }.

(** The [Config] object being filled: the part the simulation and the store
    read, and the toilet, which only the renderer reads. *)
Record Out : Type := mkOut {
  config : Config.t;
  toilet : ToiletT
}.

(** A loader works on the object in place and returns [true], or reports
    through [dialog::error] and returns [false]. *)
Inductive Res (A : Type) : Type :=
| Ok (a : A)
| Fail (message : string).
Arguments Ok {A} a.
Arguments Fail {A} message.

Definition M (A : Type) : Type := Out -> Out * Res A.

Definition ret {A : Type} (a : A) : M A := fun out => (out, Ok a).

Definition fail {A : Type} (message : string) : M A :=
  fun out => (out, Fail message).

Definition bind {A B : Type} (c : M A) (k : A -> M B) : M B :=
  fun out =>
    match c out with
    | (out', Ok a) => k a out'
    | (out', Fail message) => (out', Fail message)
    end.

Definition modify (f : Out -> Out) : M unit := fun out => (f out, Ok tt).

Declare Scope load_scope.
Delimit Scope load_scope with load.
Notation "x <- c ;; k" := (bind c (fun x => k))
  (at level 61, c at next level, right associativity) : load_scope.
Notation "c ;; k" := (bind c (fun _ => k))
  (at level 61, right associativity) : load_scope.

Local Open Scope string_scope.
Local Open Scope load_scope.

Definition nl : string := String (Ascii.ascii_of_nat 10) EmptyString.

Definition invalid (detail : string) : string :=
  "Configuration file is invalid." ++ nl ++ detail.

Definition show_index (i : nat) : string := NilZero.string_of_uint (Nat.to_uint i).

(** The object under a key of the root. *)
Definition section (root : Json.Obj) (name : string) : M Json.Obj :=
  match Json.get root name with
  | None => fail (invalid ("No `" ++ name ++ "` key."))
  | Some (Json.Object o) => ret o
  | Some _ => fail (invalid ("`" ++ name ++ "` is not a object."))
  end.

(** The number under a key of a section. *)
Definition number (o : Json.Obj) (key name : string) : M Q :=
  match Json.get o key with
  | None => fail (invalid ("No `" ++ key ++ "` in key in `" ++ name ++ "` object."))
  | Some (Json.Number n) => ret n
  | Some _ =>
      fail (invalid ("`" ++ key ++ "` in `" ++ name ++ "` object is not a number."))
  end.

Definition on_config (f : Config.t -> Config.t) (out : Out) : Out :=
  mkOut (f (config out)) (toilet out).

Definition on_lube (f : Config.LubeT -> Config.LubeT) : Out -> Out :=
  on_config (fun c =>
    Config.mk (f (Config.lube c)) (Config.gravity c) (Config.oxy c)
              (Config.brick c) (Config.water c) (Config.store c)).

Definition on_gravity (f : Config.GravityT -> Config.GravityT) : Out -> Out :=
  on_config (fun c =>
    Config.mk (Config.lube c) (f (Config.gravity c)) (Config.oxy c)
              (Config.brick c) (Config.water c) (Config.store c)).

Definition on_oxy (f : Config.OxyT -> Config.OxyT) : Out -> Out :=
  on_config (fun c =>
    Config.mk (Config.lube c) (Config.gravity c) (f (Config.oxy c))
              (Config.brick c) (Config.water c) (Config.store c)).

Definition on_brick (f : Config.BrickT -> Config.BrickT) : Out -> Out :=
  on_config (fun c =>
    Config.mk (Config.lube c) (Config.gravity c) (Config.oxy c)
              (f (Config.brick c)) (Config.water c) (Config.store c)).

Definition on_store (f : list StoreItem.t -> list StoreItem.t) : Out -> Out :=
  on_config (fun c =>
    Config.mk (Config.lube c) (Config.gravity c) (Config.oxy c)
              (Config.brick c) (Config.water c) (f (Config.store c))).

Definition on_toilet (f : ToiletT -> ToiletT) (out : Out) : Out :=
  mkOut (config out) (f (toilet out)).

Definition loadLube {narrowing : Narrowing} (root : Json.Obj) : M unit :=
  lubeObject <- section root "lube";;
  base <- number lubeObject "base" "lube";;
  modify (on_lube (fun l =>
    Config.mkLube base (Config.lube_upgrade l) (Config.lube_maxTier l)));;
  upgrade <- number lubeObject "upgrade" "lube";;
  modify (on_lube (fun l =>
    Config.mkLube (Config.lube_base l) upgrade (Config.lube_maxTier l)));;
  maxTier <- number lubeObject "maxTier" "lube";;
  modify (on_lube (fun l =>
    Config.mkLube (Config.lube_base l) (Config.lube_upgrade l)
                  (s16_of_number maxTier))).

Definition loadGravity {narrowing : Narrowing} (root : Json.Obj) : M unit :=
  gravityObject <- section root "gravity";;
  base <- number gravityObject "base" "gravity";;
  modify (on_gravity (fun g =>
    Config.mkGravity base (Config.gravity_upgrade g)
      (Config.gravity_threshold g) (Config.gravity_maxTier g)));;
  upgrade <- number gravityObject "upgrade" "gravity";;
  modify (on_gravity (fun g =>
    Config.mkGravity (Config.gravity_base g) upgrade
      (Config.gravity_threshold g) (Config.gravity_maxTier g)));;
  threshold <- number gravityObject "threshold" "gravity";;
  modify (on_gravity (fun g =>
    Config.mkGravity (Config.gravity_base g) (Config.gravity_upgrade g)
      threshold (Config.gravity_maxTier g)));;
  maxTier <- number gravityObject "maxTier" "gravity";;
  modify (on_gravity (fun g =>
    Config.mkGravity (Config.gravity_base g) (Config.gravity_upgrade g)
      (Config.gravity_threshold g) (s16_of_number maxTier))).

Definition loadOxy (root : Json.Obj) : M unit :=
  oxyObject <- section root "oxy";;
  regen <- number oxyObject "regen" "oxy";;
  modify (on_oxy (fun o =>
    Config.mkOxy regen (Config.oxy_drain o) (Config.oxy_min o)));;
  drain <- number oxyObject "drain" "oxy";;
  modify (on_oxy (fun o =>
    Config.mkOxy (Config.oxy_regen o) drain (Config.oxy_min o)));;
  min <- number oxyObject "min" "oxy";;
  modify (on_oxy (fun o =>
    Config.mkOxy (Config.oxy_regen o) (Config.oxy_drain o) min)).

Definition loadToilet (root : Json.Obj) : M unit :=
  toiletObject <- section root "toilet";;
  xPos <- number toiletObject "xPos" "toilet";;
  modify (on_toilet (fun t => mkToilet xPos (toilet_yPos t) (toilet_size t)));;
  yPos <- number toiletObject "yPos" "toilet";;
  modify (on_toilet (fun t => mkToilet (toilet_xPos t) yPos (toilet_size t)));;
  size <- number toiletObject "size" "toilet";;
  modify (on_toilet (fun t => mkToilet (toilet_xPos t) (toilet_yPos t) size)).

Definition loadBrick (root : Json.Obj) : M unit :=
  brickObject <- section root "brick";;
  xPos <- number brickObject "xPos" "brick";;
  modify (on_brick (fun b =>
    Config.mkBrick xPos (Config.brick_startY b) (Config.brick_endY b)
      (Config.brick_fallSpeed b) (Config.brick_size b)));;
  startY <- number brickObject "startY" "brick";;
  modify (on_brick (fun b =>
    Config.mkBrick (Config.brick_xPos b) startY (Config.brick_endY b)
      (Config.brick_fallSpeed b) (Config.brick_size b)));;
  endY <- number brickObject "endY" "brick";;
  modify (on_brick (fun b =>
    Config.mkBrick (Config.brick_xPos b) (Config.brick_startY b) endY
      (Config.brick_fallSpeed b) (Config.brick_size b)));;
  fallSpeed <- number brickObject "fallSpeed" "brick";;
  modify (on_brick (fun b =>
    Config.mkBrick (Config.brick_xPos b) (Config.brick_startY b)
      (Config.brick_endY b) fallSpeed (Config.brick_size b)));;
  size <- number brickObject "size" "brick";;
  modify (on_brick (fun b =>
    Config.mkBrick (Config.brick_xPos b) (Config.brick_startY b)
      (Config.brick_endY b) (Config.brick_fallSpeed b) size)).

(** [out.store[i]] updated in place. *)
Fixpoint update (i : nat) (f : StoreItem.t -> StoreItem.t)
    (items : list StoreItem.t) : list StoreItem.t :=
  match items, i with
  | [], _ => []
  | item :: rest, O => f item :: rest
  | item :: rest, S i' => item :: update i' f rest
  end.

Definition on_item (i : nat) (f : StoreItem.t -> StoreItem.t) : M unit :=
  modify (on_store (update i f)).

Definition set_name (v : string) (it : StoreItem.t) : StoreItem.t :=
  StoreItem.mk v (StoreItem.desc it) (StoreItem.price it) (StoreItem.icon it)
    (StoreItem.kind it) (StoreItem.argument it) (StoreItem.prestige it).
Definition set_desc (v : string) (it : StoreItem.t) : StoreItem.t :=
  StoreItem.mk (StoreItem.name it) v (StoreItem.price it) (StoreItem.icon it)
    (StoreItem.kind it) (StoreItem.argument it) (StoreItem.prestige it).
Definition set_price (v : Z) (it : StoreItem.t) : StoreItem.t :=
  StoreItem.mk (StoreItem.name it) (StoreItem.desc it) v (StoreItem.icon it)
    (StoreItem.kind it) (StoreItem.argument it) (StoreItem.prestige it).
Definition set_icon (v : Z) (it : StoreItem.t) : StoreItem.t :=
  StoreItem.mk (StoreItem.name it) (StoreItem.desc it) (StoreItem.price it) v
    (StoreItem.kind it) (StoreItem.argument it) (StoreItem.prestige it).
Definition set_kind (v : StoreItem.Kind) (it : StoreItem.t) : StoreItem.t :=
  StoreItem.mk (StoreItem.name it) (StoreItem.desc it) (StoreItem.price it)
    (StoreItem.icon it) v (StoreItem.argument it) (StoreItem.prestige it).
Definition set_argument (v : Z) (it : StoreItem.t) : StoreItem.t :=
  StoreItem.mk (StoreItem.name it) (StoreItem.desc it) (StoreItem.price it)
    (StoreItem.icon it) (StoreItem.kind it) v (StoreItem.prestige it).

(** A string member of a store element; a missing member and a member of
    another type give the same report. *)
Definition item_string (o : Json.Obj) (key : string) (i : nat) : M string :=
  match Json.get o key with
  | Some (Json.String s) => ret s
  | _ => fail (invalid ("`" ++ key ++ "` of `store` element " ++ show_index i
                        ++ " is not a string."))
  end.

Definition item_number (o : Json.Obj) (key : string) (i : nat) : M Q :=
  match Json.get o key with
  | Some (Json.Number n) => ret n
  | _ => fail (invalid ("`" ++ key ++ "` of `store` element " ++ show_index i
                        ++ " is not a Number."))
  end.

(** The tier argument of an element whose discriminant member is [v]. *)
Definition tier_argument {narrowing : Narrowing}
    (v : Json.Value) (key : string) (i : nat) : M unit :=
  match v with
  | Json.Number n => on_item i (set_argument (s16_of_number n))
  | _ => fail (invalid ("`" ++ key ++ "` of `store` element " ++ show_index i
                        ++ " is not a Number."))
  end.

(** One turn of the loop of [loadStore]. *)
Definition loadItem {narrowing : Narrowing}
    (i : nat) (itemV : Json.Value) : M unit :=
  match itemV with
  | Json.Object itemObject =>
      name <- item_string itemObject "name" i;;
      on_item i (set_name name);;
      desc <- item_string itemObject "desc" i;;
      on_item i (set_desc desc);;
      price <- item_number itemObject "price" i;;
      on_item i (set_price (s16_of_number price));;
      icon <- item_number itemObject "icon" i;;
      on_item i (set_icon (s16_of_number icon));;
      match Json.get itemObject "lubeTier" with
      | Some lubeTierV =>
          on_item i (set_kind StoreItem.Lube);;
          tier_argument lubeTierV "lubeTier" i
      | None =>
          match Json.get itemObject "gravityTier" with
          | Some gravityTierV =>
              on_item i (set_kind StoreItem.Gravity);;
              tier_argument gravityTierV "gravityTier" i
          | None =>
              match Json.get itemObject "endGame" with
              | Some _ => on_item i (set_kind StoreItem.EndGame)
              | None =>
                  fail (invalid ("`store` element " ++ show_index i
                                 ++ " does not define `lubeTier`, `gravityTier` or `endGame`."))
              end
          end
      end
  | _ => fail (invalid ("`store` element " ++ show_index i ++ " is not an object."))
  end.

Fixpoint loadItems {narrowing : Narrowing}
    (i : nat) (elements : list Json.Value) : M unit :=
  match elements with
  | [] => ret tt
  | itemV :: rest => loadItem i itemV;; loadItems (S i) rest
  end.

Section Loader.

(** A default-constructed [StoreItem] ([config.hpp] is not part of the
    sources at hand). *)
Variable blank : StoreItem.t.

Definition loadStore {narrowing : Narrowing} (root : Json.Obj) : M unit :=
  match Json.get root "store" with
  | None => fail (invalid "No `store` key.")
  | Some (Json.Array storeArray) =>
      modify (on_store (fun _ => repeat blank (List.length storeArray)));;
      loadItems 0 storeArray
  | Some _ => fail (invalid "`store` is not an array.")
  end.

(** What [Config::load] gets out of the file: nothing to read, a read
    error, a parse error, or a JSON value. *)
Inductive Read : Type :=
| ReadFailed (sdlError : string)
| ParseError (message : string)
| Parsed (value : Json.Value).

Definition load {narrowing : Narrowing} (fileSize : Z) (file : Read) : M unit :=
  if (fileSize <=? 0)%Z then fail "Configuration file is invalid or empty."
  else
    match file with
    | ReadFailed sdlError =>
        fail ("Could not read the configuration file." ++ nl ++ sdlError)
    | ParseError message =>
        fail ("Configuration file is not valid JSON." ++ nl ++ message)
    | Parsed (Json.Object root) =>
        loadLube root;;
        loadGravity root;;
        loadOxy root;;
        loadStore root;;
        loadToilet root;;
        loadBrick root
    | Parsed _ => fail (invalid "Not an object.")
    end.

End Loader.

(** *** What a well-formed file is *)

Definition has_number (o : Json.Obj) (key : string) : bool :=
  match Json.get o key with
  | Some (Json.Number _) => true
  | _ => false
  end.

Definition has_string (o : Json.Obj) (key : string) : bool :=
  match Json.get o key with
  | Some (Json.String _) => true
  | _ => false
  end.

(** A section: an object under [name] with a number under each key. *)
Definition good_section (root : Json.Obj) (name : string) (keys : list string)
  : bool :=
  match Json.get root name with
  | Some (Json.Object o) => forallb (has_number o) keys
  | _ => false
  end.

(** A store element: an object with a name, a description, a price, an
    icon, and a first discriminant that is well-typed. *)
Definition good_item (v : Json.Value) : bool :=
  match v with
  | Json.Object o =>
      has_string o "name" && has_string o "desc"
      && has_number o "price" && has_number o "icon"
      && match Json.get o "lubeTier" with
         | Some (Json.Number _) => true
         | Some _ => false
         | None =>
             match Json.get o "gravityTier" with
             | Some (Json.Number _) => true
             | Some _ => false
             | None =>
                 match Json.get o "endGame" with
                 | Some _ => true
                 | None => false
                 end
             end
         end
  | _ => false
  end.

Definition good_store (root : Json.Obj) : bool :=
  match Json.get root "store" with
  | Some (Json.Array elements) => forallb good_item elements
  | _ => false
  end.

Definition good_root (root : Json.Obj) : bool :=
  good_section root "lube" ["base"; "upgrade"; "maxTier"]
  && good_section root "gravity" ["base"; "upgrade"; "threshold"; "maxTier"]
  && good_section root "oxy" ["regen"; "drain"; "min"]
  && good_store root
  && good_section root "toilet" ["xPos"; "yPos"; "size"]
  && good_section root "brick" ["xPos"; "startY"; "endY"; "fallSpeed"; "size"].

(** The number at [key] of the section [name], 0 when there is none. *)
Definition number_at (root : Json.Obj) (name key : string) : Q :=
  match Json.get root name with
  | Some (Json.Object o) =>
      match Json.get o key with
      | Some (Json.Number n) => n
      | _ => 0%Q
      end
  | _ => 0%Q
  end.

Definition string_at (o : Json.Obj) (key : string) : string :=
  match Json.get o key with
  | Some (Json.String s) => s
  | _ => EmptyString
  end.

Definition s16_at {narrowing : Narrowing} (o : Json.Obj) (key : string) : Z :=
  match Json.get o key with
  | Some (Json.Number n) => s16_of_number n
  | _ => 0%Z
  end.

(** The store item a well-formed element stands for: the members read off,
    the kind by the first discriminant present, the rest as constructed. *)
Definition item_of {narrowing : Narrowing}
    (blank : StoreItem.t) (v : Json.Value) : StoreItem.t :=
  match v with
  | Json.Object o =>
      let kind_argument :=
        match Json.get o "lubeTier" with
        | Some _ => (StoreItem.Lube, s16_at o "lubeTier")
        | None =>
            match Json.get o "gravityTier" with
            | Some _ => (StoreItem.Gravity, s16_at o "gravityTier")
            | None => (StoreItem.EndGame, StoreItem.argument blank)
            end
        end in
      StoreItem.mk (string_at o "name") (string_at o "desc")
        (s16_at o "price") (s16_at o "icon")
        (fst kind_argument) (snd kind_argument) (StoreItem.prestige blank)
  | _ => blank
  end.

(** The sections of the object, and what it means for all of them but
    one to be the same in two objects ([water] has no loader). *)
Inductive Part : Type := PLube | PGravity | POxy | PStore | PToilet | PBrick.

Definition keeps (p : Part) (a b : Out) : Prop :=
  (p = PLube \/ Config.lube (config a) = Config.lube (config b))
  /\ (p = PGravity \/ Config.gravity (config a) = Config.gravity (config b))
  /\ (p = POxy \/ Config.oxy (config a) = Config.oxy (config b))
  /\ (p = PStore \/ Config.store (config a) = Config.store (config b))
  /\ (p = PToilet \/ toilet a = toilet b)
  /\ (p = PBrick \/ Config.brick (config a) = Config.brick (config b))
  /\ Config.water (config a) = Config.water (config b).

Definition loader {narrowing : Narrowing}
    (blank : StoreItem.t) (p : Part) (root : Json.Obj) : M unit :=
  match p with
  | PLube => loadLube root
  | PGravity => loadGravity root
  | POxy => loadOxy root
  | PStore => loadStore blank root
  | PToilet => loadToilet root
  | PBrick => loadBrick root
  end.

(** The object a well-formed root fills in. *)
Definition loaded {narrowing : Narrowing}
    (blank : StoreItem.t) (root : Json.Obj) (out : Out) : Out :=
  mkOut
    (Config.mk
       (Config.mkLube (number_at root "lube" "base")
          (number_at root "lube" "upgrade")
          (s16_of_number (number_at root "lube" "maxTier")))
       (Config.mkGravity (number_at root "gravity" "base")
          (number_at root "gravity" "upgrade")
          (number_at root "gravity" "threshold")
          (s16_of_number (number_at root "gravity" "maxTier")))
       (Config.mkOxy (number_at root "oxy" "regen")
          (number_at root "oxy" "drain") (number_at root "oxy" "min"))
       (Config.mkBrick (number_at root "brick" "xPos")
          (number_at root "brick" "startY") (number_at root "brick" "endY")
          (number_at root "brick" "fallSpeed") (number_at root "brick" "size"))
       (Config.water (config out))
       (match Json.get root "store" with
        | Some (Json.Array elements) => map (item_of blank) elements
        | _ => Config.store (config out)
        end))
    (mkToilet (number_at root "toilet" "xPos") (number_at root "toilet" "yPos")
       (number_at root "toilet" "size")).

(** *** A sample file *)

Definition num (z : Z) : Json.Value := Json.Number (inject_Z z).

Definition sample_root : Json.Obj :=
  [("lube", Json.Object [("base", Json.Number (9 # 10));
                         ("upgrade", Json.Number (1 # 10)); ("maxTier", num 5)]);
   ("gravity", Json.Object [("base", num 0); ("upgrade", Json.Number (1 # 10));
                            ("threshold", Json.Number (1 # 2));
                            ("maxTier", num 5)]);
   ("oxy", Json.Object [("regen", Json.Number (1 # 4));
                        ("drain", Json.Number (1 # 2));
                        ("min", Json.Number (1 # 10))]);
   ("store", Json.Array
      [Json.Object [("name", Json.String "Lube II"); ("desc", Json.String "Slipperier");
                    ("price", num 30); ("icon", num 0); ("lubeTier", num 2);
                    ("gravityTier", num 7)];
       Json.Object [("name", Json.String "The End"); ("desc", Json.String "Roll credits");
                    ("price", num 100); ("icon", num 3);
                    ("endGame", Json.Boolean true)]]);
   ("toilet", Json.Object [("xPos", Json.Number (1 # 4)); ("yPos", Json.Number (1 # 2));
                           ("size", Json.Number (1 # 2))]);
   ("brick", Json.Object [("xPos", Json.Number (1 # 2)); ("startY", Json.Number (1 # 4));
                          ("endY", Json.Number (1 # 2)); ("fallSpeed", num 1);
                          ("size", Json.Number (1 # 10))])].

(** The same file without its gravity section. *)
Definition sample_no_gravity : Json.Obj :=
  filter (fun m => negb (String.eqb (fst m) "gravity")) sample_root.

(** A build that stores 0 for what does not fit. *)
Definition zeroing : Narrowing := fun _ => 0.

Definition blank_item : StoreItem.t :=
  StoreItem.mk EmptyString EmptyString 0 0 StoreItem.None 0 0.

Definition blank_out : Out :=
  mkOut (Config.mk (Config.mkLube 0%Q 0%Q 0) (Config.mkGravity 0%Q 0%Q 0%Q 0)
           (Config.mkOxy 0%Q 0%Q 0%Q) (Config.mkBrick 0%Q 0%Q 0%Q 0%Q 0%Q)
           (Config.mkWater 0%Q 0%Q 0%Q 0%Q) [])
        (mkToilet 0%Q 0%Q 0%Q).

End ConfigLoad.

(** ** Reading the game-play screen *)

Module Watch.

(** How often a cue has been requested so far. *)
Definition requested (r : ShitState.Request) (s : ShitState.t) : nat :=
  List.length
    (filter (fun x =>
       match r, x with
       | ShitState.PlayBreath, ShitState.PlayBreath
       | ShitState.PlayPop, ShitState.PlayPop
       | ShitState.PlaySplash, ShitState.PlaySplash
       | ShitState.PushStore, ShitState.PushStore => true
       | _, _ => false
       end) (ShitState.engine s)).

(** The score line shows the score of the save record. *)
Definition score_shown (s : ShitState.t) : Prop :=
  ShitState.mScoreString s
  = String.append "Score: "
      (ShitState.show_s16 (Savefile.score (Savefile.v2 (ShitState.mSave s)))).

(** The storage holds the save record as it is in memory: a load under the
    game-play key gives the record back. *)
Definition synced (s : ShitState.t) : Prop :=
  Storage.nqLoad "progress" (ShitState.mStore s) (Savefile.v2 Savefile.default)
  = Savefile.v2 (ShitState.mSave s).

(** The frame runs the branch of [tick] that starts a new fill: the fade-in
    is over, the fill is complete and the cooldown has run out. *)
Definition resets (delta : f32) (s : ShitState.t) : bool :=
  negb (f32_lt (ShitState.mTimer s + delta)%Q ShitState.cFadeInTime)
  && negb (f32_lt (ShitState.mProgress s) 1%Q)
  && negb (f32_lt 0%Q (ShitState.mCooldown s)).

End Watch.

(** ** The store overlay's events ([StoreSubState.cpp]) *)

Module StoreScreen.

(** [s32(x)] of an [f32]: the fraction is dropped. *)
Definition s32_of_f32 (x : f32) : Z := Z.quot (Qnum x) (Zpos (Qden x)).

(** [SDL_clamp(x, a, b)] is the macro
    [(((x) < (a)) ? (a) : (((x) > (b)) ? (b) : (x)))]. *)
Definition SDL_clamp (x a b : Z) : Z :=
  if x <? a then a else if x >? b then b else x.

Inductive Event : Type :=
| MouseDown (x y : f32)
| MouseMotion (x y : f32)
| MouseScroll (amount : Z)
| OtherEvent.

Inductive Request : Type :=
| PopSubState
| SwapToEnd.

(** The overlay with the members [on] touches besides those of [acquire]:
    the anchor of the notification, and what was asked of the engine. *)
Record t : Type := mk {
  overlay : StoreSubState.t;
  mPurchaseFloatAnchor : f32 * f32;
  engine : list Request
}.

Definition initial : t := mk StoreSubState.initial (0%Q, 0%Q) [].

Definition set_hover (h : Z) (o : StoreSubState.t) : StoreSubState.t :=
  StoreSubState.mk h (StoreSubState.mPurchaseFloat o)
    (StoreSubState.mPurchaseFloatTimer o) (StoreSubState.mScroll o)
    (StoreSubState.source o).

Definition set_timer (v : f32) (o : StoreSubState.t) : StoreSubState.t :=
  StoreSubState.mk (StoreSubState.mItemHover o) (StoreSubState.mPurchaseFloat o)
    v (StoreSubState.mScroll o) (StoreSubState.source o).

Definition set_scroll (v : Z) (o : StoreSubState.t) : StoreSubState.t :=
  StoreSubState.mk (StoreSubState.mItemHover o) (StoreSubState.mPurchaseFloat o)
    (StoreSubState.mPurchaseFloatTimer o) v (StoreSubState.source o).

Section Layout.

(** [cPad] of [ui.hpp], which is not part of the sources at hand. *)
Variable cPad : f32.

Local Open Scope Q_scope.
Local Open Scope f32_scope.

Definition cWindowW : f32 := 7 # 10.
Definition cWindowH : f32 := 9 # 10.
Definition cWindowX : f32 := (1 - cWindowW) / 2.
Definition cWindowY : f32 := (1 - cWindowH) / 2.
Definition cTitleTextY : f32 := cWindowY + cPad.
Definition cTitleTextH : f32 := 8 # 100.
Definition cItemAreaX : f32 := cWindowX + cPad.
Definition cItemAreaY : f32 := cTitleTextY + cTitleTextH + cPad.
Definition cItemAreaW : f32 := cWindowW - 2 * cPad.
Definition cItemAreaH : f32 := cWindowH - 2 * cPad - cTitleTextH - cPad.
Definition cItemH : f32 := cItemAreaH / (55 # 10).
Definition cScrollScalar : f32 := 5 # 100.
Definition cMinScroll : Z := 0.
Definition cMaxScroll : Z := 7.

(** The test of [updateItemHover]: the pointer is off the item area. *)
Definition offItems (x y : f32) : bool :=
  (x <? cItemAreaX) || (cItemAreaX + cItemAreaW <=? x)
  || (y <? cItemAreaY) || (cItemAreaY + cItemAreaH <=? y).

(** The row under the pointer. *)
Definition row (o : StoreSubState.t) (y : f32) : Z :=
  s32_of_f32
    ((y + inject_Z (StoreSubState.mScroll o) * cScrollScalar - cItemAreaY)
     / cItemH).

Definition updateItemHover (x y : f32) (o : StoreSubState.t) : StoreSubState.t :=
  if offItems x y then set_hover (-1) o else set_hover (row o y) o.

(** The test of [on]: the click is off the window. *)
Definition offWindow (x y : f32) : bool :=
  ((x <? cWindowX) || (cWindowX + cWindowW <? x))
  || ((y <? cWindowY) || (cWindowY + cWindowH <? y)).

(** [usize(mItemHover) >= store.size()]: a negative index converts to a
    huge one. *)
Definition beyond (hover : Z) (items : list StoreItem.t) : bool :=
  (hover <? 0)%Z || (Z.of_nat (List.length items) <=? hover)%Z.

Definition on (evt : Event) (cfg : Config.t) (s : t) (save : Savefile.t)
  : t * Savefile.t :=
  match evt with
  | MouseDown x y =>
      if offWindow x y then
        (mk (overlay s) (mPurchaseFloatAnchor s) (PopSubState :: engine s), save)
      else
        let o := updateItemHover x y (overlay s) in
        if (StoreSubState.mItemHover o =? -1)%Z
           || beyond (StoreSubState.mItemHover o) (Config.store cfg)
        then (mk o (mPurchaseFloatAnchor s) (engine s), save)
        else
          match StoreSubState.getHoveredItem o save cfg with
          | None => (mk o (mPurchaseFloatAnchor s) (engine s), save)
          | Some item =>
              let o := set_timer 0 o in
              let '(e, o', save') := StoreSubState.acquire o save item in
              (mk o' (x, y)
                  (match e with
                   | StoreSubState.SwappedToEnd => SwapToEnd :: engine s
                   | _ => engine s
                   end),
               save')
          end
  | MouseMotion x y =>
      (mk (updateItemHover x y (overlay s)) (mPurchaseFloatAnchor s) (engine s),
       save)
  | MouseScroll amount =>
      (mk (set_scroll
             (SDL_clamp (StoreSubState.mScroll (overlay s) + amount)
                        cMinScroll cMaxScroll) (overlay s))
          (mPurchaseFloatAnchor s) (engine s),
       save)
  | OtherEvent => (s, save)
  end.

Definition run (cfg : Config.t) (events : list Event) (s : t) (save : Savefile.t)
  : t * Savefile.t :=
  fold_left (fun st evt => on evt cfg (fst st) (snd st)) events (s, save).

End Layout.

(** Frames of the overlay alone. *)
Definition ticks (deltas : list f32) (o : StoreSubState.t) : StoreSubState.t :=
  fold_left (fun o delta => StoreSubState.tick delta o) deltas o.

(** The item a click bought, if it bought one: the save record changed. *)
Definition tier_gained (before after : Savefile.V2) : Prop :=
  Savefile.lubeTier before < Savefile.lubeTier after
  \/ Savefile.gravityTier before < Savefile.gravityTier after
  \/ Savefile.oxyTier before < Savefile.oxyTier after.

End StoreScreen.

(** ** The console commands of the game-play screen ([ShitState.cpp]) *)

Module Console.

Inductive Field : Type := LubeTier | GravityTier | Score.

Definition label (f : Field) : string :=
  match f with
  | LubeTier => "lube tier: "
  | GravityTier => "gravity tier: "
  | Score => "score: "
  end.

Definition read (f : Field) (sv : Savefile.t) : Z :=
  match f with
  | LubeTier => Savefile.lubeTier (Savefile.v2 sv)
  | GravityTier => Savefile.gravityTier (Savefile.v2 sv)
  | Score => Savefile.score (Savefile.v2 sv)
  end.

Definition write (f : Field) (z : Z) (sv : Savefile.t) : Savefile.t :=
  Savefile.set_v2
    (match f with
     | LubeTier => Savefile.set_lubeTier z (Savefile.v2 sv)
     | GravityTier => Savefile.set_gravityTier z (Savefile.v2 sv)
     | Score => Savefile.set_score z (Savefile.v2 sv)
     end) sv.

(** A line of console output. *)
Inductive Line : Type :=
| ConsolePrint (text : string)
| ConsoleError (text : string).

Section Commands.

(** [boost::lexical_cast<s16>]: the number a literal stands for, or
    [bad_lexical_cast]. *)
Variable lexical_cast : string -> option Z.

(** [sbs.lube], [sbs.gravity] and [sbs.score]: no argument prints the
    field, one argument sets it.  The members [mSave.lubeTier],
    [mSave.gravityTier] and [mSave.score] are those [recalculateProgressDecay],
    [recalculateGravity] and [refreshScoreString] read. *)
Definition command (f : Field) (args : list string) (s : ShitState.t)
  : ShitState.t * list Line :=
  match args with
  | [] =>
      (s, [ConsolePrint (String.append (label f)
                    (ShitState.show_s16 (read f (ShitState.mSave s))))])
  | [arg] =>
      match lexical_cast arg with
      | Some z =>
          let s := ShitState.set_mSave (write f z (ShitState.mSave s)) s in
          (s, [ConsolePrint (String.append (label f)
                        (ShitState.show_s16 (read f (ShitState.mSave s))))])
      | None => (s, [ConsoleError (String.append "bad numeric literal: " arg)])
      end
  | _ => (s, [])
  end.

(** [sbs.reset]. *)
Definition reset (s : ShitState.t) : ShitState.t := ShitState.resetSave s.

End Commands.

End Console.

(** ** The intro screen ([IntroState.cpp]) *)

Module IntroState.

Record t : Type := mk {
  mFadeIn : f32;
  mLinger : f32;
  mFadeOut : f32
}.

Local Open Scope Q_scope.
Local Open Scope f32_scope.

Definition cFadeInDur : f32 := 2.
Definition cLingerDur : f32 := 3.
Definition cFadeOutDur : f32 := 2.

Definition initial : t := mk 0 0 0.

(** [tick] returns the screen and whether it asked the engine to swap to
    the menu. *)
Definition tick (delta : f32) (s : t) : t * bool :=
  if mFadeIn s <? cFadeInDur then
    (mk (mFadeIn s + delta) (mLinger s) (mFadeOut s), false)
  else if mLinger s <? cLingerDur then
    (mk (mFadeIn s) (mLinger s + delta) (mFadeOut s), false)
  else if mFadeOut s <? cFadeOutDur then
    (mk (mFadeIn s) (mLinger s) (mFadeOut s + delta), false)
  else (s, true).

(** A run of frames: the screen at the end, and whether any frame asked
    for the swap. *)
Fixpoint run (deltas : list f32) (s : t) : t * bool :=
  match deltas with
  | [] => (s, false)
  | delta :: rest =>
      let '(s', swapped) := tick delta s in
      if swapped then (s', true) else run rest s'
  end.

(** The phases are in order: a timer has not moved unless the timers of
    the phases before it have reached their durations. *)
Definition in_order (s : t) : Prop :=
  (mLinger s = 0 \/ cFadeInDur <= mFadeIn s)%Q
  /\ (mFadeOut s = 0
      \/ cFadeInDur <= mFadeIn s /\ cLingerDur <= mLinger s)%Q.

End IntroState.

(** ** Frames of the end-of-run screen *)

Module EndRun.

(** The frames of the end screen until it is over: the screen at the end,
    and whether a frame returned [false]. *)
Fixpoint run (deltas : list f32) (s : EndState.t) : EndState.t * bool :=
  match deltas with
  | [] => (s, false)
  | delta :: rest =>
      let '(alive, s') := EndState.tick delta s in
      if alive then run rest s' else (s', true)
  end.

Definition dialogs (s : EndState.t) : nat :=
  List.length
    (filter (fun r => match r with EndState.InfoDialog _ _ => true | _ => false end)
       (EndState.engine s)).

End EndRun.

(** * Properties *)

(** ** The store *)

Module StoreFacts.

Import StoreSubState.

Lemma SDL_max_is_max (x y : Z) : SDL_max x y = Z.max x y.
Proof. unfold SDL_max. destruct (Z.gtb_spec x y); lia. Qed.

(** [hasItem] is the specification's ownership test. *)
Lemma hasItem_owned (save : Savefile.t) (item : StoreItem.t) :
  hasItem save item = Spec.owned save item.
Proof.
  unfold hasItem, Spec.owned, Spec.tierOf.
  destruct (Z.ltb_spec (Savefile.prestige (Savefile.v2 save))
                       (StoreItem.prestige item)) as [Hlt | Hge];
    destruct (Z.leb_spec (StoreItem.prestige item)
                         (Savefile.prestige (Savefile.v2 save))); try lia;
    simpl; try reflexivity.
  destruct (StoreItem.kind item); try reflexivity;
    rewrite Z.geb_leb; reflexivity.
Qed.

Lemma acquire_owned (s : t) (save : Savefile.t) (item : StoreItem.t) :
  hasItem save item = true ->
  acquire s save item = (AlreadyOwned, reject cAlreadyOwnedFloat s, save).
Proof. intros H. unfold acquire. rewrite H. reflexivity. Qed.

Lemma acquire_broke (s : t) (save : Savefile.t) (item : StoreItem.t) :
  hasItem save item = false ->
  Savefile.score (Savefile.v2 save) < StoreItem.price item ->
  acquire s save item
  = (InsufficientFunds, reject cInsufficientFundsFloat s, save).
Proof.
  intros H Hlt. unfold acquire. rewrite H.
  destruct (Z.ltb_spec (Savefile.score (Savefile.v2 save))
                       (StoreItem.price item)); [reflexivity | lia].
Qed.

(** Every rejection hands the save record back as it was. *)
Lemma acquire_short_keeps_save (s : t) (save : Savefile.t) (item : StoreItem.t) :
  Savefile.score (Savefile.v2 save) < StoreItem.price item ->
  exists code,
    acquire s save item
    = (if hasItem save item then AlreadyOwned else InsufficientFunds,
       reject code s, save).
Proof.
  intros Hlt. destruct (hasItem save item) eqn:H.
  - exists cAlreadyOwnedFloat. now apply acquire_owned.
  - exists cInsufficientFundsFloat. now apply acquire_broke.
Qed.

(** The tiers never go down, whatever [acquire] does. *)
Lemma acquire_tiers_le (s : t) (save : Savefile.t) (item : StoreItem.t) :
  Spec.tiers_le (Savefile.v2 save) (Savefile.v2 (snd (acquire s save item))).
Proof.
  unfold acquire, Spec.tiers_le.
  destruct (hasItem save item); [simpl; lia |].
  destruct (_ <? _); [simpl; lia |].
  destruct (StoreItem.kind item); simpl; rewrite ?SDL_max_is_max; lia.
Qed.

(** Items that [getHoveredItem] hands to [acquire] meet their prestige
    floor: the overlay does not offer the others. *)
Lemma nthOffered_prestige (save : Savefile.t) (items : list StoreItem.t)
    (i hover : Z) (item : StoreItem.t) :
  nthOffered save items i hover = Some item ->
  StoreItem.prestige item <= Savefile.prestige (Savefile.v2 save).
Proof.
  revert i. induction items as [| x rest IH]; intros i; simpl; [discriminate |].
  destruct (Z.gtb_spec (StoreItem.prestige x)
                       (Savefile.prestige (Savefile.v2 save))) as [Hgt | Hle].
  - apply IH.
  - destruct (i =? hover).
    + intros [= <-]. exact Hle.
    + apply IH.
Qed.

Lemma getHoveredItem_prestige (s : t) (save : Savefile.t) (cfg : Config.t)
    (item : StoreItem.t) :
  getHoveredItem s save cfg = Some item ->
  StoreItem.prestige item <= Savefile.prestige (Savefile.v2 save).
Proof.
  unfold getHoveredItem. destruct (mItemHover s <? 0); [discriminate |].
  apply nthOffered_prestige.
Qed.




(** C4. For every save record and every item that has a kind, [acquire]
    makes the specification's checks in the specification's order: owned
    (tier held at least the item's argument, prestige floor met) gives
    AlreadyOwned, else a score below the price gives InsufficientFunds,
    else the purchase goes through. *)
Theorem acquire_check_order (s : t) (save : Savefile.t) (item : StoreItem.t) :
  StoreItem.kind item <> StoreItem.None ->
  Spec.outcome (fst (fst (acquire s save item)))
  = Some (Spec.purchase save item).
Proof.
  intros Hkind. unfold Spec.purchase. rewrite <- hasItem_owned.
  unfold acquire. destruct (hasItem save item); [reflexivity |].
  destruct (_ <? _); [reflexivity |].
  destruct (StoreItem.kind item); try reflexivity. now elim Hkind.
Qed.

Lemma acquire_check_order_witness :
  StoreItem.kind Sample.lube2 <> StoreItem.None
  /\ Spec.outcome (fst (fst (acquire initial (Sample.save_with 20 0) Sample.lube2)))
     = Some Spec.InsufficientFunds.
Proof.
  split; [discriminate |].
  exact (acquire_check_order initial (Sample.save_with 20 0) Sample.lube2
           ltac:(discriminate)).
Defined.

(** An item without a kind that gets past both checks is charged for and
    then runs into [NWGE_UNREACHABLE]. *)
Lemma acquire_nokind :
  fst (fst (acquire initial (Sample.save_with 20 0) Sample.nokind))
  = Unreachable.
Proof. reflexivity. Qed.

Lemma acquire_n_short (n : nat) (s : t) (save : Savefile.t) (item : StoreItem.t) :
  Savefile.score (Savefile.v2 save) < StoreItem.price item ->
  snd (acquire_n n s save item) = save.
Proof.
  intros Hlt. revert s. induction n as [| n IH]; intros s; [reflexivity |].
  simpl. destruct (acquire_short_keeps_save s save item Hlt) as [code ->].
  apply IH.
Qed.

(** C5. When the price is above the score, [acquire] hands back the save
    record as it was (score, tiers, prestige and the dirty flag), the call
    is one of the two rejections, and any number of such attempts in a row
    leaves the record as it was. *)
Theorem acquire_short_of_funds (s : t) (save : Savefile.t) (item : StoreItem.t) :
  Savefile.score (Savefile.v2 save) < StoreItem.price item ->
  snd (acquire s save item) = save
  /\ (fst (fst (acquire s save item)) = AlreadyOwned
      \/ fst (fst (acquire s save item)) = InsufficientFunds)
  /\ forall n : nat, snd (acquire_n n s save item) = save.
Proof.
  intros Hlt.
  destruct (acquire_short_keeps_save s save item Hlt) as [code Heq].
  rewrite Heq. simpl. split; [reflexivity |]. split.
  - destruct (hasItem save item); auto.
  - intros n. now apply acquire_n_short.
Qed.

Lemma acquire_short_of_funds_witness :
  Savefile.score (Savefile.v2 (Sample.save_with 20 0)) < StoreItem.price Sample.lube2
  /\ snd (acquire initial (Sample.save_with 20 0) Sample.lube2)
     = Sample.save_with 20 0.
Proof.
  split; [reflexivity |].
  apply (acquire_short_of_funds initial (Sample.save_with 20 0) Sample.lube2).
  reflexivity.
Defined.

(** C6. A tier purchase that goes through sets the item's tier to the
    larger of the tier held and the item's argument and leaves the other
    tiers alone; no call of [acquire] lowers a tier; and buying a [Lube]
    item of argument 2 twice, the first purchase going through from a tier
    of at most 2, leaves [lubeTier] at 2. *)
Theorem acquire_raises_to_max (s : t) (save : Savefile.t) (item : StoreItem.t) :
  let r := Savefile.v2 save in
  let r1 := Savefile.v2 (snd (acquire s save item)) in
  let r2 := Savefile.v2 (snd (acquire_n 2 s save item)) in
  Spec.tiers_le r r1
  /\ (fst (fst (acquire s save item)) = Purchased ->
      match StoreItem.kind item with
      | StoreItem.Lube =>
          Savefile.lubeTier r1
          = Z.max (Savefile.lubeTier r) (StoreItem.argument item)
          /\ Savefile.gravityTier r1 = Savefile.gravityTier r
          /\ Savefile.oxyTier r1 = Savefile.oxyTier r
      | StoreItem.Gravity =>
          Savefile.gravityTier r1
          = Z.max (Savefile.gravityTier r) (StoreItem.argument item)
          /\ Savefile.lubeTier r1 = Savefile.lubeTier r
          /\ Savefile.oxyTier r1 = Savefile.oxyTier r
      | StoreItem.Oxy =>
          Savefile.oxyTier r1
          = Z.max (Savefile.oxyTier r) (StoreItem.argument item)
          /\ Savefile.lubeTier r1 = Savefile.lubeTier r
          /\ Savefile.gravityTier r1 = Savefile.gravityTier r
      | _ => False
      end)
  /\ (fst (fst (acquire s save item)) = Purchased ->
      StoreItem.kind item = StoreItem.Lube ->
      StoreItem.argument item = 2 ->
      Savefile.lubeTier r <= 2 ->
      Savefile.lubeTier r2 = 2)
  /\ Savefile.lubeTier
       (Savefile.v2 (snd (acquire_n 2 initial (Sample.save_with 100 0)
                            Sample.lube2))) = 2.
Proof.
  cbv zeta. split; [apply acquire_tiers_le |]. split; [| split].
  - unfold acquire. destruct (hasItem save item); [discriminate |].
    destruct (_ <? _); [discriminate |].
    destruct (StoreItem.kind item); simpl; rewrite ?SDL_max_is_max;
      try discriminate; auto.
  - intros Hexit Hkind Harg Hle. simpl.
    destruct (acquire s save item) as [[e s1] save1] eqn:H1. simpl in Hexit.
    pose proof (acquire_tiers_le s1 save1 item) as Hmono.
    assert (Hfirst : Savefile.lubeTier (Savefile.v2 save1) = 2).
    { revert H1. unfold acquire. destruct (hasItem save item).
      - intros [= <- _ _]. discriminate.
      - destruct (_ <? _).
        + intros [= <- _ _]. discriminate.
        + rewrite Hkind. intros [= _ _ <-]. simpl.
          rewrite SDL_max_is_max. lia. }
    destruct (acquire s1 save1 item) as [[e2 s2] save2] eqn:H2. simpl.
    revert H2. unfold acquire, hasItem. rewrite Hkind, Harg, Hfirst.
    destruct (_ <? StoreItem.prestige item).
    + destruct (_ <? _).
      * intros [= _ _ <-]. exact Hfirst.
      * intros [= _ _ <-]. simpl. rewrite Hfirst. reflexivity.
    + simpl. intros [= _ _ <-]. exact Hfirst.
  - reflexivity.
Qed.

End StoreFacts.

(** ** The simulation *)

Module SimFacts.

Import ShitState.
Local Open Scope Q_scope.

Lemma f32_lt_spec (a b : f32) : BoolSpec (a < b) (b <= a) (f32_lt a b).
Proof. unfold f32_lt. destruct (Qlt_le_dec a b); constructor; assumption. Qed.

Lemma f32_le_spec (a b : f32) : BoolSpec (a <= b) (b < a) (f32_le a b).
Proof. unfold f32_le. destruct (Qlt_le_dec b a); constructor; assumption. Qed.

(** Case analysis on every comparison and flag the goal branches on. *)
Ltac f32_cases :=
  repeat match goal with
    | |- context [f32_lt ?a ?b] => destruct (f32_lt_spec a b)
    | |- context [f32_le ?a ?b] => destruct (f32_le_spec a b)
    | |- context [if ?b then _ else _] => destruct b eqn:?
    end.

(** Projections of updated records. *)
Ltac fields :=
  cbn [mEffort mOxy mOuttaBreath mProgress mCooldown mGravity mProgressDecay
       mBrickFall mScoreString mTimer mStore mHoveringStoreIcon mConfig mSave
       mWaterX mWaterY sSplash engine
       set_mEffort set_mOxy set_mOuttaBreath set_mProgress set_mCooldown
       set_mGravity set_mProgressDecay set_mBrickFall set_mScoreString
       set_mTimer set_mStore set_mHoveringStoreIcon set_mSave set_mWaterX
       set_mWaterY set_sSplash set_engine request
       save refreshScoreString Storage.nqSave
       recalculateProgressDecay recalculateGravity updateHoveringStoreIcon
       Savefile.v2 Savefile.dirty Savefile.set_dirty Savefile.set_v2
       Savefile.score Savefile.prestige Savefile.lubeTier
       Savefile.gravityTier Savefile.oxyTier Savefile.set_score
       incrementScore Game.screen Game.overlay fst snd] in *.

(** Stage by stage: what a stage of [tick] leaves alone. *)
Ltac stage f := unfold f; fields; f32_cases; fields; try reflexivity.

Lemma tick_begin_sim sinf delta s :
  mEffort (tick_begin sinf delta s) = mEffort s
  /\ mOxy (tick_begin sinf delta s) = mOxy s
  /\ mProgress (tick_begin sinf delta s) = mProgress s
  /\ mGravity (tick_begin sinf delta s) = mGravity s
  /\ mConfig (tick_begin sinf delta s) = mConfig s
  /\ mCooldown (tick_begin sinf delta s) = mCooldown s
  /\ mBrickFall (tick_begin sinf delta s) = mBrickFall s
  /\ Savefile.v2 (mSave (tick_begin sinf delta s)) = Savefile.v2 (mSave s)
  /\ mTimer (tick_begin sinf delta s) = mTimer s + delta.
Proof. unfold tick_begin, tick_water. fields. f32_cases; fields; repeat split. Qed.

Lemma tick_begin_flush sinf delta s :
  Savefile.dirty (mSave (tick_begin sinf delta s)) = false
  /\ mStore (tick_begin sinf delta s)
     = (if Savefile.dirty (mSave s)
        then [("progress"%string, Savefile.v2 (mSave s))] else [])
       ++ mStore s.
Proof.
  unfold tick_begin, tick_water. fields.
  destruct (Savefile.dirty (mSave s)) eqn:Hd; fields; auto.
Qed.

Lemma tick_effort_frame delta s :
  mOxy (tick_effort delta s) = mOxy s
  /\ mOuttaBreath (tick_effort delta s) = mOuttaBreath s
  /\ mProgress (tick_effort delta s) = mProgress s
  /\ mGravity (tick_effort delta s) = mGravity s
  /\ mConfig (tick_effort delta s) = mConfig s
  /\ mCooldown (tick_effort delta s) = mCooldown s
  /\ mBrickFall (tick_effort delta s) = mBrickFall s
  /\ mSave (tick_effort delta s) = mSave s
  /\ mStore (tick_effort delta s) = mStore s.
Proof. stage tick_effort; repeat split. Qed.

Lemma tick_oxy_frame delta s :
  mEffort (tick_oxy delta s) = mEffort s
  /\ mProgress (tick_oxy delta s) = mProgress s
  /\ mGravity (tick_oxy delta s) = mGravity s
  /\ mConfig (tick_oxy delta s) = mConfig s
  /\ mCooldown (tick_oxy delta s) = mCooldown s
  /\ mBrickFall (tick_oxy delta s) = mBrickFall s
  /\ mSave (tick_oxy delta s) = mSave s
  /\ mStore (tick_oxy delta s) = mStore s.
Proof. stage tick_oxy; repeat split. Qed.

Lemma tick_brick_frame delta s :
  mEffort (tick_brick delta s) = mEffort s
  /\ mOxy (tick_brick delta s) = mOxy s
  /\ mProgress (tick_brick delta s) = mProgress s
  /\ mGravity (tick_brick delta s) = mGravity s
  /\ mConfig (tick_brick delta s) = mConfig s
  /\ mCooldown (tick_brick delta s) = mCooldown s
  /\ mSave (tick_brick delta s) = mSave s
  /\ mStore (tick_brick delta s) = mStore s.
Proof. stage tick_brick; repeat split. Qed.

Lemma tick_effort_bounds delta s :
  0 <= delta -> 0 <= mEffort s ->
  0 <= mEffort (tick_effort delta s) <= mEffort s.
Proof.
  intros Hd He. unfold tick_effort, cEffortDecay. fields.
  f32_cases; fields; lra.
Qed.

Lemma tick_oxy_bounds delta s : 0 <= mOxy (tick_oxy delta s).
Proof. stage tick_oxy; lra. Qed.

Lemma inject_Z_nonneg (z : Z) : (0 <= z)%Z -> 0 <= inject_Z z.
Proof. intros H. change 0 with (inject_Z 0). now rewrite <- Zle_Qle. Qed.

(** What [tick_progress] does to the save record and the storage. *)
Lemma tick_progress_save delta s :
  mSave (tick_progress delta s)
  = (if fills delta s
     then Savefile.set_dirty false (incrementScore (mSave s)) else mSave s)
  /\ mStore (tick_progress delta s)
     = (if fills delta s
        then [("progress"%string, Savefile.v2 (incrementScore (mSave s)))]
        else [])
       ++ mStore s.
Proof.
  unfold tick_progress, fills, complete. fields.
  f32_cases; fields; try lra; auto.
Qed.

Lemma tick_progress_frame delta s :
  mEffort (tick_progress delta s) = mEffort s
  /\ mOxy (tick_progress delta s) = mOxy s
  /\ mConfig (tick_progress delta s) = mConfig s.
Proof. unfold tick_progress, complete. fields. f32_cases; fields; auto. Qed.

Lemma tick_progress_fills delta s :
  fills delta s = true ->
  tick_progress delta s = complete (set_mProgress (advanced delta s) s).
Proof.
  unfold tick_progress, fills. fields.
  f32_cases; fields; try reflexivity; try discriminate; lra.
Qed.

Lemma advanced_ge delta s :
  0 <= delta -> 0 <= mEffort s -> 0 <= mGravity s ->
  mProgress s <= advanced delta s.
Proof.
  intros Hd He Hg. unfold advanced, cProgressScalar.
  assert (0 <= mEffort s * delta) by now apply Qmult_le_0_compat.
  assert (0 <= mGravity s * delta) by now apply Qmult_le_0_compat.
  f32_cases; lra.
Qed.

Lemma tick_progress_bounds delta s :
  0 <= delta -> 0 <= mEffort s -> 0 <= mGravity s -> 0 <= mProgress s ->
  0 <= mProgress (tick_progress delta s).
Proof.
  intros Hd He Hg Hp. pose proof (advanced_ge delta s Hd He Hg) as Ha.
  unfold tick_progress, complete. fields.
  f32_cases; fields; lra.
Qed.

Lemma tick_progress_gravity delta s :
  Spec.gravityUp (mConfig s) ->
  (0 <= Savefile.gravityTier (Savefile.v2 (mSave s)))%Z ->
  0 <= mGravity s ->
  0 <= mGravity (tick_progress delta s).
Proof.
  intros [Hb Hu] Ht Hg. apply inject_Z_nonneg in Ht.
  pose proof (Qmult_le_0_compat _ _ Ht Hu).
  unfold tick_progress, complete. fields.
  f32_cases; fields; lra.
Qed.

Lemma tick_unfold sinf delta s :
  tick sinf delta s
  = if f32_lt (mTimer s + delta) cFadeInTime
    then tick_begin sinf delta s
    else tick_brick delta
           (tick_progress delta
              (tick_oxy delta (tick_effort delta (tick_begin sinf delta s)))).
Proof.
  unfold tick.
  destruct (tick_begin_sim sinf delta s) as (_ & _ & _ & _ & _ & _ & _ & _ & ->).
  reflexivity.
Qed.

(** Field by field through the stages of a frame. *)
Ltac through_stages sinf delta s :=
  let s0 := constr:(tick_begin sinf delta s) in
  let s1 := constr:(tick_effort delta s0) in
  let s2 := constr:(tick_oxy delta s1) in
  let s3 := constr:(tick_progress delta s2) in
  pose proof (tick_begin_sim sinf delta s) as
    (Hb_e & Hb_o & Hb_p & Hb_g & Hb_c & Hb_cd & Hb_bf & Hb_sv & Hb_t);
  pose proof (tick_effort_frame delta s0) as
    (He_o & He_ob & He_p & He_g & He_c & He_cd & He_bf & He_sv & He_st);
  pose proof (tick_oxy_frame delta s1) as
    (Ho_e & Ho_p & Ho_g & Ho_c & Ho_cd & Ho_bf & Ho_sv & Ho_st);
  pose proof (tick_progress_frame delta s2) as (Hp_e & Hp_o & Hp_c);
  pose proof (tick_brick_frame delta s3) as
    (Hk_e & Hk_o & Hk_p & Hk_g & Hk_c & Hk_cd & Hk_sv & Hk_st).

Lemma tick_invariant sinf delta s :
  0 <= delta -> Spec.simInvariant s -> Spec.simInvariant (tick sinf delta s).
Proof.
  intros Hd (((He0 & He1) & Ho & Hp) & Hg & Hup & Htier).
  rewrite tick_unfold. through_stages sinf delta s.
  destruct (f32_lt_spec (mTimer s + delta) cFadeInTime) as [Hfade | Hrun].
  - unfold Spec.simInvariant, Spec.bounded.
    rewrite Hb_e, Hb_o, Hb_p, Hb_g, Hb_c, Hb_sv. auto.
  - set (s0 := tick_begin sinf delta s) in *.
    set (s1 := tick_effort delta s0) in *.
    set (s2 := tick_oxy delta s1) in *.
    set (s3 := tick_progress delta s2) in *.
    assert (Heff : 0 <= mEffort s1 <= mEffort s).
    { rewrite <- Hb_e. apply tick_effort_bounds; [exact Hd | now rewrite Hb_e]. }
    assert (Hoxy : 0 <= mOxy s2) by apply tick_oxy_bounds.
    assert (Hsave2 : Savefile.v2 (mSave s2) = Savefile.v2 (mSave s))
      by now rewrite Ho_sv, He_sv, Hb_sv.
    assert (Hgrav2 : 0 <= mGravity s2) by now rewrite Ho_g, He_g, Hb_g.
    assert (Hcfg2 : mConfig s2 = mConfig s) by now rewrite Ho_c, He_c, Hb_c.
    assert (Hprog : 0 <= mProgress s3).
    { apply tick_progress_bounds; try assumption.
      - rewrite Ho_e. apply Heff.
      - now rewrite Ho_p, He_p, Hb_p. }
    assert (Hgrav : 0 <= mGravity s3).
    { apply tick_progress_gravity; try assumption.
      - now rewrite Hcfg2.
      - now rewrite Hsave2. }
    assert (Htier3 : Savefile.gravityTier (Savefile.v2 (mSave s3))
                     = Savefile.gravityTier (Savefile.v2 (mSave s))).
    { unfold s3. destruct (tick_progress_save delta s2) as [-> _].
      destruct (fills delta s2); fields; now rewrite Hsave2. }
    unfold Spec.simInvariant, Spec.bounded.
    rewrite Hk_e, Hk_o, Hk_p, Hk_g, Hk_c, Hk_sv, Hp_e, Hp_o, Hp_c, Ho_e, Hcfg2,
      Htier3.
    repeat split; try assumption; try apply Hup; lra.
Qed.

Lemma canPush_iff s :
  canPush s = true
  <-> mOuttaBreath s = false
      /\ mCooldown s <= 0
      /\ mEffort s < cMaxEffort
      /\ Config.oxy_min (Config.oxy (mConfig s)) <= mOxy s.
Proof.
  unfold canPush. rewrite !andb_true_iff, negb_true_iff.
  destruct (f32_le_spec (mCooldown s) 0), (f32_lt_spec (mEffort s) cMaxEffort),
    (f32_le_spec (Config.oxy_min (Config.oxy (mConfig s))) (mOxy s));
    intuition (try discriminate; try lra).
Qed.

Lemma on_effort evt s :
  mEffort (on evt s)
  = match evt with
    | MouseDown x y =>
        if negb (f32_lt (mTimer s) cFadeInTime)
           && negb (overStoreIcon x y) && canPush s
        then mEffort s + cEffortIncrement
        else mEffort s
    | _ => mEffort s
    end.
Proof.
  unfold on. destruct (f32_lt (mTimer s) cFadeInTime); [now destruct evt |].
  destruct evt as [x y | x y |]; try reflexivity. cbv zeta.
  change (mHoveringStoreIcon (updateHoveringStoreIcon x y s))
    with (overStoreIcon x y).
  change (canPush (updateHoveringStoreIcon x y s)) with (canPush s).
  destruct (overStoreIcon x y); [reflexivity |].
  destruct (canPush s); reflexivity.
Qed.

Lemma on_frame evt s :
  mOxy (on evt s) = mOxy s
  /\ mProgress (on evt s) = mProgress s
  /\ mGravity (on evt s) = mGravity s
  /\ mConfig (on evt s) = mConfig s
  /\ mSave (on evt s) = mSave s
  /\ mStore (on evt s) = mStore s.
Proof.
  unfold on. destruct evt; fields; f32_cases; fields; repeat split.
Qed.

Lemma on_effort_bounds evt s :
  0 <= mEffort s -> mEffort s < cMaxEffort + cEffortIncrement ->
  0 <= mEffort (on evt s)
  /\ mEffort (on evt s) < cMaxEffort + cEffortIncrement.
Proof.
  intros He0 He1. rewrite on_effort. destruct evt; auto.
  destruct (negb _ && negb _); simpl; auto.
  destruct (canPush s) eqn:Hpush; auto.
  apply canPush_iff in Hpush. unfold cEffortIncrement, cMaxEffort in *.
  split; lra.
Qed.

Lemma on_invariant evt s : Spec.simInvariant s -> Spec.simInvariant (on evt s).
Proof.
  intros (((He0 & He1) & Ho & Hp) & Hg & Hup & Htier).
  destruct (on_frame evt s) as (Ho' & Hp' & Hg' & Hc' & Hs' & _).
  pose proof (on_effort_bounds evt s He0 He1) as He'.
  unfold Spec.simInvariant, Spec.bounded.
  rewrite Ho', Hp', Hg', Hc', Hs'. auto.
Qed.

Lemma tick_completes sinf delta s :
  completes sinf delta s = true ->
  let s2 := tick_oxy delta (tick_effort delta (tick_begin sinf delta s)) in
  tick sinf delta s
  = tick_brick delta (complete (set_mProgress (advanced delta s2) s2)).
Proof.
  unfold completes. rewrite tick_unfold.
  destruct (tick_begin_sim sinf delta s) as (_ & _ & _ & _ & _ & _ & _ & _ & ->).
  destruct (f32_lt (mTimer s + delta) cFadeInTime); [discriminate |].
  intros Hfill. cbv zeta. now rewrite tick_progress_fills.
Qed.

(** The save record and the storage across one frame. *)
Lemma tick_save sinf delta s :
  mSave (tick sinf delta s)
  = (if completes sinf delta s
     then Savefile.set_dirty false (incrementScore (mSave s))
     else Savefile.set_dirty false (mSave s))
  /\ mStore (tick sinf delta s)
     = (if completes sinf delta s
        then [("progress"%string, Savefile.v2 (incrementScore (mSave s)))]
        else [])
       ++ (if Savefile.dirty (mSave s)
           then [("progress"%string, Savefile.v2 (mSave s))] else [])
       ++ mStore s.
Proof.
  assert (Hbegin : mSave (tick_begin sinf delta s)
                   = Savefile.set_dirty false (mSave s)).
  { unfold tick_begin, tick_water. fields.
    destruct (mSave s) as [r d] eqn:Hsave.
    destruct d; fields; rewrite ?Hsave; reflexivity. }
  destruct (tick_begin_flush sinf delta s) as [_ Hstore].
  unfold completes. rewrite tick_unfold. through_stages sinf delta s.
  rewrite Hb_t.
  destruct (f32_lt (mTimer s + delta) cFadeInTime); [now split |].
  set (s2 := tick_oxy delta (tick_effort delta (tick_begin sinf delta s))) in *.
  destruct (tick_progress_save delta s2) as [Hsv Hst].
  assert (Hs2 : mSave s2 = Savefile.set_dirty false (mSave s))
    by now rewrite Ho_sv, He_sv.
  rewrite Hk_sv, Hk_st, Hsv, Hst, Hs2, Ho_st, He_st, Hstore.
  destruct (fills delta s2); split; reflexivity.
Qed.

Lemma tick_dirty sinf delta s :
  Savefile.dirty (mSave (tick sinf delta s)) = false.
Proof.
  destruct (tick_save sinf delta s) as [-> _].
  destruct (completes sinf delta s); reflexivity.
Qed.

Lemma tick_requests sinf delta s :
  List.length (mStore (tick sinf delta s))
  = ((if completes sinf delta s then 1 else 0)
     + (if Savefile.dirty (mSave s) then 1 else 0)
     + List.length (mStore s))%nat.
Proof.
  destruct (tick_save sinf delta s) as [_ ->].
  rewrite !List.length_app.
  destruct (completes sinf delta s), (Savefile.dirty (mSave s)); simpl; lia.
Qed.

Lemma ticks_requests sinf deltas s :
  Savefile.dirty (mSave s) = false ->
  Savefile.dirty (mSave (ticks sinf deltas s)) = false
  /\ List.length (mStore (ticks sinf deltas s))
     = (completions sinf deltas s + List.length (mStore s))%nat.
Proof.
  revert s. induction deltas as [| delta rest IH]; intros s Hclean.
  - now split.
  - change (ticks sinf (delta :: rest) s)
      with (ticks sinf rest (tick sinf delta s)).
    destruct (IH (tick sinf delta s) (tick_dirty sinf delta s)) as [Hd Hl].
    split; [exact Hd |].
    rewrite Hl, tick_requests, Hclean. cbn [completions]. lia.
Qed.

Lemma wrap16_range (z : Z) : s16_range z -> wrap16 z = z.
Proof.
  unfold s16_range, wrap16. intros H.
  rewrite Z.mod_small by lia. lia.
Qed.

(** *** The game as a whole *)

Lemma acquire_screen item g :
  exists sv,
    Game.screen (snd (Game.acquire item g)) = set_mSave sv (Game.screen g)
    /\ Spec.tiers_le (Savefile.v2 (mSave (Game.screen g))) (Savefile.v2 sv).
Proof.
  unfold Game.acquire.
  pose proof (StoreFacts.acquire_tiers_le (Game.overlay g)
                (mSave (Game.screen g)) item) as Hle.
  destruct (StoreSubState.acquire _ _ _) as [[e o] sv].
  exists sv. split; [reflexivity | exact Hle].
Qed.

Lemma step_invariant sinf i g :
  Game.forward i ->
  Spec.simInvariant (Game.screen g) ->
  Spec.simInvariant (Game.screen (Game.step sinf i g)).
Proof.
  intros Hfwd Hinv. destruct i as [delta | evt | item]; simpl.
  - now apply tick_invariant.
  - now apply on_invariant.
  - destruct (acquire_screen item g) as (sv & -> & _ & Hgrav & _).
    destruct Hinv as (Hb & Hg & Hup & Htier).
    unfold Spec.simInvariant, Spec.bounded. fields.
    split; [exact Hb |]. split; [exact Hg |]. split; [exact Hup | lia].
Qed.

Lemma run_invariant sinf inputs g :
  Forall Game.forward inputs ->
  Spec.simInvariant (Game.screen g) ->
  Spec.simInvariant (Game.screen (Game.run sinf inputs g)).
Proof.
  intros Hfwd. revert g.
  induction Hfwd as [| i rest Hi _ IH]; intros g Hinv; [exact Hinv |].
  apply IH. now apply step_invariant.
Qed.

Lemma start_invariant cfg disk :
  Spec.gravityUp cfg ->
  (0 <= Savefile.gravityTier
          (Storage.nqLoad "progress" disk (Savefile.v2 Savefile.default)))%Z ->
  Spec.simInvariant (Game.screen (Game.start cfg disk)).
Proof.
  intros [Hb Hu] Htier.
  pose proof (Qmult_le_0_compat _ _ (inject_Z_nonneg _ Htier) Hu).
  unfold Spec.simInvariant, Spec.bounded, Spec.gravityUp, Game.start, init,
    preload, cMaxEffort, cEffortIncrement.
  fields. repeat split; try assumption; lra.
Qed.

(** The effort and the oxygen keep their bounds under any configuration. *)
Lemma tick_metered sinf delta s :
  0 <= delta -> Spec.metered s -> Spec.metered (tick sinf delta s).
Proof.
  intros Hd ((He0 & He1) & Ho).
  rewrite tick_unfold. through_stages sinf delta s.
  destruct (f32_lt_spec (mTimer s + delta) cFadeInTime) as [Hfade | Hrun].
  - unfold Spec.metered. rewrite Hb_e, Hb_o. auto.
  - assert (Heff : 0 <= mEffort (tick_effort delta (tick_begin sinf delta s))
                   <= mEffort s).
    { rewrite <- Hb_e. apply tick_effort_bounds; [exact Hd | now rewrite Hb_e]. }
    pose proof (tick_oxy_bounds delta
                  (tick_effort delta (tick_begin sinf delta s))) as Hoxy.
    unfold Spec.metered. rewrite Hk_e, Hk_o, Hp_e, Hp_o, Ho_e.
    repeat split; try assumption; lra.
Qed.

Lemma step_metered sinf i g :
  Game.forward i ->
  Spec.metered (Game.screen g) ->
  Spec.metered (Game.screen (Game.step sinf i g)).
Proof.
  intros Hfwd Hm. destruct i as [delta | evt | item]; simpl.
  - now apply tick_metered.
  - destruct Hm as ((He0 & He1) & Ho).
    destruct (on_frame evt (Game.screen g)) as (Ho' & _).
    pose proof (on_effort_bounds evt (Game.screen g) He0 He1) as He'.
    unfold Spec.metered. rewrite Ho'. auto.
  - destruct (acquire_screen item g) as (sv & -> & _).
    unfold Spec.metered in *. fields. exact Hm.
Qed.

Lemma run_metered sinf inputs g :
  Forall Game.forward inputs ->
  Spec.metered (Game.screen g) ->
  Spec.metered (Game.screen (Game.run sinf inputs g)).
Proof.
  intros Hfwd. revert g.
  induction Hfwd as [| i rest Hi _ IH]; intros g Hm; [exact Hm |].
  apply IH. now apply step_metered.
Qed.

Lemma start_metered cfg disk : Spec.metered (Game.screen (Game.start cfg disk)).
Proof.
  unfold Spec.metered, Game.start, init, preload, cMaxEffort, cEffortIncrement.
  fields. repeat split; lra.
Qed.

(** C1.  As stated the claim fails: the effort is not clamped after a click,
    nor the oxygen after it has regenerated, nor the fill when it completes,
    and a gravity that pulls backwards takes the fill below zero.  What
    holds at the end of every input of a run with non-negative time steps,
    under every configuration and from every storage: the effort is at
    least zero and below the maximum plus one increment, and the oxygen is
    at least zero.  Under a gravity curve that does not pull backwards
    (base and upgrade not negative, gravity tier loaded not negative) the
    fill is at least zero as well. *)
Theorem meters_bounded_below sinf cfg disk inputs :
  Forall Game.forward inputs ->
  Spec.metered (Game.screen (Game.run sinf inputs (Game.start cfg disk)))
  /\ (Spec.gravityUp cfg ->
      (0 <= Savefile.gravityTier
              (Storage.nqLoad "progress" disk (Savefile.v2 Savefile.default)))%Z ->
      0 <= mProgress (Game.screen (Game.run sinf inputs (Game.start cfg disk)))).
Proof.
  intros Hfwd. split.
  - apply run_metered; [exact Hfwd | apply start_metered].
  - intros Hup Htier.
    apply (run_invariant sinf inputs (Game.start cfg disk) Hfwd
             (start_invariant cfg disk Hup Htier)).
Qed.

Lemma sample_forward : Forall Game.forward Sample.fill.
Proof. repeat constructor; simpl; lra. Qed.

Lemma meters_bounded_below_witness :
  Forall Game.forward Sample.fill
  /\ Spec.metered (Sample.after Sample.fill [])
  /\ 0 <= mProgress (Sample.after Sample.fill []).
Proof.
  assert (Hup : Spec.gravityUp Sample.cfg) by (split; simpl; lra).
  assert (Htier : (0 <= Savefile.gravityTier
                          (Storage.nqLoad "progress" []
                             (Savefile.v2 Savefile.default)))%Z)
    by (simpl; lia).
  split; [exact sample_forward |].
  destruct (meters_bounded_below Sample.still Sample.cfg [] Sample.fill
              sample_forward) as [Hm Hp].
  split; [exact Hm | exact (Hp Hup Htier)].
Defined.

(** C1, as stated, at four runs that each end in a frame: the effort is
    above the maximum, the oxygen above 1, the fill above 1, and, under a
    gravity base of -1 with the threshold at 0, the fill below 0. *)
Lemma meters_not_clamped :
  let final inputs := Sample.after inputs [] in
  let pulled :=
    Game.screen
      (Game.run Sample.still [Game.Tick 1] (Game.start Sample.backwards [])) in
  (last Sample.overpush Sample.click = Game.Tick (1 # 60)
   /\ ~ Spec.clamped (final Sample.overpush)
   /\ cMaxEffort < mEffort (final Sample.overpush))
  /\ (last Sample.breather Sample.click = Game.Tick (1 # 2)
      /\ ~ Spec.clamped (final Sample.breather)
      /\ 1 < mOxy (final Sample.breather))
  /\ (last Sample.fill Sample.click = Game.Tick (1 # 2)
      /\ ~ Spec.clamped (final Sample.fill)
      /\ 1 < mProgress (final Sample.fill))
  /\ (~ Spec.clamped pulled
      /\ ~ Spec.bounded pulled
      /\ mProgress pulled == -1).
Proof.
  cbv zeta. repeat split; try reflexivity.
  - intros ((_ & H) & _). vm_compute in H. now apply H.
  - intros (_ & (_ & H) & _). vm_compute in H. now apply H.
  - intros (_ & _ & (_ & H)). vm_compute in H. now apply H.
  - intros (_ & _ & (H & _)). vm_compute in H. now apply H.
  - intros (_ & _ & H). vm_compute in H. now apply H.
Qed.

(** C9.  As stated the claim fails: the increment is not clamped, and a
    click during the fade-in does nothing.  What holds: a mouse-down moves
    the effort by exactly one increment, unclamped, when the fade-in is
    over, the click is off the store icon and the four conditions hold (not
    out of breath, cooldown at most 0, effort below the maximum, oxygen at
    least the configured minimum); any other event leaves the effort as it
    was. *)
Theorem click_adds_unclamped_increment evt s :
  mEffort (on evt s)
  = match evt with
    | MouseDown x y =>
        if negb (f32_lt (mTimer s) cFadeInTime)
           && negb (overStoreIcon x y) && canPush s
        then mEffort s + cEffortIncrement
        else mEffort s
    | _ => mEffort s
    end
  /\ (canPush s = true
      <-> mOuttaBreath s = false
          /\ mCooldown s <= 0
          /\ mEffort s < cMaxEffort
          /\ Config.oxy_min (Config.oxy (mConfig s)) <= mOxy s).
Proof. split; [apply on_effort | apply canPush_iff]. Qed.

(** C9, as stated, at two states in which the four conditions hold: with
    the effort at 19/20 the click takes it to 21/20, above the maximum; and
    on the first frame, still fading in, the click leaves it at 0. *)
Lemma click_not_clamped_nor_always_counted :
  let s := Sample.after (removelast Sample.warmup) [] in
  let s0 := Sample.after [] [] in
  (canPush s = true
   /\ mEffort s == 19 # 20
   /\ mEffort (on Sample.press s) == 21 # 20
   /\ ~ mEffort (on Sample.press s) == Spec.clickedEffort s)
  /\ (canPush s0 = true
      /\ mEffort (on Sample.press s0) == 0
      /\ ~ mEffort (on Sample.press s0) == Spec.clickedEffort s0).
Proof.
  cbv zeta. repeat split; try (vm_compute; reflexivity);
    intros H; vm_compute in H; discriminate.
Qed.

(** What the completing branch leaves behind. *)
Lemma complete_fields s1 :
  mBrickFall (complete s1) = 0
  /\ mCooldown (complete s1) = cCooldownValue
  /\ mConfig (complete s1) = mConfig s1.
Proof. unfold complete. fields. repeat split. Qed.

(** A fall that starts the stage at 0 ends it one step further. *)
Lemma tick_brick_restart delta s :
  mBrickFall s = 0 ->
  mBrickFall (tick_brick delta s)
  = 0 + Config.brick_fallSpeed (Config.brick (mConfig s)) * delta.
Proof.
  intros H0. unfold tick_brick. rewrite H0.
  destruct (f32_le_spec 0 0) as [_ | Hlt]; [| lra].
  cbv zeta. destruct (_ && _); reflexivity.
Qed.

(** C7.  As stated the claim fails at the largest score, which the
    increment wraps, and for the fall at the end of the frame.  What holds
    in every frame that takes the completing branch: the score goes up by
    one in 16-bit arithmetic (by exactly one unless it was 32767), the
    record goes to the storage at once, the cooldown is the cooldown value,
    and the fall is set to 0 and then, in the same frame, moved on by one
    step of the fall speed. *)
Theorem completion_effects sinf delta s :
  completes sinf delta s = true ->
  let s' := tick sinf delta s in
  let score := Savefile.score (Savefile.v2 (mSave s)) in
  (exists s1,
      s' = tick_brick delta (complete s1)
      /\ mBrickFall (complete s1) = 0
      /\ mCooldown (complete s1) = cCooldownValue
      /\ mSave (complete s1) = mSave s')
  /\ Savefile.v2 (mSave s')
     = Savefile.set_score (wrap16 (score + 1)) (Savefile.v2 (mSave s))
  /\ (s16_range score -> score <> 32767%Z ->
      Savefile.score (Savefile.v2 (mSave s')) = (score + 1)%Z)
  /\ mCooldown s' = cCooldownValue
  /\ mBrickFall s'
     = 0 + Config.brick_fallSpeed (Config.brick (mConfig s)) * delta
  /\ exists flushed,
      mStore s' = ("progress"%string, Savefile.v2 (mSave s')) :: flushed ++ mStore s.
Proof.
  intros Hc. cbv zeta.
  destruct (tick_save sinf delta s) as [Hsv Hst]. rewrite Hc in Hsv, Hst.
  pose proof (tick_completes sinf delta s Hc) as Htick. cbv zeta in Htick.
  destruct (tick_begin_sim sinf delta s) as (_ & _ & _ & _ & Hb_c & _).
  destruct (tick_effort_frame delta (tick_begin sinf delta s))
    as (_ & _ & _ & _ & He_c & _).
  destruct (tick_oxy_frame delta (tick_effort delta (tick_begin sinf delta s)))
    as (_ & _ & _ & Ho_c & _).
  remember (tick_oxy delta (tick_effort delta (tick_begin sinf delta s))) as s2.
  remember (set_mProgress (advanced delta s2) s2) as s1.
  destruct (complete_fields s1) as (Hbf & Hcd & Hcfg).
  assert (Hcfg1 : mConfig s1 = mConfig s).
  { rewrite Heqs1. unfold set_mProgress. cbn [mConfig].
    now rewrite Ho_c, He_c, Hb_c. }
  destruct (tick_brick_frame delta (complete s1))
    as (_ & _ & _ & _ & _ & Hk_cd & Hk_sv & _).
  split; [| split; [| split; [| split; [| split]]]].
  - exists s1. rewrite Htick. repeat split; auto.
  - rewrite Hsv. reflexivity.
  - intros Hrange Hmax. rewrite Hsv.
    unfold Savefile.set_dirty, incrementScore, Savefile.set_v2,
      Savefile.set_score. cbn [Savefile.v2 Savefile.score].
    apply wrap16_range. unfold s16_range in *. lia.
  - rewrite Htick, Hk_cd. exact Hcd.
  - rewrite Htick, (tick_brick_restart delta (complete s1) Hbf), Hcfg, Hcfg1.
    reflexivity.
  - rewrite Hst, Hsv.
    exists (if Savefile.dirty (mSave s)
            then [("progress"%string, Savefile.v2 (mSave s))] else []).
    reflexivity.
Qed.

Lemma completion_effects_witness :
  completes Sample.still (1 # 2) (Sample.after Sample.almost []) = true
  /\ mCooldown (tick Sample.still (1 # 2) (Sample.after Sample.almost []))
     = cCooldownValue.
Proof.
  assert (Hc : completes Sample.still (1 # 2) (Sample.after Sample.almost [])
               = true) by (vm_compute; reflexivity).
  split; [exact Hc |].
  exact (proj1 (proj2 (proj2 (proj2
           (completion_effects Sample.still (1 # 2)
              (Sample.after Sample.almost []) Hc))))).
Defined.

(** C7, as stated, at a completing frame that starts from a score of
    32767: the score ends at -32768, and the fall ends the frame at 1/2. *)
Lemma completion_wraps_score :
  let s := Sample.after Sample.almost Sample.rich in
  let s' := tick Sample.still (1 # 2) s in
  completes Sample.still (1 # 2) s = true
  /\ Savefile.score (Savefile.v2 (mSave s)) = 32767%Z
  /\ Savefile.score (Savefile.v2 (mSave s')) = (-32768)%Z
  /\ Savefile.score (Savefile.v2 (mSave s'))
     <> (Savefile.score (Savefile.v2 (mSave s)) + 1)%Z
  /\ mBrickFall s' == 1 # 2
  /\ ~ mBrickFall s' == 0.
Proof.
  cbv zeta.
  split; [vm_compute; reflexivity |].
  split; [vm_compute; reflexivity |].
  split; [vm_compute; reflexivity |].
  split; [vm_compute; discriminate |].
  split; [vm_compute; reflexivity |].
  vm_compute. discriminate.
Qed.

(** C2.  A frame that starts with the dirty flag set hands the record as
    it stands to the storage under the game-play key and clears the flag;
    the flag then stays clear over later frames, and over the whole run
    the storage has received that one request and one more for each
    completed fill. *)
Theorem dirty_flushed_once sinf delta deltas s :
  Savefile.dirty (mSave s) = true ->
  let s1 := tick sinf delta s in
  let s2 := ticks sinf deltas s1 in
  (exists later,
      mStore s1 = later ++ ("progress"%string, Savefile.v2 (mSave s)) :: mStore s
      /\ List.length later = if completes sinf delta s then 1%nat else 0%nat)
  /\ Savefile.dirty (mSave s1) = false
  /\ Savefile.dirty (mSave s2) = false
  /\ List.length (mStore s2)
     = (completions sinf (delta :: deltas) s + 1 + List.length (mStore s))%nat.
Proof.
  intros Hdirty. cbv zeta.
  destruct (tick_save sinf delta s) as [_ Hst]. rewrite Hdirty in Hst.
  destruct (ticks_requests sinf deltas (tick sinf delta s)
              (tick_dirty sinf delta s)) as [Hd2 Hl2].
  split; [| split; [apply tick_dirty | split; [exact Hd2 |]]].
  - exists (if completes sinf delta s
            then [("progress"%string, Savefile.v2 (incrementScore (mSave s)))]
            else []).
    split; [exact Hst | now destruct (completes sinf delta s)].
  - rewrite Hl2, tick_requests, Hdirty. cbn [completions]. lia.
Qed.

Lemma dirty_flushed_once_witness :
  Savefile.dirty
    (mSave (Game.screen
              (snd (Game.acquire Sample.lube2
                      (Game.start Sample.cfg Sample.funded))))) = true
  /\ Savefile.dirty
       (mSave (tick Sample.still (1 # 60)
                 (Game.screen
                    (snd (Game.acquire Sample.lube2
                            (Game.start Sample.cfg Sample.funded)))))) = false.
Proof.
  assert (Hd : Savefile.dirty
                 (mSave (Game.screen
                           (snd (Game.acquire Sample.lube2
                                   (Game.start Sample.cfg Sample.funded)))))
               = true) by (vm_compute; reflexivity).
  split; [exact Hd |].
  exact (proj1 (proj2
           (dirty_flushed_once Sample.still (1 # 60) [1 # 60; 1 # 60]
              (Game.screen
                 (snd (Game.acquire Sample.lube2
                         (Game.start Sample.cfg Sample.funded)))) Hd))).
Defined.

(** After a purchase the flag is set, and the frames that follow hand the
    record over once. *)
Lemma purchase_then_frames :
  let g := snd (Game.acquire Sample.lube2 (Game.start Sample.cfg Sample.funded)) in
  mStore (ticks Sample.still [1 # 60; 1 # 60; 1 # 60] (Game.screen g))
  = [("progress"%string, Savefile.mkV2 20 0 2 0 0);
     ("progress"%string, Savefile.mkV2 50 0 0 0 0)].
Proof. vm_compute. reflexivity. Qed.

End SimFacts.

(** ** The end of a run and the storage *)

Module EndFacts.

Import SimFacts.

Lemma lookup_under key j :
  Storage.lookup key (Storage.under key j) = Storage.lookup key j.
Proof.
  induction j as [| [k r] j IH]; [reflexivity |].
  unfold Storage.under in *. simpl.
  destruct (String.eqb k key) eqn:Hk; simpl; [now rewrite Hk | exact IH].
Qed.

Lemma under_app key j j' :
  Storage.under key (j ++ j') = Storage.under key j ++ Storage.under key j'.
Proof. apply filter_app. Qed.

(** Requests made under one key do not show under another. *)
Lemma under_other key key' added :
  Forall (fun e => fst e = key) added -> key <> key' ->
  Storage.under key' added = [].
Proof.
  intros Hall Hne. induction Hall as [| [k r] rest Hk _ IH]; [reflexivity |].
  unfold Storage.under in *. simpl in *. subst k.
  destruct (String.eqb_spec key key'); [contradiction | exact IH].
Qed.

Lemma nqLoad_under key j j' d :
  Storage.under key j = Storage.under key j' ->
  Storage.nqLoad key j d = Storage.nqLoad key j' d.
Proof.
  intros H. unfold Storage.nqLoad.
  now rewrite <- (lookup_under key j), <- (lookup_under key j'), H.
Qed.

(** Every request of a frame is made under the game-play key. *)
Lemma tick_added sinf delta s :
  exists added,
    ShitState.mStore (ShitState.tick sinf delta s) = added ++ ShitState.mStore s
    /\ Forall (fun e => fst e = "progress"%string) added.
Proof.
  destruct (tick_save sinf delta s) as [_ ->].
  rewrite app_assoc. eexists. split; [reflexivity |].
  destruct (ShitState.completes sinf delta s), (Savefile.dirty (ShitState.mSave s));
    repeat constructor.
Qed.

Lemma step_added sinf i g :
  exists added,
    ShitState.mStore (Game.screen (Game.step sinf i g))
    = added ++ ShitState.mStore (Game.screen g)
    /\ Forall (fun e => fst e = "progress"%string) added.
Proof.
  destruct i as [delta | evt | item]; simpl.
  - apply tick_added.
  - exists []. split; [| constructor].
    now destruct (on_frame evt (Game.screen g)) as (_ & _ & _ & _ & _ & ->).
  - exists []. split; [| constructor].
    now destruct (acquire_screen item g) as (sv & -> & _).
Qed.

Lemma run_added sinf inputs g :
  exists added,
    ShitState.mStore (Game.screen (Game.run sinf inputs g))
    = added ++ ShitState.mStore (Game.screen g)
    /\ Forall (fun e => fst e = "progress"%string) added.
Proof.
  revert g. induction inputs as [| i rest IH]; intros g.
  - exists []. split; [reflexivity | constructor].
  - destruct (IH (Game.step sinf i g)) as (a2 & H2 & F2).
    destruct (step_added sinf i g) as (a1 & H1 & F1).
    exists (a2 ++ a1). split; [| now apply Forall_app].
    change (Game.run sinf (i :: rest) g)
      with (Game.run sinf rest (Game.step sinf i g)).
    now rewrite H2, H1, app_assoc.
Qed.

(** C8.  As stated the claim fails at the largest prestige, which the
    increment wraps.  What holds: the end screen takes the prestige it
    loaded up by one in 16-bit arithmetic (by exactly one unless it was
    32767), sets every other field of the record to its default, clears
    the dirty flag and hands the record to the storage at once; a second
    end screen entered on that storage starts from the prestige the first
    one wrote and takes it up by one again. *)
Theorem enter_bumps_prestige disk :
  let p := Savefile.prestige
             (Storage.nqLoad "save.json" disk (Savefile.v2 Savefile.default)) in
  let e := EndState.enter disk in
  let e2 := EndState.enter (EndState.mStore e) in
  EndState.mSave e
  = Savefile.mk (Savefile.set_prestige (wrap16 (p + 1)) Savefile.default_v2) false
  /\ EndState.mStore e = ("save.json"%string, Savefile.v2 (EndState.mSave e)) :: disk
  /\ (s16_range p -> p <> 32767 ->
      Savefile.prestige (Savefile.v2 (EndState.mSave e)) = p + 1)
  /\ EndState.mSave e2
     = Savefile.mk
         (Savefile.set_prestige (wrap16 (wrap16 (p + 1) + 1)) Savefile.default_v2)
         false
  /\ EndState.mStore e2
     = ("save.json"%string, Savefile.v2 (EndState.mSave e2)) :: EndState.mStore e
  /\ (s16_range p -> p < 32766 ->
      Savefile.prestige (Savefile.v2 (EndState.mSave e2)) = p + 2).
Proof.
  cbv zeta.
  assert (H1 : forall d,
             EndState.mSave (EndState.enter d)
             = Savefile.mk
                 (Savefile.set_prestige
                    (wrap16 (Savefile.prestige
                               (Storage.nqLoad "save.json" d
                                  (Savefile.v2 Savefile.default)) + 1))
                    Savefile.default_v2) false) by reflexivity.
  assert (H2 : forall d,
             EndState.mStore (EndState.enter d)
             = ("save.json"%string, Savefile.v2 (EndState.mSave (EndState.enter d)))
               :: d) by reflexivity.
  assert (H3 : Savefile.prestige
                 (Storage.nqLoad "save.json" (EndState.mStore (EndState.enter disk))
                    (Savefile.v2 Savefile.default))
               = wrap16 (Savefile.prestige
                           (Storage.nqLoad "save.json" disk
                              (Savefile.v2 Savefile.default)) + 1)).
  { rewrite H2, H1. reflexivity. }
  split; [apply H1 |]. split; [apply H2 |]. split.
  { intros Hr Hm. rewrite H1. cbn [Savefile.v2 Savefile.set_prestige Savefile.prestige].
    apply wrap16_range. unfold s16_range in *. lia. }
  split; [rewrite H1, H3; reflexivity |]. split; [apply H2 |].
  intros Hr Hm. rewrite H1, H3.
  cbn [Savefile.v2 Savefile.set_prestige Savefile.prestige].
  remember (Savefile.prestige
              (Storage.nqLoad "save.json" disk (Savefile.v2 Savefile.default)))
    as p.
  rewrite (wrap16_range (p + 1)) by (unfold s16_range in *; lia).
  rewrite wrap16_range by (unfold s16_range in *; lia). lia.
Qed.

Lemma enter_bumps_prestige_witness :
  Savefile.prestige (Savefile.v2 (EndState.mSave (EndState.enter []))) = 1
  /\ Savefile.prestige
       (Savefile.v2 (EndState.mSave
                       (EndState.enter (EndState.mStore (EndState.enter [])))))
     = 2.
Proof.
  pose proof (enter_bumps_prestige []) as H. cbv zeta in H.
  destruct H as (_ & _ & H1 & _ & _ & H2).
  split.
  - apply H1; [unfold s16_range; simpl; lia | simpl; lia].
  - apply H2; [unfold s16_range; simpl; lia | simpl; lia].
Defined.

(** C8, as stated, on a storage whose end-of-run record holds a prestige of
    32767: the end screen leaves it at -32768. *)
Lemma enter_wraps_prestige :
  Savefile.prestige
    (Storage.nqLoad "save.json" Sample.veteran (Savefile.v2 Savefile.default))
  = 32767
  /\ Savefile.prestige (Savefile.v2 (EndState.mSave (EndState.enter Sample.veteran)))
     = -32768
  /\ Savefile.prestige (Savefile.v2 (EndState.mSave (EndState.enter Sample.veteran)))
     <> 32767 + 1.
Proof. repeat split; try reflexivity. vm_compute. discriminate. Qed.

(** C10.  The game-play screen loads and saves under "progress", the end
    screen under "save.json".  No run of frames, events and purchases adds
    a request under the end screen's key, so the end screen loads the same
    record after the run as before it; the end screen adds no request
    under the game-play key, so the game-play screen loads the same record
    after the end screen as before it: the prestige the end screen wrote
    is not the one the game reads. *)
Theorem gameplay_and_end_records_apart :
  (forall cfg disk,
      ShitState.mSave (ShitState.preload cfg disk)
      = Savefile.mk
          (Storage.nqLoad "progress" disk (Savefile.v2 Savefile.default)) false)
  /\ (forall s,
         ShitState.mStore (ShitState.save s)
         = ("progress"%string, Savefile.v2 (ShitState.mSave s))
           :: ShitState.mStore s)
  /\ (forall disk,
         EndState.mSave (EndState.preload disk)
         = Savefile.mk
             (Storage.nqLoad "save.json" disk (Savefile.v2 Savefile.default))
             false)
  /\ (forall e,
         EndState.mStore (EndState.init e)
         = ("save.json"%string, Savefile.v2 (EndState.mSave (EndState.init e)))
           :: EndState.mStore e)
  /\ (forall sinf inputs g,
         Storage.under "save.json"
           (ShitState.mStore (Game.screen (Game.run sinf inputs g)))
         = Storage.under "save.json" (ShitState.mStore (Game.screen g)))
  /\ (forall sinf inputs g,
         EndState.mSave
           (EndState.preload
              (ShitState.mStore (Game.screen (Game.run sinf inputs g))))
         = EndState.mSave (EndState.preload (ShitState.mStore (Game.screen g))))
  /\ (forall disk,
         Storage.under "progress" (EndState.mStore (EndState.enter disk))
         = Storage.under "progress" disk)
  /\ (forall cfg disk,
         ShitState.mSave
           (ShitState.preload cfg (EndState.mStore (EndState.enter disk)))
         = ShitState.mSave (ShitState.preload cfg disk)).
Proof.
  assert (Hrun : forall sinf inputs g,
             Storage.under "save.json"
               (ShitState.mStore (Game.screen (Game.run sinf inputs g)))
             = Storage.under "save.json" (ShitState.mStore (Game.screen g))).
  { intros sinf inputs g.
    destruct (run_added sinf inputs g) as (added & -> & Hall).
    rewrite under_app, (under_other "progress" "save.json" added Hall);
      [reflexivity | discriminate]. }
  repeat split; try reflexivity.
  - exact Hrun.
  - intros sinf inputs g. unfold EndState.preload. cbn [EndState.mSave].
    now rewrite (nqLoad_under "save.json" _ _ _ (Hrun sinf inputs g)).
Qed.

End EndFacts.

(** ** The configuration loader *)

Module ConfigFacts.

Import ConfigLoad.
Local Open Scope string_scope.

Ltac report := solve [do 2 eexists; reflexivity].

(** Look at the member the loader asks for next; a member that is missing
    or of the wrong type ends the case with [tac]. *)
Ltac member o key tac :=
  let E := fresh "E" in
  destruct (Json.get o key) as [[| ? | ? | ? | ? | ?] |] eqn:E;
  cbn -[append nl show_index]; try tac.

Ltac sections :=
  unfold good_section, number_at, section, number, has_number, bind.

Lemma loadLube_spec {narrowing : Narrowing} root out :
  if good_section root "lube" ["base"; "upgrade"; "maxTier"]
  then loadLube root out
       = (on_lube (fun _ =>
            Config.mkLube (number_at root "lube" "base")
              (number_at root "lube" "upgrade")
              (s16_of_number (number_at root "lube" "maxTier"))) out, Ok tt)
  else exists out' message, loadLube root out = (out', Fail message).
Proof.
  unfold loadLube. sections.
  member root "lube" report.
  member members "base" report.
  member members "upgrade" report.
  member members "maxTier" report.
Qed.

Lemma loadGravity_spec {narrowing : Narrowing} root out :
  if good_section root "gravity" ["base"; "upgrade"; "threshold"; "maxTier"]
  then loadGravity root out
       = (on_gravity (fun _ =>
            Config.mkGravity (number_at root "gravity" "base")
              (number_at root "gravity" "upgrade")
              (number_at root "gravity" "threshold")
              (s16_of_number (number_at root "gravity" "maxTier"))) out, Ok tt)
  else exists out' message, loadGravity root out = (out', Fail message).
Proof.
  unfold loadGravity. sections.
  member root "gravity" report.
  member members "base" report.
  member members "upgrade" report.
  member members "threshold" report.
  member members "maxTier" report.
Qed.

Lemma loadOxy_spec root out :
  if good_section root "oxy" ["regen"; "drain"; "min"]
  then loadOxy root out
       = (on_oxy (fun _ =>
            Config.mkOxy (number_at root "oxy" "regen")
              (number_at root "oxy" "drain") (number_at root "oxy" "min")) out,
          Ok tt)
  else exists out' message, loadOxy root out = (out', Fail message).
Proof.
  unfold loadOxy. sections.
  member root "oxy" report.
  member members "regen" report.
  member members "drain" report.
  member members "min" report.
Qed.

Lemma loadToilet_spec root out :
  if good_section root "toilet" ["xPos"; "yPos"; "size"]
  then loadToilet root out
       = (on_toilet (fun _ =>
            mkToilet (number_at root "toilet" "xPos")
              (number_at root "toilet" "yPos")
              (number_at root "toilet" "size")) out, Ok tt)
  else exists out' message, loadToilet root out = (out', Fail message).
Proof.
  unfold loadToilet. sections.
  member root "toilet" report.
  member members "xPos" report.
  member members "yPos" report.
  member members "size" report.
Qed.

Lemma loadBrick_spec root out :
  if good_section root "brick" ["xPos"; "startY"; "endY"; "fallSpeed"; "size"]
  then loadBrick root out
       = (on_brick (fun _ =>
            Config.mkBrick (number_at root "brick" "xPos")
              (number_at root "brick" "startY") (number_at root "brick" "endY")
              (number_at root "brick" "fallSpeed")
              (number_at root "brick" "size")) out, Ok tt)
  else exists out' message, loadBrick root out = (out', Fail message).
Proof.
  unfold loadBrick. sections.
  member root "brick" report.
  member members "xPos" report.
  member members "startY" report.
  member members "endY" report.
  member members "fallSpeed" report.
  member members "size" report.
Qed.

(** *** The store array *)

Lemma update_update i f g items :
  update i f (update i g items) = update i (fun it => f (g it)) items.
Proof.
  revert i. induction items as [| x rest IH]; intros [| i]; simpl;
    try reflexivity. now rewrite IH.
Qed.

Lemma update_ext i f g items :
  (forall it, f it = g it) -> update i f items = update i g items.
Proof.
  intros Hfg. revert i. induction items as [| x rest IH]; intros [| i]; simpl;
    try reflexivity; [now rewrite Hfg | now rewrite IH].
Qed.

Lemma update_middle f done x rest :
  update (List.length done) f (done ++ x :: rest)%list
  = (done ++ f x :: rest)%list.
Proof. induction done as [| y done IH]; simpl; [reflexivity | now rewrite IH]. Qed.

Lemma update_length i f items :
  List.length (update i f items) = List.length items.
Proof.
  revert i. induction items as [| x rest IH]; intros [| i]; simpl;
    try reflexivity. now rewrite IH.
Qed.

Lemma on_store_twice f g out :
  on_store f (on_store g out) = on_store (fun items => f (g items)) out.
Proof. reflexivity. Qed.

Lemma on_store_ext f g out :
  f (Config.store (config out)) = g (Config.store (config out)) ->
  on_store f out = on_store g out.
Proof. intros H. unfold on_store, on_config. now rewrite H. Qed.

(** One element: a good one is written over the item at its index, a bad
    one ends the loop with a report. *)
Lemma loadItem_spec {narrowing : Narrowing} i v out :
  if good_item v
  then loadItem i v out
       = (on_store (update i (fun it => item_of it v)) out, Ok tt)
  else exists out' message, loadItem i v out = (out', Fail message).
Proof.
  unfold loadItem, good_item, item_of, string_at, s16_at, item_string,
    item_number, tier_argument, has_string, has_number, bind, on_item, modify.
  destruct v as [| b | n | s | elements | o];
    cbn -[append nl show_index]; try report.
  member o "name" report.
  member o "desc" report.
  member o "price" report.
  member o "icon" report.
  rewrite !on_store_twice.
  destruct (Json.get o "lubeTier") as [[| ? | ? | ? | ? | ?] |] eqn:El;
    cbn -[append nl show_index]; try report;
    [rewrite !on_store_twice; f_equal; apply on_store_ext;
     rewrite !update_update; now apply update_ext |].
  destruct (Json.get o "gravityTier") as [[| ? | ? | ? | ? | ?] |] eqn:Eg;
    cbn -[append nl show_index]; try report;
    [rewrite !on_store_twice; f_equal; apply on_store_ext;
     rewrite !update_update; now apply update_ext |].
  destruct (Json.get o "endGame") as [e |] eqn:Ee;
    cbn -[append nl show_index]; try report.
  rewrite !on_store_twice; f_equal; apply on_store_ext.
  rewrite !update_update. apply update_ext. intros it. reflexivity.
Qed.

Lemma loadItems_good {narrowing : Narrowing} blank elements :
  forall done out,
    forallb good_item elements = true ->
    Config.store (config out)
    = (done ++ repeat blank (List.length elements))%list ->
    loadItems (List.length done) elements out
    = (on_store (fun _ => (done ++ map (item_of blank) elements)%list) out,
       Ok tt).
Proof.
  induction elements as [| v rest IH]; intros done out Hgood Hstore.
  - simpl in *. unfold ret. f_equal.
    rewrite app_nil_r in *. unfold on_store, on_config.
    rewrite <- Hstore. now destruct out as [[] ?].
  - simpl in Hgood. apply andb_true_iff in Hgood as [Hv Hrest].
    cbn [loadItems]. unfold bind.
    pose proof (loadItem_spec (List.length done) v out) as Hitem.
    rewrite Hv in Hitem. rewrite Hitem.
    assert (Hnext : Config.store
                      (config (on_store
                                 (update (List.length done)
                                    (fun it => item_of it v)) out))
                    = ((done ++ [item_of blank v])
                       ++ repeat blank (List.length rest))%list).
    { cbn [on_store on_config config Config.store]. rewrite Hstore.
      cbn [List.length repeat]. rewrite update_middle, <- app_assoc.
      reflexivity. }
    pose proof (IH (done ++ [item_of blank v])%list _ Hrest Hnext) as Hrun.
    rewrite length_app, Nat.add_1_r in Hrun. cbn [List.length] in Hrun.
    rewrite Hrun, on_store_twice. f_equal. apply on_store_ext.
    now rewrite <- app_assoc.
Qed.

Lemma loadItems_bad {narrowing : Narrowing} elements :
  forall i out,
    forallb good_item elements = false ->
    exists out' message, loadItems i elements out = (out', Fail message).
Proof.
  induction elements as [| v rest IH]; intros i out Hbad; [discriminate |].
  cbn [loadItems]. unfold bind.
  pose proof (loadItem_spec i v out) as Hitem.
  simpl in Hbad. destruct (good_item v).
  - rewrite Hitem. now apply IH.
  - destruct Hitem as (out' & message & ->). now exists out', message.
Qed.

Lemma loadStore_spec {narrowing : Narrowing} blank root out :
  if good_store root
  then loadStore blank root out
       = (on_store (fun _ =>
            match Json.get root "store" with
            | Some (Json.Array elements) => map (item_of blank) elements
            | _ => []
            end) out, Ok tt)
  else exists out' message, loadStore blank root out = (out', Fail message).
Proof.
  unfold loadStore, good_store.
  destruct (Json.get root "store") as [[| ? | ? | ? | elements | ?] |];
    try report.
  unfold bind, modify.
  destruct (forallb good_item elements) eqn:Hgood.
  - change (loadItems 0 elements) with (loadItems (@List.length StoreItem.t []) elements).
    rewrite (loadItems_good blank elements []
               (on_store (fun _ => repeat blank (List.length elements)) out)
               Hgood eq_refl).
    now rewrite on_store_twice.
  - now apply loadItems_bad.
Qed.

(** *** Frames *)

Lemma keeps_refl p out : keeps p out out.
Proof. unfold keeps. tauto. Qed.

Lemma keeps_on_store f out : keeps PStore out (on_store f out).
Proof. unfold keeps. cbn. tauto. Qed.

Lemma keeps_trans p a b c : keeps p a b -> keeps p b c -> keeps p a c.
Proof.
  unfold keeps. intros (A1 & A2 & A3 & A4 & A5 & A6 & A7)
    (B1 & B2 & B3 & B4 & B5 & B6 & B7).
  repeat split; try congruence;
    match goal with
    | H1 : _ \/ ?x = ?y, H2 : _ \/ ?y = ?z |- _ \/ ?x = ?z =>
        destruct H1 as [-> | H1]; [now left |];
        destruct H2 as [H2 | H2]; [now left | right; congruence]
    end.
Qed.

Lemma loadItem_keeps {narrowing : Narrowing}
    i v out : keeps PStore out (fst (loadItem i v out)).
Proof.
  unfold loadItem, item_string, item_number, tier_argument, bind, on_item,
    modify.
  destruct v as [| b | n | s | elements | o];
    cbn -[append nl show_index]; try apply keeps_refl.
  member o "name" ltac:(apply keeps_refl).
  member o "desc" ltac:(apply keeps_on_store).
  member o "price" ltac:(rewrite ?on_store_twice; apply keeps_on_store).
  member o "icon" ltac:(rewrite ?on_store_twice; apply keeps_on_store).
  destruct (Json.get o "lubeTier") as [[| ? | ? | ? | ? | ?] |];
    cbn -[append nl show_index];
    try (rewrite ?on_store_twice; apply keeps_on_store).
  destruct (Json.get o "gravityTier") as [[| ? | ? | ? | ? | ?] |];
    cbn -[append nl show_index];
    try (rewrite ?on_store_twice; apply keeps_on_store).
  destruct (Json.get o "endGame");
    cbn -[append nl show_index]; rewrite ?on_store_twice; apply keeps_on_store.
Qed.

Lemma loadItems_keeps {narrowing : Narrowing} elements :
  forall i out, keeps PStore out (fst (loadItems i elements out)).
Proof.
  induction elements as [| v rest IH]; intros i out; [apply keeps_refl |].
  cbn [loadItems]. unfold bind.
  pose proof (loadItem_keeps i v out) as Hv.
  destruct (loadItem i v out) as [out' [[] | message]]; [| exact Hv].
  eapply keeps_trans; [exact Hv | apply IH].
Qed.

Ltac framed :=
  solve [apply keeps_refl
        | unfold keeps; cbn; repeat split; auto].

Lemma loader_frame {narrowing : Narrowing} blank p root out :
  keeps p out (fst (loader blank p root out)).
Proof.
  destruct p; cbn [loader].
  - unfold loadLube, section, number, bind.
    member root "lube" framed.
    member members "base" framed.
    member members "upgrade" framed.
    member members "maxTier" framed.
  - unfold loadGravity, section, number, bind.
    member root "gravity" framed.
    member members "base" framed.
    member members "upgrade" framed.
    member members "threshold" framed.
    member members "maxTier" framed.
  - unfold loadOxy, section, number, bind.
    member root "oxy" framed.
    member members "regen" framed.
    member members "drain" framed.
    member members "min" framed.
  - unfold loadStore.
    destruct (Json.get root "store") as [[| ? | ? | ? | elements | ?] |];
      try apply keeps_refl.
    unfold bind, modify.
    eapply keeps_trans; [apply keeps_on_store | apply loadItems_keeps].
  - unfold loadToilet, section, number, bind.
    member root "toilet" framed.
    member members "xPos" framed.
    member members "yPos" framed.
    member members "size" framed.
  - unfold loadBrick, section, number, bind.
    member root "brick" framed.
    member members "xPos" framed.
    member members "startY" framed.
    member members "endY" framed.
    member members "fallSpeed" framed.
    member members "size" framed.
Qed.

Lemma bind_ok {A B} (c : M A) (k : A -> M B) out out' a :
  c out = (out', Ok a) -> bind c k out = k a out'.
Proof. intros H. unfold bind. now rewrite H. Qed.

Lemma bind_fail {A B} (c : M A) (k : A -> M B) out out' message :
  c out = (out', Fail message) -> bind c k out = (out', Fail message).
Proof. intros H. unfold bind. now rewrite H. Qed.

(** One more loader of the sequence: it went through, or the load ends
    with its report. *)
Ltac next_loader H :=
  match type of H with
  | if ?good then _ else _ =>
      destruct good;
      [rewrite (bind_ok _ _ _ _ _ H); cbv beta
      | let o := fresh "o" in
        let m := fresh "m" in
        destruct H as (o & m & H);
        try rewrite (bind_fail _ _ _ _ _ H);
        cbn [andb]; exists o, m; try reflexivity; try exact H]
  end.

(** The whole file, once it has been read and parsed into an object. *)
Lemma load_object {narrowing : Narrowing} blank size root out :
  0 < size ->
  if good_root root
  then load blank size (Parsed (Json.Object root)) out
       = (loaded blank root out, Ok tt)
  else exists out' message,
      load blank size (Parsed (Json.Object root)) out = (out', Fail message).
Proof.
  intros Hsize. unfold load, good_root.
  destruct (Z.leb_spec size 0); [lia |].
  pose proof (loadLube_spec root out) as H1. next_loader H1.
  match goal with |- context [bind (loadGravity root) _ ?o] =>
    pose proof (loadGravity_spec root o) as H2 end.
  next_loader H2.
  match goal with |- context [bind (loadOxy root) _ ?o] =>
    pose proof (loadOxy_spec root o) as H3 end.
  next_loader H3.
  match goal with |- context [bind (loadStore blank root) _ ?o] =>
    pose proof (loadStore_spec blank root o) as H4 end.
  destruct (good_store root) eqn:Hstore;
    [rewrite (bind_ok _ _ _ _ _ H4); cbv beta
    | destruct H4 as (o4 & m4 & H4); rewrite (bind_fail _ _ _ _ _ H4);
      cbn [andb]; exists o4, m4; reflexivity].
  match goal with |- context [bind (loadToilet root) _ ?o] =>
    pose proof (loadToilet_spec root o) as H5 end.
  next_loader H5.
  match goal with |- context [loadBrick root ?o] =>
    pose proof (loadBrick_spec root o) as H6 end.
  destruct (good_section root "brick" _);
    [| destruct H6 as (o6 & m6 & H6); cbn [andb]; exists o6, m6; exact H6].
  cbn [andb]. rewrite H6. f_equal. unfold loaded, good_store in *.
  destruct (Json.get root "store") as [[| ? | ? | ? | elements | ?] |];
    try discriminate.
  reflexivity.
Qed.

(** X2. [Config::load] returns [true] exactly on a file that is not empty,
    can be read, parses to an object, and whose sections are well-formed:
    numbers under the required keys of [lube], [gravity], [oxy], [toilet]
    and [brick], and a [store] array of objects with a string name and
    description, a numeric price and icon, and a first discriminant that
    is well-typed. *)
Theorem load_accepts_well_formed {narrowing : Narrowing} blank size file out :
  snd (load blank size file out) = Ok tt
  <-> 0 < size
      /\ exists root, file = Parsed (Json.Object root) /\ good_root root = true.
Proof.
  split.
  - unfold load at 1. destruct (Z.leb_spec size 0) as [Hle | Hlt];
      [discriminate |].
    destruct file as [e | m | [| ? | ? | ? | ? | root]]; try discriminate.
    intros Hok. split; [exact Hlt |]. exists root. split; [reflexivity |].
    pose proof (load_object blank size root out Hlt) as Hspec.
    unfold load in Hspec. destruct (Z.leb_spec size 0); [lia |].
    destruct (good_root root); [reflexivity |].
    destruct Hspec as (out' & message & Heq). rewrite Heq in Hok. discriminate.
  - intros (Hsize & root & -> & Hgood).
    pose proof (load_object blank size root out Hsize) as Hspec.
    rewrite Hgood in Hspec. now rewrite Hspec.
Qed.

(** X3. When [Config::load] returns [true] the object holds the file: each
    field is the number under its key, the store is the array read element
    by element in order, and the water is as it was.  A field of 16 bits
    (the tier bounds, the prices, icons and tier arguments) holds the
    integer part of its number whenever that fits 16 bits; when it does
    not, the conversion is undefined in C++ and the field holds whatever
    the build's conversion gives, which the statement is general in. *)
Theorem load_reads_the_file {narrowing : Narrowing} blank size root out :
  0 < size ->
  good_root root = true ->
  load blank size (Parsed (Json.Object root)) out = (loaded blank root out, Ok tt)
  /\ forall n, s16_range (truncate n) -> s16_of_number n = truncate n.
Proof.
  intros Hsize Hgood. split.
  - pose proof (load_object blank size root out Hsize) as H.
    now rewrite Hgood in H.
  - intros n [Hlo Hhi]. unfold s16_of_number. cbv zeta.
    destruct (Z.leb_spec (-32768) (truncate n)); [| lia].
    destruct (Z.ltb_spec (truncate n) 32768); [reflexivity | lia].
Qed.

(** X1. A loader writes to its own section only, whether it returns [true]
    or reports: every other section, and the water, which no loader reads,
    are as they were. *)
Theorem loader_keeps_other_sections {narrowing : Narrowing} blank p root out :
  keeps p out (fst (loader blank p root out)).
Proof. apply loader_frame. Qed.

Lemma item_of_kind {narrowing : Narrowing} blank v :
  good_item v = true ->
  StoreItem.kind (item_of blank v) = StoreItem.Lube
  \/ StoreItem.kind (item_of blank v) = StoreItem.Gravity
  \/ StoreItem.kind (item_of blank v) = StoreItem.EndGame.
Proof.
  destruct v as [| | | | | o]; try discriminate. intros _.
  unfold item_of.
  destruct (Json.get o "lubeTier"); [now left |].
  destruct (Json.get o "gravityTier"); [right; now left | right; now right].
Qed.

Lemma item_of_prestige {narrowing : Narrowing} blank v :
  StoreItem.prestige (item_of blank v) = StoreItem.prestige blank.
Proof. now destruct v. Qed.

Lemma loaded_store {narrowing : Narrowing} blank root out :
  good_root root = true ->
  exists elements,
    Json.get root "store" = Some (Json.Array elements)
    /\ forallb good_item elements = true
    /\ Config.store (config (loaded blank root out))
       = map (item_of blank) elements.
Proof.
  unfold good_root, good_store, loaded. intros H.
  repeat (apply andb_true_iff in H as [H ?]).
  destruct (Json.get root "store") as [[| ? | ? | ? | elements | ?] |];
    try discriminate.
  exists elements. cbn. auto.
Qed.

(** X4. Every item of a store that [Config::load] accepted has one of the
    kinds [Lube], [Gravity] and [EndGame] (the loader has no way to give
    [Oxy] or to leave [None]), so [acquire] never runs into its unreachable
    case on a loaded item: the call is a rejection or a purchase. *)
Theorem loaded_items_have_a_kind {narrowing : Narrowing}
    blank size root out item :
  0 < size ->
  good_root root = true ->
  In item
     (Config.store
        (config (fst (load blank size (Parsed (Json.Object root)) out)))) ->
  (StoreItem.kind item = StoreItem.Lube
   \/ StoreItem.kind item = StoreItem.Gravity
   \/ StoreItem.kind item = StoreItem.EndGame)
  /\ forall s save,
      Spec.outcome (fst (fst (StoreSubState.acquire s save item))) <> None.
Proof.
  intros Hsize Hgood Hin.
  pose proof (load_object blank size root out Hsize) as Hload.
  rewrite Hgood in Hload. rewrite Hload in Hin. cbn [fst] in Hin.
  destruct (loaded_store blank root out Hgood) as (elements & _ & Hall & Hst).
  rewrite Hst in Hin. apply in_map_iff in Hin as (v & <- & Hv).
  rewrite forallb_forall in Hall.
  pose proof (item_of_kind blank v (Hall v Hv)) as Hkind.
  split; [exact Hkind |]. intros s save.
  unfold StoreSubState.acquire.
  destruct (StoreSubState.hasItem save _); [discriminate |].
  destruct (_ <? _)%Z; [discriminate |].
  destruct Hkind as [-> | [-> | ->]]; discriminate.
Qed.

(** When every item meets its prestige floor, the items on offer are the
    items of the list. *)
Lemma nthOffered_all save items :
  Forall (fun it => StoreItem.prestige it
                    <= Savefile.prestige (Savefile.v2 save)) items ->
  forall i hover,
    i <= hover ->
    StoreSubState.nthOffered save items i hover
    = nth_error items (Z.to_nat (hover - i)).
Proof.
  induction 1 as [| x rest Hx _ IH]; intros i hover Hle; simpl.
  - now destruct (Z.to_nat (hover - i)).
  - destruct (Z.gtb_spec (StoreItem.prestige x)
                         (Savefile.prestige (Savefile.v2 save))); [lia |].
    destruct (Z.eqb_spec i hover) as [-> | Hne].
    + now rewrite Z.sub_diag.
    + rewrite IH by lia.
      replace (Z.to_nat (hover - i)) with (S (Z.to_nat (hover - (i + 1))))
        by lia.
      reflexivity.
Qed.

(** X5. The loader never assigns an item's prestige floor: every item of a
    store that [Config::load] accepted carries the floor of a
    default-constructed item.  When the prestige held is at least that
    floor, no item is held back from the offer ([getHoveredItem] is plain
    indexing into the store), and [acquire] rejects every loaded tier item
    whose argument is not above the tier held. *)
Theorem loaded_items_share_the_default_floor {narrowing : Narrowing}
    blank size root out :
  0 < size ->
  good_root root = true ->
  let cfg := config (fst (load blank size (Parsed (Json.Object root)) out)) in
  Forall (fun it => StoreItem.prestige it = StoreItem.prestige blank)
         (Config.store cfg)
  /\ forall save,
      StoreItem.prestige blank <= Savefile.prestige (Savefile.v2 save) ->
      (forall s,
          0 <= StoreSubState.mItemHover s ->
          StoreSubState.getHoveredItem s save cfg
          = nth_error (Config.store cfg) (Z.to_nat (StoreSubState.mItemHover s)))
      /\ (forall s item tier,
             In item (Config.store cfg) ->
             Spec.tierOf (StoreItem.kind item) (Savefile.v2 save) = Some tier ->
             StoreItem.argument item <= tier ->
             StoreSubState.acquire s save item
             = (StoreSubState.AlreadyOwned,
                StoreSubState.reject StoreSubState.cAlreadyOwnedFloat s, save)).
Proof.
  intros Hsize Hgood. cbv zeta.
  pose proof (load_object blank size root out Hsize) as Hload.
  rewrite Hgood in Hload. rewrite Hload. cbn [fst].
  destruct (loaded_store blank root out Hgood) as (elements & _ & _ & Hst).
  assert (Hfloor : Forall (fun it => StoreItem.prestige it
                                     = StoreItem.prestige blank)
                     (Config.store (config (loaded blank root out)))).
  { rewrite Hst. apply Forall_forall. intros it Hin.
    apply in_map_iff in Hin as (v & <- & _). apply item_of_prestige. }
  split; [exact Hfloor |]. intros save Hheld. split.
  - intros s Hhover. unfold StoreSubState.getHoveredItem.
    destruct (Z.ltb_spec (StoreSubState.mItemHover s) 0); [lia |].
    rewrite nthOffered_all; [now rewrite Z.sub_0_r | | lia].
    eapply Forall_impl; [| exact Hfloor]. cbv beta. intros it ->. exact Hheld.
  - intros s item tier Hin Htier Harg.
    apply StoreFacts.acquire_owned. rewrite StoreFacts.hasItem_owned.
    unfold Spec.owned. rewrite Htier.
    rewrite Forall_forall in Hfloor. rewrite (Hfloor item Hin).
    apply andb_true_iff. split; apply Z.leb_le; lia.
Qed.

(** X6. A load that fails is not undone: when the [lube] section is good
    and the [gravity] section is not, [Config::load] reports and returns
    [false], and the object it was given now has the lube numbers of the
    file; the sections after [gravity] are as they were. *)
Theorem failed_load_keeps_what_was_read {narrowing : Narrowing}
    blank size root out :
  0 < size ->
  good_section root "lube" ["base"; "upgrade"; "maxTier"] = true ->
  good_section root "gravity" ["base"; "upgrade"; "threshold"; "maxTier"]
  = false ->
  exists out' message,
    load blank size (Parsed (Json.Object root)) out = (out', Fail message)
    /\ Config.lube (config out')
       = Config.mkLube (number_at root "lube" "base")
           (number_at root "lube" "upgrade")
           (s16_of_number (number_at root "lube" "maxTier"))
    /\ Config.oxy (config out') = Config.oxy (config out)
    /\ Config.store (config out') = Config.store (config out)
    /\ Config.brick (config out') = Config.brick (config out)
    /\ toilet out' = toilet out.
Proof.
  intros Hsize Hlube Hgravity. unfold load.
  destruct (Z.leb_spec size 0); [lia |].
  pose proof (loadLube_spec root out) as H1. rewrite Hlube in H1.
  rewrite (bind_ok _ _ _ _ _ H1). cbv beta.
  set (out1 := on_lube _ out) in *.
  pose proof (loadGravity_spec root out1) as H2. rewrite Hgravity in H2.
  destruct H2 as (out' & message & H2).
  rewrite (bind_fail _ _ _ _ _ H2). exists out', message.
  split; [reflexivity |].
  pose proof (loader_frame blank PGravity root out1) as Hframe.
  cbn [loader] in Hframe. rewrite H2 in Hframe. cbn [fst] in Hframe.
  destruct Hframe as ([Habs | Hl] & _ & [Habs3 | Ho] & [Habs4 | Hs]
                      & [Habs5 | Ht] & [Habs6 | Hb] & _);
    try discriminate.
  rewrite <- Hl, <- Ho, <- Hs, <- Hb, <- Ht. repeat split.
Qed.

(** *** The statements above at the sample file, for a build that stores 0
    for what does not fit 16 bits *)

#[local] Existing Instance zeroing.

Lemma load_accepts_well_formed_witness :
  snd (load blank_item 1 (Parsed (Json.Object sample_root)) blank_out) = Ok tt
  /\ snd (load blank_item 0 (Parsed (Json.Object sample_root)) blank_out)
     <> Ok tt
  /\ snd (load blank_item 1 (Parsed (Json.Object sample_no_gravity)) blank_out)
     = Fail (invalid "No `gravity` key.").
Proof.
  split; [| split].
  - apply (load_accepts_well_formed blank_item 1
             (Parsed (Json.Object sample_root)) blank_out).
    split; [lia |]. exists sample_root. split; reflexivity.
  - intros H.
    apply (load_accepts_well_formed blank_item 0
             (Parsed (Json.Object sample_root)) blank_out) in H.
    destruct H as [H _]. lia.
  - reflexivity.
Defined.

Lemma load_reads_the_file_witness :
  0 < 1
  /\ good_root sample_root = true
  /\ Config.store (config (fst (load blank_item 1
                                  (Parsed (Json.Object sample_root)) blank_out)))
     = [StoreItem.mk "Lube II" "Slipperier" 30 0 StoreItem.Lube 2 0;
        StoreItem.mk "The End" "Roll credits" 100 3 StoreItem.EndGame 0 0].
Proof.
  split; [lia |]. split; [reflexivity |].
  rewrite (proj1 (load_reads_the_file blank_item 1 sample_root blank_out
                    ltac:(lia) eq_refl)).
  reflexivity.
Defined.

Lemma loaded_items_have_a_kind_witness :
  StoreItem.kind (StoreItem.mk "The End" "Roll credits" 100 3
                    StoreItem.EndGame 0 0) = StoreItem.Lube
  \/ StoreItem.kind (StoreItem.mk "The End" "Roll credits" 100 3
                       StoreItem.EndGame 0 0) = StoreItem.Gravity
  \/ StoreItem.kind (StoreItem.mk "The End" "Roll credits" 100 3
                       StoreItem.EndGame 0 0) = StoreItem.EndGame.
Proof.
  apply (loaded_items_have_a_kind blank_item 1 sample_root blank_out
           (StoreItem.mk "The End" "Roll credits" 100 3 StoreItem.EndGame 0 0)).
  - lia.
  - reflexivity.
  - right. left. reflexivity.
Defined.

Lemma loaded_items_share_the_default_floor_witness :
  Forall (fun it => StoreItem.prestige it = StoreItem.prestige blank_item)
         (Config.store
            (config (fst (load blank_item 1 (Parsed (Json.Object sample_root))
                            blank_out)))).
Proof.
  apply (loaded_items_share_the_default_floor blank_item 1 sample_root blank_out).
  - lia.
  - reflexivity.
Defined.

Lemma failed_load_keeps_what_was_read_witness :
  exists out' message,
    load blank_item 1 (Parsed (Json.Object sample_no_gravity)) blank_out
    = (out', Fail message)
    /\ Config.lube (config out')
       = Config.mkLube (number_at sample_no_gravity "lube" "base")
           (number_at sample_no_gravity "lube" "upgrade")
           (s16_of_number (number_at sample_no_gravity "lube" "maxTier"))
    /\ Config.oxy (config out') = Config.oxy (config blank_out)
    /\ Config.store (config out') = Config.store (config blank_out)
    /\ Config.brick (config out') = Config.brick (config blank_out)
    /\ toilet out' = toilet blank_out.
Proof.
  apply (failed_load_keeps_what_was_read blank_item 1 sample_no_gravity
           blank_out).
  - lia.
  - reflexivity.
  - reflexivity.
Defined.

End ConfigFacts.

(** ** More on the game-play screen *)

Module PlayFacts.

Import ShitState SimFacts.
Local Open Scope Q_scope.

(** X7. While the screen fades in nothing is simulated: an event changes
    nothing at all, and a frame only moves the timer and the water and
    hands over a pending save. *)
Theorem fade_in_is_inert sinf delta evt s :
  mTimer s + delta < cFadeInTime ->
  0 <= delta ->
  on evt s = s
  /\ mEffort (tick sinf delta s) = mEffort s
  /\ mOxy (tick sinf delta s) = mOxy s
  /\ mOuttaBreath (tick sinf delta s) = mOuttaBreath s
  /\ mProgress (tick sinf delta s) = mProgress s
  /\ mCooldown (tick sinf delta s) = mCooldown s
  /\ mBrickFall (tick sinf delta s) = mBrickFall s
  /\ engine (tick sinf delta s) = engine s
  /\ Savefile.v2 (mSave (tick sinf delta s)) = Savefile.v2 (mSave s).
Proof.
  intros Hfade Hdelta. split.
  - unfold on. destruct (f32_lt_spec (mTimer s) cFadeInTime); [reflexivity | lra].
  - rewrite tick_unfold.
    destruct (f32_lt_spec (mTimer s + delta) cFadeInTime); [| lra].
    unfold tick_begin, tick_water. fields.
    destruct (Savefile.dirty (mSave s)); fields; repeat split.
Qed.

Lemma fade_in_is_inert_witness :
  on Sample.press (Sample.after [] []) = Sample.after [] [].
Proof.
  apply (fade_in_is_inert Sample.still (1 # 2) Sample.press (Sample.after [] [])).
  - vm_compute. reflexivity.
  - vm_compute. discriminate.
Defined.

(** *** Cues *)

Ltac cues := unfold Watch.requested; fields; cbn [filter List.length].

Lemma tick_effort_engine delta s : engine (tick_effort delta s) = engine s.
Proof. stage tick_effort. Qed.

Lemma tick_begin_engine sinf delta s :
  engine (tick_begin sinf delta s) = engine s
  /\ mOuttaBreath (tick_begin sinf delta s) = mOuttaBreath s
  /\ sSplash (tick_begin sinf delta s) = sSplash s
  /\ mProgressDecay (tick_begin sinf delta s) = mProgressDecay s
  /\ mScoreString (tick_begin sinf delta s)
     = (if Savefile.dirty (mSave s)
        then String.append "Score: "
               (show_s16 (Savefile.score (Savefile.v2 (mSave s))))
        else mScoreString s).
Proof.
  unfold tick_begin, tick_water. fields.
  destruct (Savefile.dirty (mSave s)); fields; repeat split.
Qed.

(** The oxygen stage on a screen that is out of breath and short of
    oxygen: the flag stays, and no cue is requested. *)
Lemma tick_oxy_latched delta s :
  mOuttaBreath s = true -> mOxy s < 1 ->
  mOuttaBreath (tick_oxy delta s) = true
  /\ engine (tick_oxy delta s) = engine s.
Proof.
  intros Hflag Hoxy. unfold tick_oxy.
  destruct (f32_lt_spec (mOxy s) 1); [| lra]. fields. rewrite Hflag.
  cbn [negb]. f32_cases; fields; auto.
Qed.

Lemma tick_progress_breath delta s :
  mOuttaBreath (tick_progress delta s) = mOuttaBreath s
  /\ Watch.requested PlayBreath (tick_progress delta s)
     = Watch.requested PlayBreath s
  /\ Watch.requested PlaySplash (tick_progress delta s)
     = Watch.requested PlaySplash s.
Proof.
  unfold tick_progress, complete. fields. f32_cases; cues; auto.
Qed.

Lemma tick_brick_breath delta s :
  mOuttaBreath (tick_brick delta s) = mOuttaBreath s
  /\ Watch.requested PlayBreath (tick_brick delta s)
     = Watch.requested PlayBreath s.
Proof. unfold tick_brick. fields. f32_cases; cues; auto. Qed.

(** X8. Out of breath is a latch: a screen that is out of breath with its
    oxygen below 1 is still out of breath after the frame, gets no second
    breath cue, and ignores clicks meanwhile. *)
Theorem out_of_breath_latches sinf delta evt s :
  mOuttaBreath s = true ->
  mOxy s < 1 ->
  mOuttaBreath (tick sinf delta s) = true
  /\ Watch.requested PlayBreath (tick sinf delta s)
     = Watch.requested PlayBreath s
  /\ mEffort (on evt s) = mEffort s.
Proof.
  intros Hflag Hoxy. split; [| split].
  - rewrite tick_unfold.
    destruct (tick_begin_engine sinf delta s) as (_ & Hb & _).
    destruct (f32_lt (mTimer s + delta) cFadeInTime); [now rewrite Hb |].
    through_stages sinf delta s.
    destruct (tick_brick_breath delta
                (tick_progress delta
                   (tick_oxy delta (tick_effort delta (tick_begin sinf delta s)))))
      as [-> _].
    destruct (tick_progress_breath delta
                (tick_oxy delta (tick_effort delta (tick_begin sinf delta s))))
      as [-> _].
    apply tick_oxy_latched; [now rewrite He_ob, Hb | now rewrite He_o, Hb_o].
  - rewrite tick_unfold.
    destruct (tick_begin_engine sinf delta s) as (Hbe & Hb & _).
    destruct (f32_lt (mTimer s + delta) cFadeInTime);
      [unfold Watch.requested; now rewrite Hbe |].
    through_stages sinf delta s.
    destruct (tick_brick_breath delta
                (tick_progress delta
                   (tick_oxy delta (tick_effort delta (tick_begin sinf delta s)))))
      as [_ ->].
    destruct (tick_progress_breath delta
                (tick_oxy delta (tick_effort delta (tick_begin sinf delta s))))
      as (_ & -> & _).
    unfold Watch.requested.
    destruct (tick_oxy_latched delta (tick_effort delta (tick_begin sinf delta s)))
      as [_ ->]; [now rewrite He_ob, Hb | now rewrite He_o, Hb_o |].
    now rewrite tick_effort_engine, Hbe.
  - rewrite on_effort. destruct evt; try reflexivity.
    unfold canPush. rewrite Hflag. cbn [negb andb].
    now rewrite andb_false_r.
Qed.

Lemma out_of_breath_latches_witness :
  mOuttaBreath
    (tick Sample.still 1
       (set_mOuttaBreath true (set_mOxy (1 # 2) (Sample.after Sample.warmup []))))
  = true.
Proof.
  apply (out_of_breath_latches Sample.still 1 Sample.press
           (set_mOuttaBreath true
              (set_mOxy (1 # 2) (Sample.after Sample.warmup [])))).
  - reflexivity.
  - vm_compute. reflexivity.
Defined.

(** The oxygen stage leaves some oxygen, or none and the screen out of
    breath. *)
Lemma tick_oxy_spent delta s :
  0 < mOxy (tick_oxy delta s)
  \/ mOxy (tick_oxy delta s) = 0 /\ mOuttaBreath (tick_oxy delta s) = true.
Proof.
  unfold tick_oxy. fields.
  f32_cases; fields; try (right; split; reflexivity); left; lra.
Qed.

Lemma tick_spent sinf delta s :
  0 < mOxy s \/ mOxy s = 0 /\ mOuttaBreath s = true ->
  0 < mOxy (tick sinf delta s)
  \/ mOxy (tick sinf delta s) = 0 /\ mOuttaBreath (tick sinf delta s) = true.
Proof.
  intros Hs. rewrite tick_unfold.
  destruct (f32_lt (mTimer s + delta) cFadeInTime).
  - destruct (tick_begin_sim sinf delta s) as (_ & -> & _).
    destruct (tick_begin_engine sinf delta s) as (_ & -> & _). exact Hs.
  - through_stages sinf delta s. rewrite Hk_o, Hp_o.
    destruct (tick_brick_breath delta
                (tick_progress delta
                   (tick_oxy delta (tick_effort delta (tick_begin sinf delta s)))))
      as [-> _].
    destruct (tick_progress_breath delta
                (tick_oxy delta (tick_effort delta (tick_begin sinf delta s))))
      as [-> _].
    apply tick_oxy_spent.
Qed.

Lemma on_breath evt s : mOuttaBreath (on evt s) = mOuttaBreath s.
Proof. unfold on. destruct evt; fields; f32_cases; fields; reflexivity. Qed.

Lemma step_spent sinf i g :
  0 < mOxy (Game.screen g)
  \/ mOxy (Game.screen g) = 0 /\ mOuttaBreath (Game.screen g) = true ->
  0 < mOxy (Game.screen (Game.step sinf i g))
  \/ mOxy (Game.screen (Game.step sinf i g)) = 0
     /\ mOuttaBreath (Game.screen (Game.step sinf i g)) = true.
Proof.
  intros Hg. destruct i as [delta | evt | item]; cbn [Game.step].
  - cbn [Game.screen Game.tick]. now apply tick_spent.
  - cbn [Game.screen].
    destruct (on_frame evt (Game.screen g)) as (-> & _).
    rewrite on_breath. exact Hg.
  - destruct (acquire_screen item g) as (sv & -> & _). fields. exact Hg.
Qed.

(** X9. Out of oxygen means out of breath: in any run of frames, events and
    purchases of a started game the oxygen is above zero, or it is exactly
    zero and the screen is out of breath; so with the oxygen used up no
    click adds effort, whatever the configured minimum. *)
Theorem out_of_oxygen_is_out_of_breath sinf cfg disk inputs evt :
  let s := Game.screen (Game.run sinf inputs (Game.start cfg disk)) in
  (0 < mOxy s \/ mOxy s = 0 /\ mOuttaBreath s = true)
  /\ (mOxy s <= 0 -> mEffort (on evt s) = mEffort s).
Proof.
  cbv zeta.
  assert (Hspent : 0 < mOxy (Game.screen
                               (Game.run sinf inputs (Game.start cfg disk)))
                   \/ mOxy (Game.screen
                              (Game.run sinf inputs (Game.start cfg disk))) = 0
                      /\ mOuttaBreath
                           (Game.screen
                              (Game.run sinf inputs (Game.start cfg disk)))
                         = true).
  { assert (Hstart : 0 < mOxy (Game.screen (Game.start cfg disk))
                     \/ mOxy (Game.screen (Game.start cfg disk)) = 0
                        /\ mOuttaBreath (Game.screen (Game.start cfg disk))
                           = true) by (left; reflexivity).
    revert Hstart. generalize (Game.start cfg disk).
    induction inputs as [| i rest IH]; intros g Hg; [exact Hg |].
    change (Game.run sinf (i :: rest) g)
      with (Game.run sinf rest (Game.step sinf i g)).
    apply IH, step_spent, Hg. }
  split; [exact Hspent |].
  intros Hzero. destruct Hspent as [Hpos | [_ Hflag]]; [lra |].
  rewrite on_effort. destruct evt; try reflexivity.
  unfold canPush. rewrite Hflag. cbn [negb andb].
  now rewrite andb_false_r.
Qed.

(** *** The fill cycle *)

(** The fill stage when the fill is complete and the cooldown runs. *)
Lemma tick_progress_cooling delta s :
  1 <= mProgress s -> 0 < mCooldown s ->
  tick_progress delta s = set_mCooldown (mCooldown s - delta) s.
Proof.
  intros Hp Hc. unfold tick_progress.
  destruct (f32_lt_spec (mProgress s) 1); [lra |].
  destruct (f32_lt_spec 0 (mCooldown s)); [reflexivity | lra].
Qed.

(** The fill stage when the fill is complete and the cooldown is over. *)
Lemma tick_progress_reset delta s :
  1 <= mProgress s -> mCooldown s <= 0 ->
  tick_progress delta s
  = set_sSplash true
      (recalculateGravity
         (recalculateProgressDecay
            (set_mBrickFall (-1) (set_mCooldown 0 (set_mProgress 0 s))))).
Proof.
  intros Hp Hc. unfold tick_progress.
  destruct (f32_lt_spec (mProgress s) 1); [lra |].
  destruct (f32_lt_spec 0 (mCooldown s)); [lra | reflexivity].
Qed.

(** The fill stage while the fill is under way leaves the rates alone. *)
Lemma tick_progress_rates delta s :
  mProgress s < 1 ->
  mGravity (tick_progress delta s) = mGravity s
  /\ mProgressDecay (tick_progress delta s) = mProgressDecay s.
Proof.
  intros Hp. unfold tick_progress, complete.
  destruct (f32_lt_spec (mProgress s) 1); [| lra]. fields.
  f32_cases; fields; auto.
Qed.

Lemma tick_brick_idle delta s :
  mBrickFall s < 0 -> tick_brick delta s = s.
Proof.
  intros Hb. unfold tick_brick.
  destruct (f32_le_spec 0 (mBrickFall s)); [lra | reflexivity].
Qed.

Lemma tick_brick_decay delta s :
  mProgressDecay (tick_brick delta s) = mProgressDecay s.
Proof. unfold tick_brick. fields. f32_cases; fields; auto. Qed.

Lemma tick_effort_decay delta s :
  mProgressDecay (tick_effort delta s) = mProgressDecay s.
Proof. stage tick_effort. Qed.

Lemma tick_oxy_decay delta s :
  mProgressDecay (tick_oxy delta s) = mProgressDecay s.
Proof. stage tick_oxy. Qed.

Lemma early_stages_rates sinf delta s :
  let s2 := tick_oxy delta (tick_effort delta (tick_begin sinf delta s)) in
  mProgressDecay s2 = mProgressDecay s
  /\ mGravity s2 = mGravity s
  /\ mProgress s2 = mProgress s
  /\ mCooldown s2 = mCooldown s
  /\ mConfig s2 = mConfig s
  /\ Savefile.v2 (mSave s2) = Savefile.v2 (mSave s)
  /\ mBrickFall s2 = mBrickFall s.
Proof.
  cbv zeta.
  destruct (tick_begin_sim sinf delta s)
    as (_ & _ & Hb_p & Hb_g & Hb_c & Hb_cd & Hb_bf & Hb_sv & _).
  destruct (tick_begin_engine sinf delta s) as (_ & _ & _ & Hb_d & _).
  destruct (tick_effort_frame delta (tick_begin sinf delta s))
    as (_ & _ & He_p & He_g & He_c & He_cd & He_bf & He_sv & _).
  destruct (tick_oxy_frame delta (tick_effort delta (tick_begin sinf delta s)))
    as (_ & Ho_p & Ho_g & Ho_c & Ho_cd & Ho_bf & Ho_sv & _).
  rewrite tick_oxy_decay, tick_effort_decay, Hb_d, Ho_g, He_g, Hb_g, Ho_p, He_p, Hb_p, Ho_cd, He_cd,
    Hb_cd, Ho_c, He_c, Hb_c, Ho_sv, He_sv, Hb_sv, Ho_bf, He_bf, Hb_bf.
  repeat split.
Qed.

(** X10. The rates derived from the tiers are recomputed in one place: the
    frame that starts a new fill (fade-in over, fill complete, cooldown run
    out) puts the fill and the cooldown back to 0 and the fall to -1 and
    recomputes the decay as [base - tier * upgrade] and the gravity as
    [base + tier * upgrade] from the tiers held then; every other frame
    leaves both rates as they were, whatever the tiers are by now. *)
Theorem rates_follow_the_tiers_at_reset sinf delta s :
  let s' := tick sinf delta s in
  let cfg := mConfig s in
  let tiers := Savefile.v2 (mSave s) in
  if Watch.resets delta s
  then mProgress s' = 0
       /\ mCooldown s' = 0
       /\ mBrickFall s' = -1
       /\ mProgressDecay s'
          = Config.lube_base (Config.lube cfg)
            - inject_Z (Savefile.lubeTier tiers)
              * Config.lube_upgrade (Config.lube cfg)
       /\ mGravity s'
          = Config.gravity_base (Config.gravity cfg)
            + inject_Z (Savefile.gravityTier tiers)
              * Config.gravity_upgrade (Config.gravity cfg)
  else mProgressDecay s' = mProgressDecay s /\ mGravity s' = mGravity s.
Proof.
  cbv zeta. unfold Watch.resets. rewrite tick_unfold.
  destruct (tick_begin_sim sinf delta s) as (_ & _ & _ & Hb_g & _).
  destruct (tick_begin_engine sinf delta s) as (_ & _ & _ & Hb_d & _).
  destruct (f32_lt_spec (mTimer s + delta) cFadeInTime) as [Hfade | Hrun];
    cbn [negb andb]; [now split |].
  destruct (early_stages_rates sinf delta s)
    as (Hd & Hg & Hp & Hcd & Hc & Hsv & _).
  remember (tick_oxy delta (tick_effort delta (tick_begin sinf delta s))) as s2
    eqn:Hs2. clear Hs2.
  destruct (tick_brick_frame delta (tick_progress delta s2))
    as (_ & _ & Hk_p & Hk_g & _ & Hk_cd & _).
  pose proof (tick_brick_decay delta (tick_progress delta s2)) as Hk_d.
  destruct (f32_lt_spec (mProgress s) 1) as [Hfill | Hfull]; cbn [negb andb].
  - rewrite Hk_d, Hk_g.
    destruct (tick_progress_rates delta s2) as [-> ->]; [now rewrite Hp |].
    now split.
  - destruct (f32_lt_spec 0 (mCooldown s)) as [Hcool | Hover]; cbn [negb].
    + rewrite Hk_d, Hk_g, tick_progress_cooling by (rewrite ?Hp, ?Hcd; lra).
      fields. now split.
    + rewrite tick_progress_reset by (rewrite ?Hp, ?Hcd; lra).
      rewrite tick_brick_idle by (fields; lra).
      fields. rewrite Hc, Hsv. repeat split.
Qed.

Lemma v2_set_dirty b sv :
  Savefile.v2 (Savefile.set_dirty b sv) = Savefile.v2 sv.
Proof. reflexivity. Qed.

Lemma completes_needs_room sinf delta s :
  1 <= mProgress s -> completes sinf delta s = false.
Proof.
  intros Hfull. unfold completes.
  destruct (tick_begin_sim sinf delta s) as (_ & _ & _ & _ & _ & _ & _ & _ & ->).
  destruct (f32_lt (mTimer s + delta) cFadeInTime); [reflexivity |].
  unfold fills.
  destruct (early_stages_rates sinf delta s) as (_ & _ & -> & _).
  destruct (f32_lt_spec (mProgress s) 1); [lra | reflexivity].
Qed.

Lemma complete_progress s : mProgress (complete s) = mProgress s.
Proof. unfold complete. fields. reflexivity. Qed.

Lemma completes_fills sinf delta s :
  completes sinf delta s = true ->
  1 <= advanced delta
         (tick_oxy delta (tick_effort delta (tick_begin sinf delta s))).
Proof.
  unfold completes.
  destruct (f32_lt (mTimer (tick_begin sinf delta s)) cFadeInTime);
    [discriminate |].
  unfold fills. intros Hc. apply andb_true_iff in Hc as [_ Hc].
  destruct (f32_le_spec 1
              (advanced delta
                 (tick_oxy delta (tick_effort delta (tick_begin sinf delta s)))));
    [assumption | discriminate].
Qed.

Lemma set_mProgress_progress v s : mProgress (set_mProgress v s) = v.
Proof. reflexivity. Qed.

Lemma completing_leaves_full sinf delta s :
  completes sinf delta s = true -> 1 <= mProgress (tick sinf delta s).
Proof.
  intros Hc. pose proof (completes_fills sinf delta s Hc) as Hadv.
  pose proof (tick_completes sinf delta s Hc) as Htick. cbv zeta in Htick.
  rewrite Htick.
  remember (tick_oxy delta (tick_effort delta (tick_begin sinf delta s))) as s2
    eqn:Hs2. clear Hs2 Htick Hc.
  destruct (tick_brick_frame delta
              (complete (set_mProgress (advanced delta s2) s2)))
    as (_ & _ & -> & _).
  rewrite complete_progress, set_mProgress_progress. exact Hadv.
Qed.

(** X11. A fill scores once.  The frame that completes it leaves the fill
    at 1 or above, and from a fill at 1 or above no frame completes
    again: the next score needs the reset in between. *)
Theorem a_fill_scores_once sinf delta delta' s :
  completes sinf delta s = true ->
  1 <= mProgress (tick sinf delta s)
  /\ completes sinf delta' (tick sinf delta s) = false
  /\ Savefile.score (Savefile.v2 (mSave (tick sinf delta' (tick sinf delta s))))
     = Savefile.score (Savefile.v2 (mSave (tick sinf delta s))).
Proof.
  intros Hc. pose proof (completing_leaves_full sinf delta s Hc) as Hfull.
  remember (tick sinf delta s) as s1 eqn:Hs1. clear Hs1 Hc.
  pose proof (completes_needs_room sinf delta' s1 Hfull) as Hnot.
  split; [exact Hfull |]. split; [exact Hnot |].
  destruct (tick_save sinf delta' s1) as [-> _].
  rewrite Hnot, v2_set_dirty. reflexivity.
Qed.

Lemma a_fill_scores_once_witness :
  completes Sample.still (1 # 2) (Sample.after Sample.almost []) = true
  /\ completes Sample.still (1 # 2)
       (tick Sample.still (1 # 2) (Sample.after Sample.almost [])) = false.
Proof.
  assert (Hc : completes Sample.still (1 # 2) (Sample.after Sample.almost [])
               = true) by (vm_compute; reflexivity).
  split; [exact Hc |].
  exact (proj1 (proj2 (a_fill_scores_once Sample.still (1 # 2) (1 # 2)
                         (Sample.after Sample.almost []) Hc))).
Defined.

(** X12. During the cooldown a frame only counts down: with the fade-in
    over, the fill complete and the cooldown running, the cooldown goes
    down by the time step, the fill, the score and the storage stay as
    they are, and a click does not count. *)
Theorem cooldown_only_counts_down sinf delta evt s :
  cFadeInTime <= mTimer s + delta ->
  1 <= mProgress s ->
  0 < mCooldown s ->
  Savefile.dirty (mSave s) = false ->
  mCooldown (tick sinf delta s) = mCooldown s - delta
  /\ mProgress (tick sinf delta s) = mProgress s
  /\ mSave (tick sinf delta s) = mSave s
  /\ mStore (tick sinf delta s) = mStore s
  /\ mEffort (on evt s) = mEffort s.
Proof.
  intros Hrun Hfull Hcool Hclean.
  assert (Hsame : Savefile.set_dirty false (mSave s) = mSave s).
  { clear - Hclean. destruct (mSave s) as [r d].
    cbn [Savefile.dirty] in Hclean. subst d. reflexivity. }
  destruct (tick_save sinf delta s) as [Hsv Hst].
  rewrite (completes_needs_room sinf delta s Hfull) in Hsv, Hst.
  rewrite Hclean in Hst. rewrite Hsame in Hsv.
  assert (Hstage :
            mCooldown (tick sinf delta s) = mCooldown s - delta
            /\ mProgress (tick sinf delta s) = mProgress s).
  { rewrite tick_unfold.
    destruct (f32_lt_spec (mTimer s + delta) cFadeInTime); [lra |].
    destruct (early_stages_rates sinf delta s) as (_ & _ & Hp & Hcd & _).
    remember (tick_oxy delta (tick_effort delta (tick_begin sinf delta s)))
      as s2 eqn:Hs2. clear Hs2 Hsv Hst.
    destruct (tick_brick_frame delta (tick_progress delta s2))
      as (_ & _ & -> & _ & _ & -> & _).
    rewrite tick_progress_cooling by (rewrite ?Hp, ?Hcd; assumption).
    cbn [mCooldown mProgress set_mCooldown]. rewrite Hcd, Hp.
    split; reflexivity. }
  destruct Hstage as [Hcd' Hp'].
  split; [exact Hcd' |]. split; [exact Hp' |]. split; [exact Hsv |].
  split; [exact Hst |].
  rewrite on_effort. destruct evt; try reflexivity.
  unfold canPush.
  destruct (f32_le_spec (mCooldown s) 0); [lra |].
  rewrite andb_false_r, andb_false_r. reflexivity.
Qed.

Lemma cooldown_only_counts_down_witness :
  mCooldown (tick Sample.still (1 # 2) (Sample.after Sample.fill []))
  = mCooldown (Sample.after Sample.fill []) - (1 # 2).
Proof.
  apply (cooldown_only_counts_down Sample.still (1 # 2) Sample.press
           (Sample.after Sample.fill []));
    vm_compute; reflexivity || discriminate.
Defined.

(** X13. Frames and events leave the tiers and the prestige alone: an event
    changes neither the save record nor the storage, and a frame changes
    of the record only the dirty flag, which it clears, and the score,
    which goes up by one (in 16 bits) when the fill completes. *)
Theorem frames_keep_the_tiers sinf delta evt s :
  mSave (on evt s) = mSave s
  /\ mStore (on evt s) = mStore s
  /\ Savefile.v2 (mSave (tick sinf delta s))
     = Savefile.set_score
         (if completes sinf delta s
          then wrap16 (Savefile.score (Savefile.v2 (mSave s)) + 1)
          else Savefile.score (Savefile.v2 (mSave s)))
         (Savefile.v2 (mSave s))
  /\ Savefile.dirty (mSave (tick sinf delta s)) = false.
Proof.
  destruct (on_frame evt s) as (_ & _ & _ & _ & Hsv & Hst).
  split; [exact Hsv |]. split; [exact Hst |].
  split; [| apply tick_dirty].
  destruct (tick_save sinf delta s) as [-> _].
  destruct (completes sinf delta s); rewrite v2_set_dirty; [reflexivity |].
  destruct (Savefile.v2 (mSave s)); reflexivity.
Qed.

(** *** The splash *)

Lemma tick_brick_splash delta s :
  (sSplash s = false ->
   Watch.requested PlaySplash (tick_brick delta s)
   = Watch.requested PlaySplash s)
  /\ (Watch.requested PlaySplash (tick_brick delta s)
      = Watch.requested PlaySplash s
      \/ Watch.requested PlaySplash (tick_brick delta s)
         = S (Watch.requested PlaySplash s)
         /\ sSplash (tick_brick delta s) = false).
Proof.
  unfold tick_brick. fields.
  destruct (f32_le_spec 0 (mBrickFall s)); [| now split; [| left]].
  destruct (f32_le_spec (mWaterY s)
              (mBrickFall s
               + Config.brick_fallSpeed (Config.brick (mConfig s)) * delta));
    destruct (sSplash s); cbn [andb]; cues; split; auto; discriminate.
Qed.

Lemma tick_oxy_splash delta s :
  sSplash (tick_oxy delta s) = sSplash s
  /\ Watch.requested PlaySplash (tick_oxy delta s)
     = Watch.requested PlaySplash s.
Proof. unfold tick_oxy. fields. f32_cases; cues; auto. Qed.

Lemma tick_effort_splash delta s :
  sSplash (tick_effort delta s) = sSplash s.
Proof. stage tick_effort. Qed.

(** The fill stage either leaves the one-shot flag alone or re-arms it in
    the reset branch, which also parks the fall at -1. *)
Lemma tick_progress_flag delta s :
  sSplash (tick_progress delta s) = sSplash s
  \/ mBrickFall (tick_progress delta s) = -1.
Proof.
  unfold tick_progress, complete. fields. f32_cases; fields; auto.
Qed.

(** X14. The splash is a one-shot: a frame requests it at most once, the
    request clears the flag that allows it, and a frame that starts with
    the flag cleared requests none (only the reset re-arms the flag, and
    in the frame of the reset nothing falls). *)
Theorem splash_is_one_shot sinf delta s :
  (sSplash s = false ->
   Watch.requested PlaySplash (tick sinf delta s)
   = Watch.requested PlaySplash s)
  /\ (Watch.requested PlaySplash (tick sinf delta s)
      = Watch.requested PlaySplash s
      \/ Watch.requested PlaySplash (tick sinf delta s)
         = S (Watch.requested PlaySplash s)
         /\ sSplash (tick sinf delta s) = false).
Proof.
  rewrite tick_unfold.
  destruct (tick_begin_engine sinf delta s) as (Hb_e & _ & Hb_s & _).
  destruct (f32_lt (mTimer s + delta) cFadeInTime).
  { unfold Watch.requested. rewrite Hb_e. split; auto. }
  assert (Hearly :
            sSplash (tick_oxy delta (tick_effort delta (tick_begin sinf delta s)))
            = sSplash s
            /\ Watch.requested PlaySplash
                 (tick_oxy delta (tick_effort delta (tick_begin sinf delta s)))
               = Watch.requested PlaySplash s).
  { destruct (tick_oxy_splash delta
                (tick_effort delta (tick_begin sinf delta s))) as [-> ->].
    rewrite tick_effort_splash, Hb_s. unfold Watch.requested.
    rewrite tick_effort_engine, Hb_e. split; reflexivity. }
  destruct Hearly as [Hflag Hcount].
  remember (tick_oxy delta (tick_effort delta (tick_begin sinf delta s))) as s2
    eqn:Hs2. clear Hs2 Hb_e Hb_s.
  destruct (tick_progress_breath delta s2) as (_ & _ & Hp_count).
  pose proof (tick_progress_flag delta s2) as Hp_flag.
  remember (tick_progress delta s2) as s3 eqn:Hs3. clear Hs3.
  destruct (tick_brick_splash delta s3) as [Hoff Hstep].
  rewrite Hcount in Hp_count. rewrite Hp_count in Hoff, Hstep. split.
  - intros Hclear. destruct Hp_flag as [Hsame | Hparked].
    + apply Hoff. rewrite Hsame, Hflag. exact Hclear.
    + rewrite tick_brick_idle by (rewrite Hparked; lra). exact Hp_count.
  - exact Hstep.
Qed.

(** *** The score line *)

Lemma tick_effort_string delta s :
  mScoreString (tick_effort delta s) = mScoreString s.
Proof. stage tick_effort. Qed.

Lemma tick_oxy_string delta s :
  mScoreString (tick_oxy delta s) = mScoreString s.
Proof. stage tick_oxy. Qed.

Lemma tick_brick_string delta s :
  mScoreString (tick_brick delta s) = mScoreString s.
Proof. unfold tick_brick. fields. f32_cases; fields; auto. Qed.

Lemma tick_progress_string delta s :
  Watch.score_shown s -> Watch.score_shown (tick_progress delta s).
Proof.
  unfold Watch.score_shown, tick_progress, complete. fields.
  f32_cases; fields; auto.
Qed.

Lemma score_shown_after_tick sinf delta s :
  Watch.score_shown s \/ Savefile.dirty (mSave s) = true ->
  Watch.score_shown (tick sinf delta s).
Proof.
  intros Hs.
  assert (Hbegin : Watch.score_shown (tick_begin sinf delta s)).
  { unfold Watch.score_shown.
    destruct (tick_begin_engine sinf delta s) as (_ & _ & _ & _ & ->).
    destruct (tick_begin_sim sinf delta s) as (_ & _ & _ & _ & _ & _ & _ & -> & _).
    destruct (Savefile.dirty (mSave s)); [reflexivity |].
    destruct Hs as [Hs | Hs]; [exact Hs | discriminate]. }
  rewrite tick_unfold.
  destruct (f32_lt (mTimer s + delta) cFadeInTime); [exact Hbegin |].
  remember (tick_begin sinf delta s) as s0 eqn:Hs0. clear Hs0 Hs.
  assert (H2 : Watch.score_shown (tick_oxy delta (tick_effort delta s0))).
  { unfold Watch.score_shown in *.
    destruct (tick_oxy_frame delta (tick_effort delta s0))
      as (_ & _ & _ & _ & _ & _ & -> & _).
    destruct (tick_effort_frame delta s0) as (_ & _ & _ & _ & _ & _ & _ & -> & _).
    rewrite tick_oxy_string, tick_effort_string. exact Hbegin. }
  remember (tick_oxy delta (tick_effort delta s0)) as s2 eqn:Hs2.
  clear Hs2 Hbegin.
  pose proof (tick_progress_string delta s2 H2) as H3.
  remember (tick_progress delta s2) as s3 eqn:Hs3. clear Hs3 H2.
  unfold Watch.score_shown in *.
  destruct (tick_brick_frame delta s3) as (_ & _ & _ & _ & _ & _ & -> & _).
  rewrite tick_brick_string. exact H3.
Qed.

Lemma score_line_invariant sinf i g :
  Watch.score_shown (Game.screen g)
  \/ Savefile.dirty (mSave (Game.screen g)) = true ->
  Watch.score_shown (Game.screen (Game.step sinf i g))
  \/ Savefile.dirty (mSave (Game.screen (Game.step sinf i g))) = true.
Proof.
  intros Hg. destruct i as [delta | evt | item]; cbn [Game.step].
  - left. cbn [Game.screen Game.tick]. now apply score_shown_after_tick.
  - cbn [Game.screen]. destruct (on_frame evt (Game.screen g))
      as (_ & _ & _ & _ & Hsv & _).
    assert (Hstr : mScoreString (on evt (Game.screen g))
                   = mScoreString (Game.screen g)).
    { unfold on. destruct evt; fields; f32_cases; fields; reflexivity. }
    unfold Watch.score_shown. rewrite Hsv, Hstr. exact Hg.
  - unfold Game.acquire, StoreSubState.acquire.
    destruct (StoreSubState.hasItem _ item);
      [cbn [snd Game.screen]; unfold Watch.score_shown; fields; exact Hg |].
    destruct (_ <? _)%Z;
      [cbn [snd Game.screen]; unfold Watch.score_shown; fields; exact Hg |].
    right. destruct (StoreItem.kind item); reflexivity.
Qed.

(** X15. The score on screen is current at the end of every frame: in any
    run of frames, events and purchases of a started game, after each
    frame the score line reads the score of the save record (a purchase
    leaves the line stale only until the next frame). *)
Theorem score_line_is_current sinf cfg disk inputs delta :
  Watch.score_shown
    (Game.screen
       (Game.run sinf (inputs ++ [Game.Tick delta]) (Game.start cfg disk))).
Proof.
  unfold Game.run. rewrite fold_left_app. cbn [fold_left Game.step].
  cbn [Game.screen Game.tick]. apply score_shown_after_tick.
  change (fold_left (fun g i => Game.step sinf i g) inputs (Game.start cfg disk))
    with (Game.run sinf inputs (Game.start cfg disk)).
  assert (Hstart : Watch.score_shown (Game.screen (Game.start cfg disk))
                   \/ Savefile.dirty (mSave (Game.screen (Game.start cfg disk)))
                      = true) by (left; reflexivity).
  revert Hstart. generalize (Game.start cfg disk) as g.
  induction inputs as [| i rest IH]; intros g Hg; [exact Hg |].
  change (Game.run sinf (i :: rest) g)
    with (Game.run sinf rest (Game.step sinf i g)).
  apply IH. now apply score_line_invariant.
Qed.

(** *** When the fill is complete *)

Lemma tick_progress_below delta s :
  0 <= delta -> 0 <= mProgressDecay s -> mProgress s < 1 ->
  (1 <= mProgress (tick_progress delta s) <-> fills delta s = true).
Proof.
  intros Hd Hdecay Hp.
  pose proof (Qmult_le_0_compat _ _ Hdecay Hd) as Hloss.
  unfold tick_progress, fills, complete.
  destruct (f32_lt_spec (mProgress s) 1); [| lra]. fields.
  destruct (f32_le_spec 1 (advanced delta s)) as [Hfull | Hshort]; cbn [andb].
  - fields. split; [reflexivity | intros _; exact Hfull].
  - split; [| discriminate]. intros Hone. exfalso. revert Hone.
    f32_cases; fields; lra.
Qed.

(** X16. The fill reaches 1 only by completing: with a non-negative time
    step and a non-negative decay rate, a frame that starts with the fill
    below 1 ends with the fill at 1 or above exactly when it takes the
    completing branch (and so scores). *)
Theorem fill_is_full_only_by_completing sinf delta s :
  0 <= delta ->
  0 <= mProgressDecay s ->
  mProgress s < 1 ->
  (1 <= mProgress (tick sinf delta s) <-> completes sinf delta s = true).
Proof.
  intros Hd Hdecay Hp. unfold completes. rewrite tick_unfold.
  destruct (tick_begin_sim sinf delta s)
    as (_ & _ & Hb_p & _ & _ & _ & _ & _ & Hb_t).
  rewrite Hb_t.
  destruct (f32_lt (mTimer s + delta) cFadeInTime).
  { rewrite Hb_p. split; [lra | discriminate]. }
  destruct (early_stages_rates sinf delta s) as (Hdec & _ & Hprog & _).
  remember (tick_oxy delta (tick_effort delta (tick_begin sinf delta s))) as s2
    eqn:Hs2. clear Hs2 Hb_p Hb_t.
  destruct (tick_brick_frame delta (tick_progress delta s2))
    as (_ & _ & -> & _).
  apply tick_progress_below; [exact Hd | | ]; rewrite ?Hdec, ?Hprog; assumption.
Qed.

Lemma fill_is_full_only_by_completing_witness :
  1 <= mProgress (tick Sample.still (1 # 2) (Sample.after Sample.almost []))
  <-> completes Sample.still (1 # 2) (Sample.after Sample.almost []) = true.
Proof.
  apply (fill_is_full_only_by_completing Sample.still (1 # 2)
           (Sample.after Sample.almost []));
    vm_compute; reflexivity || discriminate.
Defined.

Lemma synced_after_tick sinf delta s :
  Watch.synced s \/ Savefile.dirty (mSave s) = true ->
  Watch.synced (tick sinf delta s).
Proof.
  intros Hs. unfold Watch.synced in *.
  destruct (tick_save sinf delta s) as [-> ->].
  destruct (completes sinf delta s); [reflexivity |].
  destruct (Savefile.dirty (mSave s)); [reflexivity |].
  destruct Hs as [Hs | Hs]; [| discriminate].
  rewrite v2_set_dirty. exact Hs.
Qed.

Lemma synced_invariant sinf i g :
  Watch.synced (Game.screen g)
  \/ Savefile.dirty (mSave (Game.screen g)) = true ->
  Watch.synced (Game.screen (Game.step sinf i g))
  \/ Savefile.dirty (mSave (Game.screen (Game.step sinf i g))) = true.
Proof.
  intros Hg. destruct i as [delta | evt | item]; cbn [Game.step].
  - left. cbn [Game.screen Game.tick]. now apply synced_after_tick.
  - cbn [Game.screen]. destruct (on_frame evt (Game.screen g))
      as (_ & _ & _ & _ & Hsv & Hst).
    unfold Watch.synced. rewrite Hsv, Hst. exact Hg.
  - unfold Game.acquire, StoreSubState.acquire.
    destruct (StoreSubState.hasItem _ item);
      [cbn [snd Game.screen]; unfold Watch.synced; fields; exact Hg |].
    destruct (_ <? _)%Z;
      [cbn [snd Game.screen]; unfold Watch.synced; fields; exact Hg |].
    right. destruct (StoreItem.kind item); reflexivity.
Qed.

(** X27. Nothing is lost by quitting after a frame: in any run of frames,
    events and purchases of a started game, at the end of each frame the
    storage holds the save record as it is in memory, so a game started
    anew on that storage, under whatever configuration, resumes with the
    same score, prestige and tiers. *)
Theorem storage_is_current_after_each_frame sinf cfg cfg' disk inputs delta :
  let s := Game.screen
             (Game.run sinf (inputs ++ [Game.Tick delta]) (Game.start cfg disk)) in
  Watch.synced s
  /\ Savefile.v2 (mSave (Game.screen (Game.start cfg' (mStore s))))
     = Savefile.v2 (mSave s).
Proof.
  cbv zeta.
  assert (Hsync : Watch.synced
                    (Game.screen
                       (Game.run sinf (inputs ++ [Game.Tick delta])
                          (Game.start cfg disk)))).
  { unfold Game.run. rewrite fold_left_app. cbn [fold_left Game.step].
    cbn [Game.screen Game.tick]. apply synced_after_tick.
    change (fold_left (fun g i => Game.step sinf i g) inputs (Game.start cfg disk))
      with (Game.run sinf inputs (Game.start cfg disk)).
    assert (Hstart : Watch.synced (Game.screen (Game.start cfg disk))
                     \/ Savefile.dirty (mSave (Game.screen (Game.start cfg disk)))
                        = true) by (left; reflexivity).
    revert Hstart. generalize (Game.start cfg disk).
    induction inputs as [| i rest IH]; intros g Hg; [exact Hg |].
    change (Game.run sinf (i :: rest) g)
      with (Game.run sinf rest (Game.step sinf i g)).
    apply IH, synced_invariant, Hg. }
  split; [exact Hsync |].
  remember (Game.screen
              (Game.run sinf (inputs ++ [Game.Tick delta]) (Game.start cfg disk)))
    as s eqn:Es. clear Es.
  unfold Watch.synced in Hsync. rewrite <- Hsync. reflexivity.
Qed.

(** *** The water *)

Lemma tick_begin_water sinf delta s :
  mWaterX (tick_begin sinf delta s)
  = Config.water_minX (Config.water (mConfig s))
    - ((1 # 2) * sinf (1 + (12 # 10) * (mTimer s + delta)) + 1)
      * (Config.water_maxX (Config.water (mConfig s))
         - Config.water_minX (Config.water (mConfig s)))
  /\ mWaterY (tick_begin sinf delta s)
     = Config.water_minY (Config.water (mConfig s))
       + ((1 # 2) * sinf (mTimer s + delta) + 1)
         * (Config.water_maxY (Config.water (mConfig s))
            - Config.water_minY (Config.water (mConfig s))).
Proof.
  unfold tick_begin, tick_water. fields.
  destruct (Savefile.dirty (mSave s)); fields; split; reflexivity.
Qed.

Lemma tick_effort_water delta s :
  mWaterX (tick_effort delta s) = mWaterX s
  /\ mWaterY (tick_effort delta s) = mWaterY s.
Proof. stage tick_effort; split; reflexivity. Qed.

Lemma tick_oxy_water delta s :
  mWaterX (tick_oxy delta s) = mWaterX s /\ mWaterY (tick_oxy delta s) = mWaterY s.
Proof. stage tick_oxy; split; reflexivity. Qed.

Lemma tick_progress_water delta s :
  mWaterX (tick_progress delta s) = mWaterX s
  /\ mWaterY (tick_progress delta s) = mWaterY s.
Proof.
  unfold tick_progress, complete. fields. f32_cases; fields; split; reflexivity.
Qed.

Lemma tick_brick_water delta s :
  mWaterX (tick_brick delta s) = mWaterX s
  /\ mWaterY (tick_brick delta s) = mWaterY s.
Proof. unfold tick_brick. fields. f32_cases; fields; split; reflexivity. Qed.

(** X28. The water moves in a band that is not the one its configuration
    names: for a sine between -1 and 1 and a configuration whose minima are
    not above its maxima, after every frame the water's height lies
    between the midpoint of [minY] and [maxY] and half a range above
    [maxY], and its horizontal position between one and a half ranges and
    half a range to the left of [minX]. *)
Theorem water_moves_in_a_band sinf delta s :
  (forall x, -1 <= sinf x <= 1) ->
  Config.water_minX (Config.water (mConfig s))
  <= Config.water_maxX (Config.water (mConfig s)) ->
  Config.water_minY (Config.water (mConfig s))
  <= Config.water_maxY (Config.water (mConfig s)) ->
  let w := Config.water (mConfig s) in
  let rangeX := Config.water_maxX w - Config.water_minX w in
  let rangeY := Config.water_maxY w - Config.water_minY w in
  Config.water_minX w - (3 # 2) * rangeX <= mWaterX (tick sinf delta s)
  /\ mWaterX (tick sinf delta s) <= Config.water_minX w - (1 # 2) * rangeX
  /\ Config.water_minY w + (1 # 2) * rangeY <= mWaterY (tick sinf delta s)
  /\ mWaterY (tick sinf delta s) <= Config.water_maxY w + (1 # 2) * rangeY.
Proof.
  intros Hsin HX HY. cbv zeta.
  assert (Hwater : mWaterX (tick sinf delta s) = mWaterX (tick_begin sinf delta s)
                   /\ mWaterY (tick sinf delta s)
                      = mWaterY (tick_begin sinf delta s)).
  { rewrite tick_unfold.
    destruct (f32_lt (mTimer s + delta) cFadeInTime); [split; reflexivity |].
    remember (tick_begin sinf delta s) as s0 eqn:E0. clear E0.
    destruct (tick_brick_water delta
                (tick_progress delta (tick_oxy delta (tick_effort delta s0))))
      as [-> ->].
    destruct (tick_progress_water delta (tick_oxy delta (tick_effort delta s0)))
      as [-> ->].
    destruct (tick_oxy_water delta (tick_effort delta s0)) as [-> ->].
    apply tick_effort_water. }
  destruct Hwater as [-> ->].
  destruct (tick_begin_water sinf delta s) as [-> ->].
  pose proof (Hsin (1 + (12 # 10) * (mTimer s + delta))) as H1.
  pose proof (Hsin (mTimer s + delta)) as H2.
  remember (sinf (1 + (12 # 10) * (mTimer s + delta))) as a eqn:Ea. clear Ea.
  remember (sinf (mTimer s + delta)) as b eqn:Eb. clear Eb.
  remember (Config.water_minX (Config.water (mConfig s))) as x0 eqn:E1. clear E1.
  remember (Config.water_maxX (Config.water (mConfig s))) as x1 eqn:E2. clear E2.
  remember (Config.water_minY (Config.water (mConfig s))) as y0 eqn:E3. clear E3.
  remember (Config.water_maxY (Config.water (mConfig s))) as y1 eqn:E4. clear E4.
  repeat split; nra.
Qed.

Lemma water_moves_in_a_band_witness :
  mWaterY (tick Sample.still 1 (Sample.after [] []))
  <= Config.water_maxY (Config.water Sample.cfg)
     + (1 # 2) * (Config.water_maxY (Config.water Sample.cfg)
                  - Config.water_minY (Config.water Sample.cfg)).
Proof.
  assert (Hsin : forall x, -1 <= Sample.still x <= 1)
    by (intros x; split; discriminate).
  assert (HX : Config.water_minX (Config.water (mConfig (Sample.after [] [])))
               <= Config.water_maxX (Config.water (mConfig (Sample.after [] []))))
    by discriminate.
  assert (HY : Config.water_minY (Config.water (mConfig (Sample.after [] [])))
               <= Config.water_maxY (Config.water (mConfig (Sample.after [] []))))
    by discriminate.
  exact (proj2 (proj2 (proj2
           (water_moves_in_a_band Sample.still 1 (Sample.after [] [])
              Hsin HX HY)))).
Defined.

End PlayFacts.

(** ** The store overlay's events *)

Module OverlayFacts.

Import StoreScreen.

Lemma nthOffered_In save items :
  forall i hover item,
    StoreSubState.nthOffered save items i hover = Some item -> In item items.
Proof.
  induction items as [| x rest IH]; intros i hover item; simpl; [discriminate |].
  destruct (_ >? _).
  - intros H. right. eapply IH, H.
  - destruct (i =? hover).
    + intros [= <-]. now left.
    + intros H. right. eapply IH, H.
Qed.

Lemma getHoveredItem_In o save cfg item :
  StoreSubState.getHoveredItem o save cfg = Some item ->
  In item (Config.store cfg).
Proof.
  unfold StoreSubState.getHoveredItem.
  destruct (_ <? 0); [discriminate | apply nthOffered_In].
Qed.

(** What [acquire] does to the save record for an item on offer. *)
Lemma acquire_offered o save item :
  StoreItem.prestige item <= Savefile.prestige (Savefile.v2 save) ->
  snd (StoreSubState.acquire o save item) = save
  \/ StoreItem.price item <= Savefile.score (Savefile.v2 save)
     /\ Savefile.dirty (snd (StoreSubState.acquire o save item)) = true
     /\ Savefile.score (Savefile.v2 (snd (StoreSubState.acquire o save item)))
        = wrap16 (Savefile.score (Savefile.v2 save) - StoreItem.price item)
     /\ Savefile.prestige (Savefile.v2 (snd (StoreSubState.acquire o save item)))
        = Savefile.prestige (Savefile.v2 save)
     /\ match Spec.tierOf (StoreItem.kind item) (Savefile.v2 save) with
        | Some tier =>
            tier < StoreItem.argument item
            /\ Spec.tierOf (StoreItem.kind item)
                 (Savefile.v2 (snd (StoreSubState.acquire o save item)))
               = Some (StoreItem.argument item)
            /\ StoreScreen.tier_gained (Savefile.v2 save)
                 (Savefile.v2 (snd (StoreSubState.acquire o save item)))
        | None =>
            Spec.tiers_eq (Savefile.v2 save)
              (Savefile.v2 (snd (StoreSubState.acquire o save item)))
        end.
Proof.
  intros Hfloor. unfold StoreSubState.acquire, StoreSubState.hasItem.
  destruct (Z.ltb_spec (Savefile.prestige (Savefile.v2 save))
                       (StoreItem.prestige item)); [lia |].
  unfold Spec.tierOf, tier_gained, Spec.tiers_eq.
  destruct (StoreItem.kind item);
    repeat match goal with
      | |- context [?a >=? ?b] =>
          destruct (Z.geb_spec a b); try (left; reflexivity)
      | |- context [?a <? ?b] =>
          destruct (Z.ltb_spec a b); try (left; reflexivity)
      end;
    right; cbn; unfold SDL_max;
    repeat match goal with
      | |- context [?a >? ?b] => destruct (Z.gtb_spec a b); try lia
      end;
    repeat split; auto; lia.
Qed.

(** X17. Through the overlay's click handler nothing is charged for
    without a gain: whatever the event, either the save record is as it
    was, or an item of the store whose prestige floor is met was bought:
    its price was within the score and came off it, the record is marked
    dirty, and if the item is a tier item its tier was below the item's
    argument and is now the argument. *)
Theorem on_charges_only_for_a_gain cPad evt cfg s save :
  snd (on cPad evt cfg s save) = save
  \/ exists item,
      In item (Config.store cfg)
      /\ StoreItem.prestige item <= Savefile.prestige (Savefile.v2 save)
      /\ StoreItem.price item <= Savefile.score (Savefile.v2 save)
      /\ Savefile.dirty (snd (on cPad evt cfg s save)) = true
      /\ Savefile.score (Savefile.v2 (snd (on cPad evt cfg s save)))
         = wrap16 (Savefile.score (Savefile.v2 save) - StoreItem.price item)
      /\ match Spec.tierOf (StoreItem.kind item) (Savefile.v2 save) with
         | Some tier =>
             tier < StoreItem.argument item
             /\ Spec.tierOf (StoreItem.kind item)
                  (Savefile.v2 (snd (on cPad evt cfg s save)))
                = Some (StoreItem.argument item)
             /\ tier_gained (Savefile.v2 save)
                  (Savefile.v2 (snd (on cPad evt cfg s save)))
         | None =>
             Spec.tiers_eq (Savefile.v2 save)
               (Savefile.v2 (snd (on cPad evt cfg s save)))
         end.
Proof.
  destruct evt as [x y | x y | amount |]; try (left; reflexivity).
  unfold on. destruct (offWindow x y); [left; reflexivity |].
  cbv zeta. destruct (_ || _); [left; reflexivity |].
  destruct (StoreSubState.getHoveredItem _ save cfg) as [item |] eqn:Hitem;
    [| left; reflexivity].
  pose proof (StoreFacts.getHoveredItem_prestige _ _ _ _ Hitem) as Hfloor.
  pose proof (getHoveredItem_In _ _ _ _ Hitem) as Hin.
  destruct (acquire_offered
              (set_timer 0%Q (updateItemHover cPad x y (overlay s))) save item
              Hfloor) as [Hsame | (Hprice & Hdirty & Hscore & _ & Htier)].
  - left. destruct (StoreSubState.acquire _ save item) as [[e o'] save'].
    exact Hsame.
  - right. exists item.
    destruct (StoreSubState.acquire _ save item) as [[e o'] save'].
    cbn [snd] in *. auto 10.
Qed.

(** X18. The scroll position stays between 0 and 7: a scroll event moves
    it by the amount scrolled and clamps it there (to 0 from below, to 7
    from above), and no other event moves it. *)
Theorem scroll_stays_in_range cPad evt cfg s save :
  let o := overlay s in
  let o' := overlay (fst (on cPad evt cfg s save)) in
  match evt with
  | MouseScroll amount =>
      StoreSubState.mScroll o'
      = Z.max 0 (Z.min 7 (StoreSubState.mScroll o + amount))
      /\ 0 <= StoreSubState.mScroll o' <= 7
      /\ (0 <= StoreSubState.mScroll o + amount <= 7 ->
          StoreSubState.mScroll o' = StoreSubState.mScroll o + amount)
  | _ => StoreSubState.mScroll o' = StoreSubState.mScroll o
  end.
Proof.
  cbv zeta. destruct evt as [x y | x y | amount |]; try reflexivity.
  - unfold on. destruct (offWindow x y); [reflexivity |].
    cbv zeta.
    assert (Hh : StoreSubState.mScroll (updateItemHover cPad x y (overlay s))
                 = StoreSubState.mScroll (overlay s))
      by (unfold updateItemHover; destruct (offItems cPad x y); reflexivity).
    destruct (_ || _); [exact Hh |].
    destruct (StoreSubState.getHoveredItem _ save cfg) as [item |];
      [| exact Hh].
    unfold StoreSubState.acquire.
    destruct (StoreSubState.hasItem save item); [exact Hh |].
    destruct (_ <? _); [exact Hh |].
    destruct (StoreItem.kind item); exact Hh.
  - unfold on, updateItemHover. cbn [fst overlay].
    destruct (offItems cPad x y); reflexivity.
  - cbn. unfold SDL_clamp, cMinScroll, cMaxScroll.
    destruct (Z.ltb_spec (StoreSubState.mScroll (overlay s) + amount) 0);
      [lia |].
    destruct (Z.gtb_spec (StoreSubState.mScroll (overlay s) + amount) 7); lia.
Qed.

(** X19. A click off the window closes the overlay and does nothing else;
    a click on the window never closes it; and only a click can change the
    save record or ask anything of the engine. *)
Theorem clicks_off_the_window_close cPad evt cfg s save :
  match evt with
  | MouseDown x y =>
      if offWindow x y
      then on cPad evt cfg s save
           = (mk (overlay s) (mPurchaseFloatAnchor s)
                 (PopSubState :: engine s), save)
      else ~ In PopSubState (engine s) ->
           ~ In PopSubState (engine (fst (on cPad evt cfg s save)))
  | _ =>
      snd (on cPad evt cfg s save) = save
      /\ engine (fst (on cPad evt cfg s save)) = engine s
  end.
Proof.
  destruct evt as [x y | x y | amount |]; try (split; reflexivity).
  unfold on. destruct (offWindow x y); [reflexivity |].
  cbv zeta. intros Hnone.
  destruct (_ || _); [exact Hnone |].
  destruct (StoreSubState.getHoveredItem _ save cfg) as [item |];
    [| exact Hnone].
  destruct (StoreSubState.acquire _ save item) as [[e o'] save'].
  cbn [fst engine]. destruct e; try exact Hnone.
  intros [Habs | Hin]; [discriminate | now apply Hnone].
Qed.

Local Open Scope Q_scope.

Lemma s32_of_f32_floor (q : Q) :
  0 <= q ->
  inject_Z (s32_of_f32 q) <= q /\ q < inject_Z (s32_of_f32 q) + 1.
Proof.
  destruct q as [n d]. unfold Qle, Qlt, s32_of_f32, inject_Z, Qplus.
  cbn [Qnum Qden]. intros Hn.
  rewrite Z.quot_div_nonneg by lia.
  pose proof (Z.mul_div_le n (Zpos d) ltac:(lia)).
  pose proof (Z.mul_succ_div_gt n (Zpos d) ltac:(lia)).
  rewrite ?Z.mul_1_r, ?Pos.mul_1_r.
  split; rewrite Z.mul_comm; [exact H | exact H0].
Qed.

Lemma s32_of_f32_monotone (a b : Q) :
  0 <= a -> a <= b -> (s32_of_f32 a <= s32_of_f32 b)%Z.
Proof.
  intros Ha Hab.
  destruct (s32_of_f32_floor a Ha) as [Hlo _].
  destruct (s32_of_f32_floor b ltac:(lra)) as [_ Hhi].
  assert (H : inject_Z (s32_of_f32 a) < inject_Z (s32_of_f32 b + 1)).
  { rewrite inject_Z_plus. change (inject_Z 1) with 1. lra. }
  rewrite <- Zlt_Qlt in H. lia.
Qed.

(** The quotient [row] truncates, at a pointer on the item area. *)
Lemma row_offset cPad x y o :
  0 < cItemH cPad ->
  (0 <= StoreSubState.mScroll o)%Z ->
  offItems cPad x y = false ->
  0 <= (y + inject_Z (StoreSubState.mScroll o) * cScrollScalar
        - cItemAreaY cPad) / cItemH cPad.
Proof.
  intros Hrow Hscroll Hoff. unfold offItems in Hoff.
  apply orb_false_iff in Hoff as [Hoff _].
  apply orb_false_iff in Hoff as [_ Hy].
  assert (Hbelow : cItemAreaY cPad <= y).
  { unfold f32_lt in Hy. now destruct (Qlt_le_dec y (cItemAreaY cPad)). }
  assert (Hs : 0 <= inject_Z (StoreSubState.mScroll o) * cScrollScalar).
  { apply Qmult_le_0_compat; [| unfold cScrollScalar; lra].
    change 0 with (inject_Z 0). now rewrite <- Zle_Qle. }
  apply Qle_shift_div_l; [exact Hrow | lra].
Qed.

(** X20. The hover tells a row from a pointer off the list: off the item
    area [updateItemHover] stores -1; on it, with rows of positive height
    and a scroll position that is not negative, it stores a row number
    from 0 up, so that the test for -1 of the click handler finds exactly
    the pointers off the item area; and the row does not go down when the
    pointer moves down or the list is scrolled further. *)
Theorem hover_tells_rows_from_off_the_list cPad x y x' y' o o' :
  0 < cItemH cPad ->
  (0 <= StoreSubState.mScroll o)%Z ->
  (if offItems cPad x y
   then StoreSubState.mItemHover (updateItemHover cPad x y o) = (-1)%Z
   else (0 <= StoreSubState.mItemHover (updateItemHover cPad x y o))%Z)
  /\ (offItems cPad x y = false ->
      offItems cPad x' y' = false ->
      y <= y' ->
      (StoreSubState.mScroll o <= StoreSubState.mScroll o')%Z ->
      (StoreSubState.mItemHover (updateItemHover cPad x y o)
       <= StoreSubState.mItemHover (updateItemHover cPad x' y' o'))%Z).
Proof.
  intros Hrow Hscroll. split.
  - unfold updateItemHover.
    destruct (offItems cPad x y) eqn:Hoff; [reflexivity |].
    cbn [StoreSubState.mItemHover set_hover]. unfold row.
    pose proof (row_offset cPad x y o Hrow Hscroll Hoff) as Hq.
    destruct (s32_of_f32_floor _ Hq) as [_ Hhi].
    destruct (s32_of_f32 _) as [| p | p]; try lia.
    exfalso. assert (inject_Z (Z.neg p) + 1 <= 0).
    { unfold Qle, inject_Z, Qplus. cbn [Qnum Qden]. lia. }
    lra.
  - intros Hoff Hoff' Hy Hs. unfold updateItemHover. rewrite Hoff, Hoff'.
    cbn [StoreSubState.mItemHover set_hover]. unfold row.
    apply s32_of_f32_monotone;
      [exact (row_offset cPad x y o Hrow Hscroll Hoff) |].
    assert (Hi : inject_Z (StoreSubState.mScroll o)
                 <= inject_Z (StoreSubState.mScroll o'))
      by now rewrite <- Zle_Qle.
    assert (Hm : inject_Z (StoreSubState.mScroll o) * cScrollScalar
                 <= inject_Z (StoreSubState.mScroll o') * cScrollScalar).
    { apply Qmult_le_compat_r; [exact Hi | unfold cScrollScalar; lra]. }
    unfold Qdiv. apply Qmult_le_compat_r; [lra |].
    apply Qlt_le_weak, Qinv_lt_0_compat, Hrow.
Qed.

Lemma hover_tells_rows_from_off_the_list_witness :
  (0 <= StoreSubState.mItemHover
          (updateItemHover (1 # 100) (1 # 2) (1 # 5) StoreSubState.initial))%Z
  /\ (StoreSubState.mItemHover
        (updateItemHover (1 # 100) (1 # 2) (1 # 5) StoreSubState.initial)
      <= StoreSubState.mItemHover
           (updateItemHover (1 # 100) (1 # 2) (1 # 2)
              (set_scroll 3 StoreSubState.initial)))%Z.
Proof.
  assert (Hrow : 0 < cItemH (1 # 100)) by reflexivity.
  assert (Hscroll : (0 <= StoreSubState.mScroll StoreSubState.initial)%Z)
    by (simpl; lia).
  destruct (hover_tells_rows_from_off_the_list (1 # 100) (1 # 2) (1 # 5)
              (1 # 2) (1 # 2) StoreSubState.initial
              (set_scroll 3 StoreSubState.initial) Hrow Hscroll)
    as [Hon Hup].
  split; [exact Hon |].
  apply Hup; [reflexivity | reflexivity | discriminate | simpl; lia].
Defined.

End OverlayFacts.

(** ** The purchase notification over the frames *)

Module NoticeFacts.

Import StoreSubState SimFacts.

Local Open Scope Q_scope.

(** Without a notification a frame changes nothing. *)
Lemma ticks_idle deltas o :
  mPurchaseFloat o = cNoPurchaseFloat -> StoreScreen.ticks deltas o = o.
Proof.
  revert o. induction deltas as [| delta rest IH]; intros o Ho; [reflexivity |].
  change (StoreScreen.ticks (delta :: rest) o)
    with (StoreScreen.ticks rest (tick delta o)).
  assert (Hsame : tick delta o = o) by (unfold tick; rewrite Ho; reflexivity).
  rewrite Hsame. apply IH, Ho.
Qed.

(** X21. A notification is up exactly while its timer is short of the
    lifetime: after any frames of an overlay whose notification is up with
    a timer below 5, the notification is still the one it was if the timer
    the overlay has by then is below 5, and is cleared if that timer has
    reached 5 (the timer stops with the notification); the frames touch
    neither the hovered row nor the scroll position. *)
Theorem notification_is_up_while_its_timer_runs deltas o :
  mPurchaseFloat o <> cNoPurchaseFloat ->
  mPurchaseFloatTimer o < cPurchaseFloatLifetime ->
  mPurchaseFloat (StoreScreen.ticks deltas o)
  = (if f32_le cPurchaseFloatLifetime
          (mPurchaseFloatTimer (StoreScreen.ticks deltas o))
     then cNoPurchaseFloat else mPurchaseFloat o)
  /\ mItemHover (StoreScreen.ticks deltas o) = mItemHover o
  /\ mScroll (StoreScreen.ticks deltas o) = mScroll o.
Proof.
  revert o. induction deltas as [| delta rest IH]; intros o Hup Htimer.
  - cbn [StoreScreen.ticks fold_left].
    destruct (f32_le_spec cPurchaseFloatLifetime (mPurchaseFloatTimer o));
      [lra | repeat split].
  - change (StoreScreen.ticks (delta :: rest) o)
      with (StoreScreen.ticks rest (tick delta o)).
    unfold tick.
    destruct (mPurchaseFloat o =? cNoPurchaseFloat)%Z eqn:Hf;
      [apply Z.eqb_eq in Hf; contradiction |].
    cbn [negb].
    destruct (f32_le_spec cPurchaseFloatLifetime (mPurchaseFloatTimer o + delta))
      as [Hgone | Hstill].
    + rewrite ticks_idle by reflexivity.
      cbn [mPurchaseFloat mPurchaseFloatTimer mItemHover mScroll].
      destruct (f32_le_spec cPurchaseFloatLifetime
                  (mPurchaseFloatTimer o + delta)); [repeat split | lra].
    + destruct (IH (mk (mItemHover o) (mPurchaseFloat o)
                       (mPurchaseFloatTimer o + delta) (mScroll o) (source o))
                  Hup Hstill) as (Hfloat & Hhover & Hscroll).
      rewrite Hfloat, Hhover, Hscroll. repeat split.
Qed.

Lemma notification_is_up_while_its_timer_runs_witness :
  mPurchaseFloat
    (StoreScreen.ticks [2; 2; 2]
       (snd (fst (acquire initial (Sample.save_with 20 0) Sample.lube2))))
  = cNoPurchaseFloat.
Proof.
  assert (Hup : mPurchaseFloat
                  (snd (fst (acquire initial (Sample.save_with 20 0) Sample.lube2)))
                <> cNoPurchaseFloat) by discriminate.
  assert (Htimer : mPurchaseFloatTimer
                     (snd (fst (acquire initial (Sample.save_with 20 0)
                                  Sample.lube2)))
                   < cPurchaseFloatLifetime) by reflexivity.
  exact (proj1 (notification_is_up_while_its_timer_runs [2; 2; 2] _ Hup Htimer)).
Defined.

End NoticeFacts.

(** ** The console commands *)

Module ConsoleFacts.

Import ShitState SimFacts Console.

Lemma read_write f g z sv :
  read g (write f z sv)
  = match f, g with
    | LubeTier, LubeTier | GravityTier, GravityTier | Score, Score => z
    | _, _ => read g sv
    end.
Proof. destruct f, g; reflexivity. Qed.

(** X22. A console command that sets a field sets that field of the save
    record in memory and nothing else: the other fields, the dirty flag,
    the storage, the score line and the two rates derived from the tiers
    stay as they were, and the command prints the value it stored.  With a
    clean record, the next frame hands nothing to the storage unless it
    completes a fill. *)
Theorem console_sets_the_field_only lexical_cast sinf f arg z delta s :
  lexical_cast arg = Some z ->
  let s' := fst (command lexical_cast f [arg] s) in
  read f (mSave s') = z
  /\ (forall g, g <> f -> read g (mSave s') = read g (mSave s))
  /\ Savefile.prestige (Savefile.v2 (mSave s'))
     = Savefile.prestige (Savefile.v2 (mSave s))
  /\ Savefile.oxyTier (Savefile.v2 (mSave s'))
     = Savefile.oxyTier (Savefile.v2 (mSave s))
  /\ Savefile.dirty (mSave s') = Savefile.dirty (mSave s)
  /\ mStore s' = mStore s
  /\ mScoreString s' = mScoreString s
  /\ mProgressDecay s' = mProgressDecay s
  /\ mGravity s' = mGravity s
  /\ snd (command lexical_cast f [arg] s)
     = [ConsolePrint (String.append (label f) (show_s16 z))]
  /\ (Savefile.dirty (mSave s) = false ->
      completes sinf delta s' = false ->
      mStore (tick sinf delta s') = mStore s).
Proof.
  intros Hcast. cbv zeta. unfold command. rewrite Hcast. cbn [fst snd].
  assert (Hsave : mSave (set_mSave (write f z (mSave s)) s) = write f z (mSave s))
    by reflexivity.
  assert (Hstore : mStore (set_mSave (write f z (mSave s)) s) = mStore s)
    by reflexivity.
  assert (Hdirty : Savefile.dirty (write f z (mSave s)) = Savefile.dirty (mSave s))
    by (destruct f; reflexivity).
  rewrite Hsave, Hstore, Hdirty, read_write.
  split; [destruct f; reflexivity |].
  split; [intros g Hg; rewrite read_write; destruct f, g; congruence |].
  split; [destruct f; reflexivity |].
  split; [destruct f; reflexivity |].
  split; [reflexivity |].
  split; [reflexivity |].
  split; [reflexivity |].
  split; [reflexivity |].
  split; [reflexivity |].
  split; [destruct f; reflexivity |].
  intros Hclean Hnofill.
  destruct (tick_save sinf delta (set_mSave (write f z (mSave s)) s)) as [_ ->].
  rewrite Hnofill, Hsave, Hdirty, Hclean, Hstore. reflexivity.
Qed.

Lemma console_sets_the_field_only_witness :
  Savefile.score
    (Savefile.v2
       (mSave (fst (command (fun _ => Some 3%Z) Score ["3"%string]
                      (Sample.after [] Sample.funded))))) = 3%Z
  /\ mScoreString (fst (command (fun _ => Some 3%Z) Score ["3"%string]
                          (Sample.after [] Sample.funded)))
     = "Score: 50"%string.
Proof.
  pose proof (console_sets_the_field_only (fun _ => Some 3%Z) Sample.still
                Score "3"%string 3%Z (1 # 60) (Sample.after [] Sample.funded)
                eq_refl) as H.
  cbv zeta in H. destruct H as (Hset & _ & _ & _ & _ & _ & Hline & _).
  split; [exact Hset | rewrite Hline; reflexivity].
Defined.

(** X23. Short of one argument that reads as a number a console command
    changes nothing on the screen, whatever the field and however many the
    arguments; a single argument that does not read as a number is
    reported as an error. *)
Theorem console_changes_nothing_otherwise lexical_cast f args s :
  (forall arg, args = [arg] -> lexical_cast arg = None) ->
  fst (command lexical_cast f args s) = s
  /\ (forall arg, args = [arg] ->
      snd (command lexical_cast f args s)
      = [ConsoleError (String.append "bad numeric literal: " arg)]).
Proof.
  intros Hbad. destruct args as [| arg [| arg2 more]].
  - split; [reflexivity | discriminate].
  - unfold command. rewrite (Hbad arg eq_refl).
    split; [reflexivity |]. intros arg' [= <-]. reflexivity.
  - split; [reflexivity | discriminate].
Qed.

Lemma console_changes_nothing_otherwise_witness :
  fst (command (fun _ => None) Score ["many"%string]
         (Sample.after [] Sample.funded))
  = Sample.after [] Sample.funded.
Proof.
  exact (proj1 (console_changes_nothing_otherwise (fun _ => None) Score
                  ["many"%string] (Sample.after [] Sample.funded)
                  (fun _ _ => eq_refl))).
Defined.

End ConsoleFacts.

(** ** The intro screen *)

Module IntroFacts.

Import IntroState SimFacts.

Local Open Scope Q_scope.

Lemma intro_run_cons delta rest s :
  run (delta :: rest) s
  = if snd (tick delta s) then (fst (tick delta s), true)
    else run rest (fst (tick delta s)).
Proof. simpl. destruct (tick delta s) as [s' swapped]. reflexivity. Qed.

(** A frame keeps the phases in order, and asks for the menu only when it
    finds all three over. *)
Lemma tick_in_order delta s :
  in_order s ->
  in_order (fst (tick delta s))
  /\ (snd (tick delta s) = true ->
      fst (tick delta s) = s
      /\ cFadeInDur <= mFadeIn s
      /\ cLingerDur <= mLinger s
      /\ cFadeOutDur <= mFadeOut s).
Proof.
  intros [Hl Ho]. unfold tick, in_order.
  destruct (f32_lt_spec (mFadeIn s) cFadeInDur) as [H1 | H1];
    cbn [fst snd mFadeIn mLinger mFadeOut].
  { split; [| discriminate].
    split; [destruct Hl as [Hl | Hl]; [left; exact Hl | lra] |].
    destruct Ho as [Ho | [Ho _]]; [left; exact Ho | lra]. }
  destruct (f32_lt_spec (mLinger s) cLingerDur) as [H2 | H2];
    cbn [fst snd mFadeIn mLinger mFadeOut].
  { split; [| discriminate].
    split; [right; exact H1 |].
    destruct Ho as [Ho | [_ Ho]]; [left; exact Ho | lra]. }
  destruct (f32_lt_spec (mFadeOut s) cFadeOutDur) as [H3 | H3];
    cbn [fst snd mFadeIn mLinger mFadeOut].
  { split; [| discriminate]. split; [right; exact H1 | right; split; assumption]. }
  split; [split; [exact Hl | exact Ho] |]. intros _. repeat split; assumption.
Qed.

Lemma run_in_order deltas :
  forall s,
    in_order s ->
    in_order (fst (run deltas s))
    /\ (snd (run deltas s) = true ->
        cFadeInDur <= mFadeIn (fst (run deltas s))
        /\ cLingerDur <= mLinger (fst (run deltas s))
        /\ cFadeOutDur <= mFadeOut (fst (run deltas s))).
Proof.
  induction deltas as [| delta rest IH]; intros s Hs.
  - split; [exact Hs | discriminate].
  - rewrite intro_run_cons.
    destruct (tick_in_order delta s Hs) as [Hnext Hswap].
    destruct (snd (tick delta s)); cbn [fst snd].
    + split; [exact Hnext |]. intros _.
      destruct (Hswap eq_refl) as (-> & Hrest). exact Hrest.
    + apply IH, Hnext.
Qed.

(** X24. The intro screen goes through its three phases in order, whatever
    the frames, and asks for the menu only after all three: after any
    frames from the start the linger timer is still 0 unless the fade-in
    timer has reached its duration, the fade-out timer is still 0 unless
    the fade-in and the linger timers have reached theirs, and if one of
    the frames asked for the menu, each of the three timers has reached its
    duration (2, 3 and 2). *)
Theorem intro_phases_run_in_order deltas :
  let s := fst (run deltas initial) in
  (mLinger s = 0 \/ cFadeInDur <= mFadeIn s)
  /\ (mFadeOut s = 0 \/ cFadeInDur <= mFadeIn s /\ cLingerDur <= mLinger s)
  /\ (snd (run deltas initial) = true ->
      cFadeInDur <= mFadeIn s
      /\ cLingerDur <= mLinger s
      /\ cFadeOutDur <= mFadeOut s).
Proof.
  cbv zeta.
  assert (Hstart : in_order initial) by (split; left; reflexivity).
  destruct (run_in_order deltas initial Hstart) as [[Hl Ho] Hswap].
  split; [exact Hl |]. split; [exact Ho | exact Hswap].
Qed.

End IntroFacts.

(** ** The end-of-run screen over its frames *)

Module EndRunFacts.

Import EndState SimFacts.

Local Open Scope Q_scope.

Lemma end_run_cons delta rest s :
  EndRun.run (delta :: rest) s
  = if fst (tick delta s) then EndRun.run rest (snd (tick delta s))
    else (snd (tick delta s), true).
Proof. simpl. destruct (tick delta s) as [alive s']. reflexivity. Qed.

Lemma end_tick_frame delta s :
  mStore (snd (tick delta s)) = mStore s
  /\ mSave (snd (tick delta s)) = mSave s
  /\ mCountdown (snd (tick delta s)) = mCountdown s - delta
  /\ fst (tick delta s) = negb (f32_le (mCountdown s - delta) 0)
  /\ EndRun.dialogs (snd (tick delta s))
     = (EndRun.dialogs s
        + if negb (fst (tick delta s))
             && (Savefile.prestige (Savefile.v2 (mSave s)) =? 1)%Z
          then 1 else 0)%nat.
Proof.
  unfold tick. cbn [mCountdown mSave mStore engine].
  destruct (f32_le (mCountdown s - delta) 0); cbn [fst snd negb andb].
  - destruct (Savefile.prestige (Savefile.v2 (mSave s)) =? 1)%Z;
      cbn [mCountdown mSave mStore]; repeat split;
      unfold EndRun.dialogs; cbn [engine filter List.length]; lia.
  - repeat split. unfold EndRun.dialogs. cbn [engine]. lia.
Qed.

Lemma end_run_frame deltas :
  forall s,
    0 < mCountdown s ->
    mStore (fst (EndRun.run deltas s)) = mStore s
    /\ mSave (fst (EndRun.run deltas s)) = mSave s
    /\ snd (EndRun.run deltas s) = f32_le (mCountdown (fst (EndRun.run deltas s))) 0
    /\ EndRun.dialogs (fst (EndRun.run deltas s))
       = (EndRun.dialogs s
          + if snd (EndRun.run deltas s)
               && (Savefile.prestige (Savefile.v2 (mSave s)) =? 1)%Z
            then 1 else 0)%nat.
Proof.
  induction deltas as [| delta rest IH]; intros s Hleft.
  - cbn [EndRun.run fst snd andb].
    destruct (f32_le_spec (mCountdown s) 0); [lra |].
    repeat split. lia.
  - rewrite end_run_cons.
    destruct (end_tick_frame delta s) as (Hst & Hsv & Hcd & Halive & Hdlg).
    rewrite Halive in *.
    destruct (f32_le_spec (mCountdown s - delta) 0) as [Hover | Hon];
      cbn [negb fst snd] in *.
    + rewrite Hst, Hsv, Hdlg, Hcd. cbn [andb].
      destruct (f32_le_spec (mCountdown s - delta) 0); [repeat split | lra].
    + assert (Hleft' : 0 < mCountdown (snd (tick delta s))) by (rewrite Hcd; lra).
      destruct (IH _ Hleft') as (Hst' & Hsv' & Hover' & Hdlg').
      rewrite Hst', Hsv', Hdlg', Hst, Hsv, Hdlg.
      cbn [andb]. rewrite Nat.add_0_r.
      repeat split. exact Hover'.
Qed.

(** X26. The end-of-run screen is over exactly when its countdown has run
    out, and announces the new store item exactly after the first run: on
    a screen just entered, after any frames, a frame has returned [false]
    if and only if the countdown the screen has by then is at or below 0;
    the dialog is shown once if that has happened and the prestige loaded
    on entry was 0, and not at all otherwise; the frames leave the storage
    and the record written on entry alone. *)
Theorem end_screen_ends_with_its_countdown disk deltas :
  let p := Savefile.prestige
             (Storage.nqLoad "save.json" disk (Savefile.v2 Savefile.default)) in
  let r := EndRun.run deltas (enter disk) in
  s16_range p ->
  snd r = f32_le (mCountdown (fst r)) 0
  /\ EndRun.dialogs (fst r) = (if snd r && (p =? 0)%Z then 1 else 0)%nat
  /\ mStore (fst r) = mStore (enter disk)
  /\ mSave (fst r) = mSave (enter disk).
Proof.
  cbv zeta. intros Hp.
  destruct (end_run_frame deltas (enter disk) ltac:(reflexivity))
    as (Hst & Hsv & Hover & Hdlg).
  split; [exact Hover |]. split; [| split; assumption].
  rewrite Hdlg.
  change (EndRun.dialogs (enter disk)) with 0%nat.
  change (Savefile.prestige (Savefile.v2 (mSave (enter disk))))
    with (wrap16 (Savefile.prestige
                    (Storage.nqLoad "save.json" disk (Savefile.v2 Savefile.default))
                  + 1)).
  remember (Savefile.prestige
              (Storage.nqLoad "save.json" disk (Savefile.v2 Savefile.default)))
    as p eqn:Ep. clear Ep.
  assert (Hone : (wrap16 (p + 1) =? 1)%Z = (p =? 0)%Z).
  { unfold s16_range in Hp.
    destruct (Z.eq_dec p 32767) as [-> | Hmax]; [reflexivity |].
    rewrite (wrap16_range (p + 1)) by (unfold s16_range; lia).
    destruct (Z.eqb_spec (p + 1) 1), (Z.eqb_spec p 0); try reflexivity; lia. }
  rewrite Hone. reflexivity.
Qed.

Lemma end_screen_ends_with_its_countdown_witness :
  snd (EndRun.run [1; 1] (enter [])) = true
  /\ EndRun.dialogs (fst (EndRun.run [1; 1] (enter []))) = 1%nat.
Proof.
  assert (Hp : s16_range
                 (Savefile.prestige
                    (Storage.nqLoad "save.json" [] (Savefile.v2 Savefile.default))))
    by (unfold s16_range; simpl; lia).
  pose proof (end_screen_ends_with_its_countdown [] [1; 1]) as H.
  cbv zeta in H.
  destruct (H Hp) as (Hover & Hdlg & _).
  split; [exact Hover | exact Hdlg].
Defined.

End EndRunFacts.
